(** * ipaddresses: registry dump loader and longest-prefix counting

    A shallow embedding of [parse.py]: the range splitter [split_range],
    the loader [load_networks] with its overlap rule and its final filter,
    and the counting pass [guess_subnets] / [count_ips].

    Text is modelled as [string] (8-bit characters, which is what the
    iso-8859-1 decoding of the dump yields), addresses as [Z] in
    [0, 2^32), Python's exceptions as the error side of [result], and the
    table [data] / [networks] as a finite map from networks to entries.
    The parts of Python's [ipaddress] module that the program calls are
    embedded as well, from the module's code. *)

From Stdlib Require Import ZArith List Ascii String Lia Bool DecimalString Sorted.
From stdpp Require Import gmap strings list fin_maps.
From Equations Require Import Equations.

Local Open Scope string_scope.
Local Open Scope Z_scope.

(** ** Exceptions *)

Inductive exn : Type :=
| KeyError
| IndexError
| ValueError
| TypeError
| AddressValueError
| NetmaskValueError.

Inductive result (A : Type) : Type :=
| Ok (a : A)
| Err (e : exn).
Arguments Ok {A} a.
Arguments Err {A} e.

Definition bind {A B : Type} (r : result A) (k : A -> result B) : result B :=
  match r with
  | Ok a => k a
  | Err e => Err e
  end.

Notation "'do' x <- e1 ; e2" := (bind e1 (fun x => e2))
  (at level 10, x name, e1 at level 100, e2 at level 200).

(** [[f(x) for x in l]], stopping at the first exception. *)
Fixpoint mapM {A B : Type} (f : A -> result B) (l : list A) : result (list B) :=
  match l with
  | [] => Ok []
  | x :: l' => do y <- f x; do ys <- mapM f l'; Ok (y :: ys)
  end.

(** ** Strings: the [str] methods the program uses *)

Module Str.

(** [c.isspace()] for a character below 256. *)
Definition is_space (c : ascii) : bool :=
  let n := nat_of_ascii c in
  (((9 <=? n) && (n <=? 13)) || ((28 <=? n) && (n <=? 32))
   || (n =? 133) || (n =? 160))%nat.

Fixpoint lstrip (s : string) : string :=
  match s with
  | EmptyString => EmptyString
  | String c s' => if is_space c then lstrip s' else s
  end.

Fixpoint rstrip (s : string) : string :=
  match s with
  | EmptyString => EmptyString
  | String c s' =>
      match rstrip s' with
      | EmptyString => if is_space c then EmptyString else String c EmptyString
      | r => String c r
      end
  end.

(** [s.strip()] *)
Definition strip (s : string) : string := rstrip (lstrip s).

(** [s.split(sep)] for a one-character separator: never empty. *)
Fixpoint split (sep : ascii) (s : string) : list string :=
  match s with
  | EmptyString => [EmptyString]
  | String c s' =>
      if Ascii.eqb c sep then EmptyString :: split sep s'
      else match split sep s' with
           | p :: ps => String c p :: ps
           | [] => [String c EmptyString]
           end
  end.

(** [s.startswith(p)] *)
Fixpoint startswith (p s : string) : bool :=
  match p, s with
  | EmptyString, _ => true
  | String a p', String b s' => Ascii.eqb a b && startswith p' s'
  | String _ _, EmptyString => false
  end.

(** [c in s] for a character [c]. *)
Fixpoint contains_char (c : ascii) (s : string) : bool :=
  match s with
  | EmptyString => false
  | String a s' => Ascii.eqb a c || contains_char c s'
  end.

(** [sep.join(l)] *)
Fixpoint join (sep : string) (l : list string) : string :=
  match l with
  | [] => EmptyString
  | [x] => x
  | x :: l' => String.append x (String.append sep (join sep l'))
  end.

(** [str(n)] for a non-negative integer. *)
Definition of_Z (n : Z) : string := NilZero.string_of_uint (N.to_uint (Z.to_N n)).

End Str.

(** [l[i]], raising [IndexError] out of range (no negative index is used). *)
Definition index {A : Type} (l : list A) (i : nat) : result A :=
  match l !! i with
  | Some x => Ok x
  | None => Err IndexError
  end.

(** ** The [ipaddress] module *)

Definition ALL_ONES : Z := 2 ^ 32 - 1.
Definition max_prefixlen : Z := 32.

(** [int.bit_length] *)
Definition bit_length (x : Z) : Z :=
  if x =? 0 then 0 else Z.log2 (Z.abs x) + 1.

(** [_count_righthand_zero_bits(number, bits)] *)
Definition count_righthand_zero_bits (number bits : Z) : Z :=
  if number =? 0 then bits
  else Z.min bits (bit_length (Z.land (Z.lnot number) (number - 1))).

(** [IPv4Address._parse_octet] *)
Definition is_digit (c : ascii) : bool :=
  let n := nat_of_ascii c in ((48 <=? n) && (n <=? 57))%nat.

Fixpoint all_digits (s : string) : bool :=
  match s with
  | EmptyString => true
  | String c s' => is_digit c && all_digits s'
  end.

(** [int(s, 10)] on a string of decimal digits, most significant first. *)
Fixpoint int_of_digits (acc : Z) (s : string) : Z :=
  match s with
  | EmptyString => acc
  | String c s' => int_of_digits (10 * acc + (Z.of_nat (nat_of_ascii c) - 48)) s'
  end.

Definition parse_octet (octet_str : string) : result Z :=
  match octet_str with
  | EmptyString => Err ValueError
  | String c0 _ =>
      if negb (all_digits octet_str) then Err ValueError
      else if (3 <? String.length octet_str)%nat then Err ValueError
      else if negb (String.eqb octet_str "0") && Ascii.eqb c0 "0" then Err ValueError
      else
        let octet_int := int_of_digits 0 octet_str in
        if 255 <? octet_int then Err ValueError else Ok octet_int
  end.

(** [int.from_bytes(bs, 'big')] *)
Definition from_bytes_big (bs : list Z) : Z :=
  fold_left (fun acc b => 256 * acc + b) bs 0.

(** [IPv4Address._ip_int_from_string]: a [ValueError] of an octet is
    re-raised as [AddressValueError]. *)
Definition ip_int_from_string (ip_str : string) : result Z :=
  match ip_str with
  | EmptyString => Err AddressValueError
  | _ =>
      let octets := Str.split "." ip_str in
      if negb (length octets =? 4)%nat then Err AddressValueError
      else match mapM parse_octet octets with
           | Ok bs => Ok (from_bytes_big bs)
           | Err _ => Err AddressValueError
           end
  end.

(** [IPv4Address(address)] for a string; the value is the address's
    integer [_ip]. *)
Definition IPv4Address (address : string) : result Z :=
  if Str.contains_char "/" address then Err AddressValueError
  else ip_int_from_string address.

(** A network: the pair that [IPv4Network.__eq__] and [__hash__] compare,
    the network address and the prefix length (equivalently the netmask). *)
Record IPv4Network : Type := Net { network_address : Z; prefixlen : Z }.

Global Instance IPv4Network_eq_dec : EqDecision IPv4Network.
Proof. solve_decision. Defined.

Global Instance IPv4Network_countable : Countable IPv4Network :=
  inj_countable' (fun n => (network_address n, prefixlen n))
                 (fun p => Net (fst p) (snd p))
                 (fun n => match n with Net _ _ => eq_refl end).

(** [IPv4Network._ip_int_from_prefix] *)
Definition ip_int_from_prefix (p : Z) : Z :=
  Z.lxor ALL_ONES (Z.shiftr ALL_ONES p).

Definition netmask (n : IPv4Network) : Z := ip_int_from_prefix (prefixlen n).
Definition hostmask (n : IPv4Network) : Z := Z.lxor (netmask n) ALL_ONES.
Definition broadcast_address (n : IPv4Network) : Z :=
  Z.lor (network_address n) (hostmask n).
Definition num_addresses (n : IPv4Network) : Z :=
  broadcast_address n - network_address n + 1.

(** [address in n] ([_BaseNetwork.__contains__] on an address). *)
Definition contains (n : IPv4Network) (a : Z) : Prop :=
  Z.land a (netmask n) = network_address n.

(** [IPv4Network((addr, prefix), strict)]: the address and the prefix are
    range-checked, host bits are an error when [strict] and are masked
    away otherwise. *)
Definition IPv4Network_of_int (addr p : Z) (strict : bool) : result IPv4Network :=
  if (addr <? 0) || (ALL_ONES <? addr) then Err AddressValueError
  else if negb ((0 <=? p) && (p <=? max_prefixlen)) then Err NetmaskValueError
  else
    let mask := ip_int_from_prefix p in
    if Z.land addr mask =? addr then Ok (Net addr p)
    else if strict then Err ValueError
    else Ok (Net (Z.land addr mask) p).

(** [IPv4Network(f"{ip}/{p}", strict)] for an integer [p]: the text is
    split at its slashes, so a slash inside [ip] makes three parts and is
    refused; otherwise the part before the slash is parsed as an address
    and the part after it is the decimal rendering of [p]. *)
Definition IPv4Network_of_str (ip : string) (p : Z) (strict : bool) : result IPv4Network :=
  if Str.contains_char "/" ip then Err AddressValueError
  else do addr <- IPv4Address ip; IPv4Network_of_int addr p strict.

(** [str(n)]: dotted quad, slash, prefix length. *)
Definition str_address (a : Z) : string :=
  Str.join "." (map (fun i => Str.of_Z (Z.land (Z.shiftr a (8 * i)) 255)) [3; 2; 1; 0]).

Definition str_network (n : IPv4Network) : string :=
  String.append (str_address (network_address n))
                (String.append "/" (Str.of_Z (prefixlen n))).

(** [range(start, stop, step)] for a non-zero step. *)
Definition py_range (start stop step : Z) : list Z :=
  if 0 <? step then
    map (fun i => start + i * step) (seqZ 0 ((stop - start + step - 1) / step))
  else
    map (fun i => start + i * step) (seqZ 0 ((start - stop - step - 1) / (- step))).

(** The block size exponent chosen by one round of
    [summarize_address_range]: limited by the alignment of [first_int] and
    by the number of addresses left. *)
Definition summarize_nbits (first_int last_int : Z) : Z :=
  Z.min (count_righthand_zero_bits first_int max_prefixlen)
        (bit_length (last_int - first_int + 1) - 1).

(** The [while first_int <= last_int] loop of [summarize_address_range];
    the list is what the generator yields. *)
Equations? summarize_loop (first_int last_int : Z) : result (list IPv4Network)
  by wf (Z.to_nat (last_int - first_int + 1)) lt :=
  summarize_loop first_int last_int with Z_le_dec first_int last_int := {
    | right _ => Ok [];
    | left _ with IPv4Network_of_int first_int
                    (max_prefixlen - summarize_nbits first_int last_int) true := {
      | Err e => Err e;
      | Ok net with Z.eq_dec (first_int + Z.shiftl 1 (summarize_nbits first_int last_int) - 1)
                             ALL_ONES := {
        | left _ => Ok [net];
        | right _ =>
            do rest <- summarize_loop
                         (first_int + Z.shiftl 1 (summarize_nbits first_int last_int))
                         last_int;
            Ok (net :: rest) } } }.
Proof.
  assert (0 <= summarize_nbits first_int last_int) as Hn.
  { unfold summarize_nbits, count_righthand_zero_bits, bit_length, max_prefixlen.
    apply Z.min_glb.
    - destruct (first_int =? 0); [lia|].
      apply Z.min_glb; [lia|].
      destruct (_ =? 0); [lia|].
      pose proof (Z.log2_nonneg (Z.abs (Z.land (Z.lnot first_int) (first_int - 1)))). lia.
    - destruct (Z.eqb_spec (last_int - first_int + 1) 0); [lia|].
      pose proof (Z.log2_nonneg (Z.abs (last_int - first_int + 1))). lia. }
  rewrite Z.shiftl_mul_pow2 by exact Hn.
  pose proof (Z.pow_pos_nonneg 2 (summarize_nbits first_int last_int)).
  lia.
Qed.

(** [summarize_address_range(first, last)] on two IPv4 addresses. *)
Definition summarize_address_range (first last : Z) : result (list IPv4Network) :=
  if last <? first then Err ValueError
  else summarize_loop first last.

(** [self.subnets(new_prefix=new_prefix)] *)
Definition subnets (self : IPv4Network) (new_prefix : Z) : result (list IPv4Network) :=
  if prefixlen self =? max_prefixlen then Ok [self]
  else if new_prefix <? prefixlen self then Err ValueError
  else
    let prefixlen_diff := new_prefix - prefixlen self in
    if prefixlen_diff <? 0 then Err ValueError
    else
      let new_prefixlen := prefixlen self + prefixlen_diff in
      if max_prefixlen <? new_prefixlen then Err ValueError
      else
        let start := network_address self in
        let stop := broadcast_address self + 1 in
        let step := Z.shiftr (hostmask self + 1) prefixlen_diff in
        if step =? 0 then Err ValueError
        else mapM (fun new_addr => IPv4Network_of_int new_addr new_prefixlen true)
                  (py_range start stop step).

(** ** [parse.py] *)

Definition MIN_SUBNET_PREFIX : Z := 16.

(** The [for net in subnets] loop of [split_range], [acc] being [result]. *)
Fixpoint split_range_loop (nets : list IPv4Network) (acc : list IPv4Network)
  : result (list IPv4Network) :=
  match nets with
  | [] => Ok acc
  | net :: rest =>
      if prefixlen net <? MIN_SUBNET_PREFIX then
        do subs <- subnets net MIN_SUBNET_PREFIX;
        split_range_loop rest (acc ++ subs)
      else split_range_loop rest (acc ++ [net])
  end.

Definition split_range (start_ip end_ip : string) : result (list IPv4Network) :=
  do first <- IPv4Address (Str.strip start_ip);
  do last <- IPv4Address (Str.strip end_ip);
  do nets <- summarize_address_range first last;
  split_range_loop nets [].

(** The dictionary stored per network. Its keys are fixed by the program:
    ["cidr"], ["num_addr_orig"], the four recognized dump keys and
    [IP_COUNT_KEY]; an absent key is [None]. *)
Record Entry : Type := mkEntry {
  cidr : option string;
  num_addr_orig : option Z;
  inetnum : option string;
  netname : option string;
  country : option string;
  descr : option string;
  ip_count : option Z
}.

Definition empty_entry : Entry := mkEntry None None None None None None None.

(** [d[k]] on an entry: [KeyError] when the key is absent. *)
Definition getitem {A : Type} (o : option A) : result A :=
  match o with
  | Some x => Ok x
  | None => Err KeyError
  end.

(** The keys the loader recognizes (line 59). *)
Inductive Key : Type := Kinetnum | Knetname | Kcountry | Kdescr.

Global Instance Key_eq_dec : EqDecision Key.
Proof. solve_decision. Defined.

Definition recognized (key : string) : option Key :=
  if String.eqb key "inetnum" then Some Kinetnum
  else if String.eqb key "netname" then Some Knetname
  else if String.eqb key "country" then Some Kcountry
  else if String.eqb key "descr" then Some Kdescr
  else None.

(** [e[key] = value] for a recognized key. *)
Definition set_key (k : Key) (value : string) (e : Entry) : Entry :=
  match k with
  | Kinetnum => mkEntry (cidr e) (num_addr_orig e) (Some value) (netname e) (country e) (descr e) (ip_count e)
  | Knetname => mkEntry (cidr e) (num_addr_orig e) (inetnum e) (Some value) (country e) (descr e) (ip_count e)
  | Kcountry => mkEntry (cidr e) (num_addr_orig e) (inetnum e) (netname e) (Some value) (descr e) (ip_count e)
  | Kdescr => mkEntry (cidr e) (num_addr_orig e) (inetnum e) (netname e) (country e) (Some value) (ip_count e)
  end.

(** [e["cidr"] = c; e["num_addr_orig"] = n] (lines 77-78). *)
Definition set_origin (c : string) (n : Z) (e : Entry) : Entry :=
  mkEntry (Some c) (Some n) (inetnum e) (netname e) (country e) (descr e) (ip_count e).

(** [e[IP_COUNT_KEY] = e.get(IP_COUNT_KEY, 0) + 1] (line 119). *)
Definition bump (e : Entry) : Entry :=
  mkEntry (cidr e) (num_addr_orig e) (inetnum e) (netname e) (country e) (descr e)
          (Some (default 0 (ip_count e) + 1)).

Abbreviation Table := (gmap IPv4Network Entry).

(** [data[k]] of the [defaultdict(dict)], followed by an update of the
    dictionary found or created there. *)
Definition update (f : Entry -> Entry) (k : IPv4Network) (data : Table) : Table :=
  <[k := f (default empty_entry (data !! k))]> data.

(** [for cidr in l: f(data[cidr])] *)
Definition update_all (f : IPv4Network -> Entry -> Entry) (l : list IPv4Network)
  (data : Table) : Table :=
  fold_left (fun d k => update (f k) k d) l data.

(** A list comprehension with a condition that may raise. *)
Fixpoint filterM {A : Type} (f : A -> result bool) (l : list A) : result (list A) :=
  match l with
  | [] => Ok []
  | x :: l' =>
      do b <- f x;
      do r <- filterM f l';
      Ok (if b then x :: r else r)
  end.

Definition sum_Z (l : list Z) : Z := fold_left Z.add l 0.

(** The state of the loop of [load_networks]. *)
Record LoadState : Type := mkState {
  data : Table;
  current_range : option (list IPv4Network);
  prev_key : option Key
}.

Definition init_state : LoadState := mkState ∅ None None.

(** The condition of the comprehension of lines 71-75:
    [not (cidr in data and data[cidr]["num_addr_orig"] < num_addr)]. *)
Definition keep_new (data : Table) (num_addr : Z) (k : IPv4Network) : result bool :=
  match data !! k with
  | None => Ok true
  | Some e => do n <- getitem (num_addr_orig e); Ok (negb (n <? num_addr))
  end.

(** The [if key == "inetnum"] block, lines 66-78. *)
Definition load_inetnum (st : LoadState) (value : string) : result LoadState :=
  match Str.split "-" value with
  | [start_ip; end_ip] =>
      do blocks <- split_range (Str.strip start_ip) (Str.strip end_ip);
      let num_addr := sum_Z (map num_addresses blocks) in
      do kept <- filterM (keep_new (data st) num_addr) blocks;
      Ok (mkState (update_all (fun k => set_origin (str_network k) num_addr) kept (data st))
                  (Some kept) (prev_key st))
  | _ => Err ValueError
  end.

(** The key of a line: [line.split(":")[0].strip()]; [split] never
    returns an empty list. *)
Definition line_key (line : string) : string :=
  Str.strip (hd EmptyString (Str.split ":" line)).

(** The value of a line: [line.split(":")[1].strip()]. *)
Definition line_value (line : string) : result string :=
  do v <- index (Str.split ":" line) 1; Ok (Str.strip v).

Definition is_descr (k : Key) : bool :=
  match k with Kdescr => true | _ => false end.

(** The body of the loop over the lines, lines 53-83. *)
Definition load_line (st : LoadState) (line : string) : result LoadState :=
  if Str.startswith "#" line then Ok st
  else if String.eqb (Str.strip line) EmptyString then
    Ok (mkState (data st) None (prev_key st))
  else
    match recognized (line_key line) with
    | None => Ok st
    | Some key =>
        do value <- line_value line;
        if is_descr key && bool_decide (prev_key st = Some Kdescr) then Ok st
        else
          do st1 <- (if bool_decide (key = Kinetnum) then load_inetnum st value else Ok st);
          match current_range st1 with
          | None => Err TypeError
          | Some blocks =>
              Ok (mkState (update_all (fun _ => set_key key value) blocks (data st1))
                          (Some blocks) (Some key))
          end
    end.

Fixpoint load_loop (lines : list string) (st : LoadState) : result LoadState :=
  match lines with
  | [] => Ok st
  | line :: rest => do st' <- load_line st line; load_loop rest st'
  end.

(** The condition of the final filter, lines 89-93, with Python's
    left-to-right short-circuit evaluation. *)
Definition generic_names : list string :=
  ["IANA-BLOCK"; "ARIN-CIDR-BLOCK"; "RIPE-CIDR-BLOCK"; "ERX-NETBLOCK"].

Definition keep_entry (v : Entry) : result bool :=
  do name <- getitem (netname v);
  if existsb (String.eqb name) generic_names then Ok false
  else if Str.startswith "IANA-NETBLOCK" name then Ok false
  else if Str.startswith "STUB-" name then Ok false
  else do c <- getitem (country v); Ok (negb (String.eqb c "ZZ")).

(** [dict((k, v) for (k, v) in data.items() if ...)], lines 86-94. *)
Definition remove_generic (data : Table) : result Table :=
  do kept <- filterM (fun kv => keep_entry (snd kv)) (map_to_list data);
  Ok (list_to_map kept).

(** [load_networks] on the lines of the dump, when no pickled table is
    present; the table is the value returned. *)
Definition load_networks (lines : list string) : result Table :=
  do st <- load_loop lines init_state;
  remove_generic (data st).

(** [guess_subnets(ip)]: the values the generator yields, each of which
    may be the exception raised on reaching it. *)
Definition guess_subnets (ip : string) : list (result IPv4Network) :=
  map (fun mask_length => IPv4Network_of_str ip mask_length false) (py_range 31 6 (-1)).

(** The [for subnet in guess_subnets(ip)] loop of [count_ips], lines
    116-123. *)
Fixpoint count_ip_loop (candidates : list (result IPv4Network)) (networks : Table)
  : result Table :=
  match candidates with
  | [] => Ok networks
  | c :: rest =>
      do subnet <- c;
      match networks !! subnet with
      | Some obj =>
          let obj' := bump obj in
          do name <- getitem (netname obj');
          do _ <- (if String.eqb name "APNIC-AP" then getitem (cidr obj') else Ok EmptyString);
          Ok (<[subnet := obj']> networks)
      | None => count_ip_loop rest networks
      end
  end.

(** The subnet at which that loop breaks, if any. *)
Fixpoint first_hit (candidates : list (result IPv4Network)) (networks : Table)
  : result (option IPv4Network) :=
  match candidates with
  | [] => Ok None
  | c :: rest =>
      do subnet <- c;
      match networks !! subnet with
      | Some _ => Ok (Some subnet)
      | None => first_hit rest networks
      end
  end.

(** [count_ips] on the lines of the address file. *)
Fixpoint count_ips (lines : list string) (networks : Table) : result Table :=
  match lines with
  | [] => Ok networks
  | ip :: rest =>
      do networks' <- count_ip_loop (guess_subnets (Str.strip ip)) networks;
      count_ips rest networks'
  end.

(** ** The report of the [__main__] block

    The rows handed to [csv.writer], as lists of cells.  The table's
    entries come in the iteration order of the dictionary, which the
    finite map does not keep: they are the argument [values]. *)

Inductive cell : Type :=
| CInt (n : Z)
| CStr (s : string).

Definition header : list string :=
  ["ip_count"; "cidr"; "country"; "netname"; "descr"; "inetnum"; "num_addr_orig"].

(** The condition [networks[net].get(IP_COUNT_KEY, 0)], line 138. *)
Definition has_count (x : Entry) : bool := negb (default 0 (ip_count x) =? 0).

(** [list.sort(key=..., reverse=True)] on items paired with their keys:
    a stable sort into descending order, so items with equal keys keep
    their order. *)
Fixpoint insert_desc {A : Type} (x : Z * A) (l : list (Z * A)) : list (Z * A) :=
  match l with
  | [] => [x]
  | y :: l' => if fst x <? fst y then y :: insert_desc x l' else x :: y :: l'
  end.

Definition sort_desc {A : Type} (l : list (Z * A)) : list (Z * A) :=
  fold_right insert_desc [] l.

(** [my_subnets] after the sort of line 140; the key is
    [x[IP_COUNT_KEY]]. *)
Definition my_subnets (values : list Entry) : result (list Entry) :=
  do keyed <- mapM (fun x => do k <- getitem (ip_count x); Ok (k, x))
                   (List.filter has_count values);
  Ok (map snd (sort_desc keyed)).

(** [[net[key] for key in header]], line 155. *)
Definition row (net : Entry) : result (list cell) :=
  do a <- getitem (ip_count net);
  do b <- getitem (cidr net);
  do c <- getitem (country net);
  do d <- getitem (netname net);
  do f <- getitem (descr net);
  do g <- getitem (inetnum net);
  do h <- getitem (num_addr_orig net);
  Ok [CInt a; CStr b; CStr c; CStr d; CStr f; CStr g; CInt h].

(** The rows written after the header, lines 154-155. *)
Definition report (values : list Entry) : result (list (list cell)) :=
  do sorted <- my_subnets values;
  mapM row sorted.

(** * Notions used to state the properties *)

(** ** Well-formed networks and runs of consecutive blocks *)

(** A network as [ipaddress] builds them: a prefix length within
    [0, 32] and an address with no host bits. *)
Definition wf_network (n : IPv4Network) : Prop :=
  0 <= prefixlen n <= 32 /\
  0 <= network_address n < 2 ^ 32 /\
  network_address n mod 2 ^ (32 - prefixlen n) = 0.

(** The number of addresses of a network, by its prefix length. *)
Definition block_size (n : IPv4Network) : Z := 2 ^ (32 - prefixlen n).

(** [tiles s bs e]: the blocks of [bs] are well formed and lie end to end,
    the first starting at [s] and the last ending just before [e]. *)
Fixpoint tiles (s : Z) (bs : list IPv4Network) (e : Z) : Prop :=
  match bs with
  | [] => s = e
  | b :: bs' => wf_network b /\ network_address b = s /\ tiles (s + block_size b) bs' e
  end.

(** The [/16] blocks inside a network, in address order. *)
Definition blocks16 (net : IPv4Network) : list IPv4Network :=
  map (fun i => Net (network_address net + i * 2 ^ 16) 16)
      (seqZ 0 (2 ^ (16 - prefixlen net))).

(** What [split_range] does with one summarized network. *)
Definition subdivide (net : IPv4Network) : list IPv4Network :=
  if prefixlen net <? MIN_SUBNET_PREFIX then blocks16 net else [net].

(** The candidate of prefix length [p] for the address [a]. *)
Definition candidate (a p : Z) : IPv4Network := Net (a - a mod 2 ^ (32 - p)) p.

(** ** Lines, records and loader states *)

(** [line] is a [key: value] line of the dump: not a comment, not blank,
    with a recognized key [k] and the value [v]. *)
Definition is_line (line : string) (k : Key) (v : string) : Prop :=
  Str.startswith "#" line = false /\
  Str.strip line <> EmptyString /\
  recognized (line_key line) = Some k /\
  line_value line = Ok v.

(** A line that ends a record. *)
Definition is_blank (line : string) : Prop :=
  Str.startswith "#" line = false /\ Str.strip line = EmptyString.

(** [value] reads [<start> - <end>], two addresses with [s <= e]. *)
Definition is_range (value start_ip end_ip : string) (s e : Z) : Prop :=
  Str.split "-" value = [start_ip; end_ip] /\
  IPv4Address (Str.strip (Str.strip start_ip)) = Ok s /\
  IPv4Address (Str.strip (Str.strip end_ip)) = Ok e /\
  s <= e.

(** What holds of every state the loader reaches: each entry carries its
    origin, and the current range is in the table. *)
Definition loaded (st : LoadState) : Prop :=
  (forall k v, data st !! k = Some v -> is_Some (num_addr_orig v)) /\
  (forall blocks, current_range st = Some blocks ->
     forall b, b ∈ blocks -> is_Some (data st !! b)).

(** The set of blocks an [inetnum] line populates. *)
Definition smaller_exists (d : Table) (num_addr : Z) (b : IPv4Network) : Prop :=
  exists v n, d !! b = Some v /\ num_addr_orig v = Some n /\ n < num_addr.

(** The entry a record of four lines leaves on a block it populates. *)
Definition record_entry (b : IPv4Network) (n : Z) (vi vn vd vc : string)
  (count : option Z) : Entry :=
  mkEntry (Some (str_network b)) (Some n) (Some vi) (Some vn) (Some vc) (Some vd) count.

(** The names the filter treats as placeholders. *)
Definition placeholder_name (name : string) : Prop :=
  name ∈ generic_names \/
  Str.startswith "IANA-NETBLOCK" name = true \/
  Str.startswith "STUB-" name = true.

(** The entries the filter keeps. *)
Definition real_allocation (v : Entry) : Prop :=
  exists name c,
    netname v = Some name /\ country v = Some c /\
    ~ placeholder_name name /\ c <> "ZZ".

(** ** Records of any shape *)

(** A line the loader passes over inside a record: a comment, or a line
    whose key it does not recognize. *)
Definition is_ignored (line : string) : Prop :=
  Str.startswith "#" line = true \/
  (Str.strip line <> EmptyString /\ recognized (line_key line) = None).

(** An attribute line: a [netname], [country] or [descr] line. *)
Definition is_attribute (line : string) : Prop :=
  exists k v, is_line line k v /\ k <> Kinetnum.

(** [lines] is a record: an [inetnum] line with the value [vi], followed
    by attribute lines and ignored lines in any number and order. *)
Definition is_any_record (lines : list string) (vi : string) : Prop :=
  exists li body,
    lines = li :: body /\
    is_line li Kinetnum vi /\
    Forall (fun l => is_attribute l \/ is_ignored l) body.

(** The writes the attribute lines of a record make to an entry, one
    after the other. *)
Inductive attr_writes : (Entry -> Entry) -> Prop :=
| aw_none : attr_writes (fun e => e)
| aw_set k v f : k <> Kinetnum -> attr_writes f -> attr_writes (fun e => f (set_key k v e)).

Definition or_else {A : Type} (o1 o2 : option A) : option A :=
  match o1 with
  | Some _ => o1
  | None => o2
  end.

(** The entry [new] written over the entry [old]: a key of [old] that
    [new] does not have stays. *)
Definition overlay (new old : Entry) : Entry :=
  mkEntry (or_else (cidr new) (cidr old))
          (or_else (num_addr_orig new) (num_addr_orig old))
          (or_else (inetnum new) (inetnum old))
          (or_else (netname new) (netname old))
          (or_else (country new) (country old))
          (or_else (descr new) (descr old))
          (or_else (ip_count new) (ip_count old)).

(** [v] has every key that [own] has, with the same value. *)
Definition carries (own v : Entry) : Prop :=
  (forall x, cidr own = Some x -> cidr v = Some x) /\
  (forall x, num_addr_orig own = Some x -> num_addr_orig v = Some x) /\
  (forall x, inetnum own = Some x -> inetnum v = Some x) /\
  (forall x, netname own = Some x -> netname v = Some x) /\
  (forall x, country own = Some x -> country v = Some x) /\
  (forall x, descr own = Some x -> descr v = Some x) /\
  (forall x, ip_count own = Some x -> ip_count v = Some x).

(** [own] sets every attribute that [other] sets. *)
Definition covers (own other : Entry) : Prop :=
  (is_Some (netname other) -> is_Some (netname own)) /\
  (is_Some (country other) -> is_Some (country own)) /\
  (is_Some (descr other) -> is_Some (descr own)).

(** The keys the final filter reads are there. *)
Definition named (v : Entry) : Prop :=
  is_Some (netname v) /\ is_Some (country v).

(** The entry an [inetnum] line with value [vi] and [n] addresses writes
    on a block that was not in the table. *)
Definition fresh_entry (k : IPv4Network) (n : Z) (vi : string) : Entry :=
  set_key Kinetnum vi (set_origin (str_network k) n empty_entry).

(** What loading the record [lines] does to any table the loader can
    have reached: it populates the blocks of its range that are not
    there with a smaller origin, and applies the writes [f] to them. *)
Definition record_loads (lines : list string) (vi : string) (n : Z)
  (blocks : list IPv4Network) (f : Entry -> Entry) : Prop :=
  forall st, loaded st ->
    exists (kept : list IPv4Network) st',
      (forall b, b ∈ kept <-> b ∈ blocks /\ ~ smaller_exists (data st) n b) /\
      load_loop lines st = Ok st' /\
      forall k,
        data st' !! k =
          if decide (k ∈ kept)
          then Some (f (overlay (fresh_entry k n vi) (default empty_entry (data st !! k))))
          else data st !! k.

(** ** Example inputs *)

Definition nl : string := String (ascii_of_nat 10) EmptyString.

(** The lines of one record, as the registry writes them. *)
Definition ex_record (range name d cc : string) : list string :=
  [ "inetnum:        " +:+ range +:+ nl;
    "netname:        " +:+ name +:+ nl;
    "descr:          " +:+ d +:+ nl;
    "country:        " +:+ cc +:+ nl ].

Definition ex_dump_generic : list string :=
  ex_record "10.0.0.0 - 10.0.255.255" "IANA-NETBLOCK-10" "Reserved" "AU" ++ [nl]
  ++ ex_record "1.2.3.0 - 1.2.3.255" "EXAMPLE-NET" "Example" "US" ++ [nl]
  ++ ex_record "1.2.4.0 - 1.2.4.255" "OTHER-NET" "Unknown" "ZZ".

Definition ex_entry (c name cc : string) : Entry :=
  mkEntry (Some c) (Some 256) None (Some name) (Some cc) None None.

Definition ex_table : Table :=
  <[Net 167772160 8 := ex_entry "10.0.0.0/8" "TEN-NET" "US"]>
    {[Net 167837696 16 := ex_entry "10.1.0.0/16" "TEN-ONE-NET" "US"]}.

(** Checks [is_line] on a concrete line by evaluation. *)
Ltac check_line :=
  unfold is_line;
  split; [vm_compute; reflexivity |
  split; [vm_compute; discriminate |
  split; vm_compute; reflexivity]].

(** ** Entries, counters and report rows *)

(** What the loader guarantees of an entry [v] stored under [k]. *)
Definition entry_ok (k : IPv4Network) (v : Entry) : Prop :=
  wf_network k /\
  MIN_SUBNET_PREFIX <= prefixlen k /\
  cidr v = Some (str_network k) /\
  (exists n, num_addr_orig v = Some n /\ num_addresses k <= n) /\
  is_Some (inetnum v) /\
  ip_count v = None.

(** The loader's states: every entry is as above and the current range
    is in the table. *)
Definition well_loaded (st : LoadState) : Prop :=
  (forall k v, data st !! k = Some v -> entry_ok k v) /\
  (forall blocks, current_range st = Some blocks ->
     forall b, b ∈ blocks -> is_Some (data st !! b)).

(** Whether the lookup of the address on line [ip] ends at block [b]. *)
Definition hits (networks : Table) (b : IPv4Network) (ip : string) : bool :=
  match first_hit (guess_subnets (Str.strip ip)) networks with
  | Ok (Some b') => bool_decide (b' = b)
  | _ => false
  end.

(** The number of lines whose lookup ends at block [b]. *)
Fixpoint hit_count (networks : Table) (b : IPv4Network) (lines : list string) : Z :=
  match lines with
  | [] => 0
  | ip :: rest => (if hits networks b ip then 1 else 0) + hit_count networks b rest
  end.

(** An entry with its counter raised by [k]; no counter appears while
    [k] is zero. *)
Definition counted (k : Z) (v : Entry) : Entry :=
  mkEntry (cidr v) (num_addr_orig v) (inetnum v) (netname v) (country v) (descr v)
          (if k =? 0 then ip_count v else Some (default 0 (ip_count v) + k)).

(** The counter of an entry, zero when it has none. *)
Definition count_of (x : Entry) : Z := default 0 (ip_count x).

(** The fields a report row reads besides the counter. *)
Definition has_row_fields (x : Entry) : Prop :=
  is_Some (cidr x) /\ is_Some (country x) /\ is_Some (netname x) /\
  is_Some (descr x) /\ is_Some (inetnum x) /\ is_Some (num_addr_orig x).

(** The sum of the counters of a table. *)
Definition total_count (t : Table) : Z :=
  map_fold (fun _ v acc => count_of v + acc) 0 t.

(** Whether the lookup of the address on line [ip] ends at some block. *)
Definition found (networks : Table) (ip : string) : bool :=
  match first_hit (guess_subnets (Str.strip ip)) networks with
  | Ok (Some _) => true
  | _ => false
  end.

(** * Properties *)

(** ** Arithmetic reading of the bit operations *)

Lemma prefix_cases (P : Z -> Prop) :
  (forall n : nat, (n <= 32)%nat -> P (Z.of_nat n)) ->
  forall p, 0 <= p <= 32 -> P p.
Proof.
  intros H p Hp. rewrite <- (Z2Nat.id p) by lia. apply H. lia.
Qed.

Lemma ip_int_from_prefix_eq p :
  0 <= p <= 32 -> ip_int_from_prefix p = 2 ^ 32 - 2 ^ (32 - p).
Proof.
  revert p. apply prefix_cases. intros n Hn.
  do 33 (destruct n as [|n]; [vm_compute; reflexivity|]). lia.
Qed.

Lemma pow2_pos k : 0 <= k -> 0 < 2 ^ k.
Proof. intros. apply Z.pow_pos_nonneg; lia. Qed.

Lemma pow2_le_mono a b : 0 <= a <= b -> 2 ^ a <= 2 ^ b.
Proof. intros. apply Z.pow_le_mono_r; lia. Qed.

Lemma pow2_split a b : 0 <= a <= b -> 2 ^ b = 2 ^ a * 2 ^ (b - a).
Proof. intros. rewrite <- Z.pow_add_r by lia. f_equal. lia. Qed.

Lemma ldiff_ones_eq a k : 0 <= k -> Z.ldiff a (Z.ones k) = a - a mod 2 ^ k.
Proof.
  intros Hk. rewrite Z.ldiff_ones_r by lia.
  rewrite Z.shiftl_mul_pow2, Z.shiftr_div_pow2 by lia.
  pose proof (Z.div_mod a (2 ^ k)) as H. pose proof (pow2_pos k Hk). lia.
Qed.

Lemma land_high_mask a k :
  0 <= a < 2 ^ 32 -> 0 <= k <= 32 ->
  Z.land a (2 ^ 32 - 2 ^ k) = a - a mod 2 ^ k.
Proof.
  intros Ha Hk.
  assert (2 ^ 32 - 2 ^ k = Z.ldiff (Z.ones 32) (Z.ones k)) as ->.
  { rewrite ldiff_ones_eq by lia. rewrite Z.ones_equiv.
    pose proof (pow2_split k 32 ltac:(lia)) as Hs. pose proof (pow2_pos k ltac:(lia)).
    replace (Z.pred (2 ^ 32)) with ((2 ^ k - 1) + (2 ^ (32 - k) - 1) * 2 ^ k)
      by (unfold Z.pred; lia).
    rewrite Z_mod_plus_full, Z.mod_small by lia. lia. }
  rewrite <- ldiff_ones_eq by lia.
  apply Z.bits_inj'. intros i Hi.
  rewrite Z.land_spec, !Z.ldiff_spec.
  rewrite andb_assoc. f_equal.
  rewrite <- Z.land_spec, Z.land_ones by lia.
  rewrite Z.mod_small by lia. reflexivity.
Qed.

Lemma land_netmask a p :
  0 <= a < 2 ^ 32 -> 0 <= p <= 32 ->
  Z.land a (ip_int_from_prefix p) = a - a mod 2 ^ (32 - p).
Proof.
  intros. rewrite ip_int_from_prefix_eq by lia. apply land_high_mask; lia.
Qed.

Lemma lor_low_ones n k :
  0 <= k -> n mod 2 ^ k = 0 -> Z.lor n (2 ^ k - 1) = n + 2 ^ k - 1.
Proof.
  intros Hk Hn.
  assert (Z.land n (Z.ones k) = 0) as H0 by (rewrite Z.land_ones; lia).
  replace (2 ^ k - 1) with (Z.ones k) by (rewrite Z.ones_equiv; unfold Z.pred; lia).
  rewrite <- Z.lxor_lor by exact H0.
  rewrite <- Z.add_nocarry_lxor by exact H0.
  rewrite Z.ones_equiv. unfold Z.pred. lia.
Qed.

Lemma hostmask_eq n : 0 <= prefixlen n <= 32 -> hostmask n = block_size n - 1.
Proof.
  unfold hostmask, netmask, block_size. generalize (prefixlen n).
  apply prefix_cases. intros k Hk.
  do 33 (destruct k as [|k]; [vm_compute; reflexivity|]). lia.
Qed.

Lemma broadcast_address_eq n :
  wf_network n -> broadcast_address n = network_address n + block_size n - 1.
Proof.
  intros (Hp & Ha & Hal). unfold broadcast_address.
  rewrite hostmask_eq by exact Hp. apply lor_low_ones; [lia | exact Hal].
Qed.

Lemma num_addresses_eq n : wf_network n -> num_addresses n = block_size n.
Proof.
  intros H. unfold num_addresses. rewrite broadcast_address_eq by exact H. lia.
Qed.

Lemma size_pos n : 0 <= prefixlen n <= 32 -> 0 < block_size n.
Proof. intros. apply pow2_pos. lia. Qed.

Lemma wf_network_end n : wf_network n -> network_address n + block_size n <= 2 ^ 32.
Proof.
  intros (Hp & Ha & Hal). unfold block_size.
  pose proof (pow2_pos (32 - prefixlen n) ltac:(lia)) as Hm.
  pose proof (pow2_split (32 - prefixlen n) 32 ltac:(lia)) as Hs.
  replace (32 - (32 - prefixlen n)) with (prefixlen n) in Hs by lia.
  pose proof (pow2_pos (prefixlen n) ltac:(lia)) as HP.
  apply Z.mod_divide in Hal; [|lia]. destruct Hal as [q Hq].
  revert Ha Hm Hs HP Hq.
  generalize (2 ^ 32) (2 ^ (32 - prefixlen n)) (2 ^ prefixlen n) (network_address n).
  intros T m P a Ha Hm Hs HP Hq. subst a T.
  assert (q < P) by nia. nia.
Qed.

Lemma contains_iff n a :
  wf_network n -> 0 <= a < 2 ^ 32 ->
  contains n a <-> network_address n <= a < network_address n + block_size n.
Proof.
  intros (Hp & Ha & Hal) Hr. unfold contains, netmask, block_size.
  rewrite land_netmask by lia.
  pose proof (pow2_pos (32 - prefixlen n)).
  set (m := 2 ^ (32 - prefixlen n)) in *.
  pose proof (Z.mod_pos_bound a m).
  split.
  - intros He. lia.
  - intros Hb.
    apply Z.mod_divide in Hal; [|lia]. destruct Hal as [q Hq].
    assert (a = m * q + (a - network_address n)) as Hd by lia.
    assert (a mod m = a - network_address n) as Hm.
    { symmetry. apply (Z.mod_unique a m q); [lia | exact Hd]. }
    lia.
Qed.

Lemma IPv4Network_of_int_strict addr p :
  0 <= addr < 2 ^ 32 -> 0 <= p <= 32 -> addr mod 2 ^ (32 - p) = 0 ->
  IPv4Network_of_int addr p true = Ok (Net addr p).
Proof.
  intros Ha Hp Hal. unfold IPv4Network_of_int, ALL_ONES, max_prefixlen.
  destruct (Z.ltb_spec addr 0); [lia|].
  destruct (Z.ltb_spec (2 ^ 32 - 1) addr); [lia|]. cbn [orb].
  destruct (Z.leb_spec 0 p); [|lia]. destruct (Z.leb_spec p 32); [|lia].
  cbn [andb negb]. rewrite land_netmask by lia. rewrite Hal, Z.sub_0_r, Z.eqb_refl.
  reflexivity.
Qed.

Lemma IPv4Network_of_int_masked addr p :
  0 <= addr < 2 ^ 32 -> 0 <= p <= 32 ->
  IPv4Network_of_int addr p false = Ok (Net (addr - addr mod 2 ^ (32 - p)) p).
Proof.
  intros Ha Hp. unfold IPv4Network_of_int, ALL_ONES, max_prefixlen.
  destruct (Z.ltb_spec addr 0); [lia|].
  destruct (Z.ltb_spec (2 ^ 32 - 1) addr); [lia|]. cbn [orb].
  destruct (Z.leb_spec 0 p); [|lia]. destruct (Z.leb_spec p 32); [|lia].
  cbn [andb negb]. rewrite land_netmask by lia.
  destruct (Z.eqb_spec (addr - addr mod 2 ^ (32 - p)) addr) as [He|He].
  - rewrite He. reflexivity.
  - reflexivity.
Qed.

(** ** Trailing zero bits and bit lengths *)

Lemma land_double_odd a b : Z.land (2 * a + 1) (2 * b + 1) = 2 * Z.land a b + 1.
Proof.
  apply Z.bits_inj'. intros i Hi. rewrite Z.land_spec.
  destruct (Z.eq_dec i 0) as [->|Hne].
  - rewrite !Z.testbit_odd_0. reflexivity.
  - replace i with (Z.succ (i - 1)) by lia.
    rewrite !Z.testbit_odd_succ by lia. rewrite Z.land_spec. reflexivity.
Qed.

Lemma land_double_even a b : Z.land (2 * a) (2 * b) = 2 * Z.land a b.
Proof.
  apply Z.bits_inj'. intros i Hi. rewrite Z.land_spec.
  destruct (Z.eq_dec i 0) as [->|Hne].
  - rewrite !Z.testbit_even_0. reflexivity.
  - replace i with (Z.succ (i - 1)) by lia.
    rewrite !Z.testbit_even_succ by lia. rewrite Z.land_spec. reflexivity.
Qed.

Lemma bit_length_nonneg x : 0 <= bit_length x.
Proof.
  unfold bit_length. destruct (x =? 0); [lia|].
  pose proof (Z.log2_nonneg (Z.abs x)). lia.
Qed.

Lemma bit_length_double_odd m : 0 <= m -> bit_length (2 * m + 1) = bit_length m + 1.
Proof.
  intros Hm. unfold bit_length.
  destruct (Z.eqb_spec (2 * m + 1) 0); [lia|].
  destruct (Z.eqb_spec m 0) as [->|Hne]; [reflexivity|].
  rewrite !Z.abs_eq by lia. rewrite Z.log2_succ_double by lia. lia.
Qed.

Lemma bit_length_pow2_le x : 1 <= x -> 2 ^ (bit_length x - 1) <= x.
Proof.
  intros Hx. unfold bit_length.
  destruct (Z.eqb_spec x 0); [lia|].
  rewrite Z.abs_eq by lia.
  replace (Z.log2 x + 1 - 1) with (Z.log2 x) by lia.
  apply Z.log2_spec. lia.
Qed.

(** The mask [~n & (n - 1)] selects the zero bits below the lowest set
    bit of [n], so its bit length counts them. *)
Lemma trailing_zeros_pos (p : positive) :
  let m := Z.land (Z.lnot (Z.pos p)) (Z.pos p - 1) in
  0 <= m /\ Z.pos p mod 2 ^ bit_length m = 0.
Proof.
  induction p as [q IH|q IH|]; cbn zeta in *.
  - replace (Z.lnot (Z.pos q~1)) with (2 * Z.lnot (Z.pos q))
      by (unfold Z.lnot, Z.pred; lia).
    replace (Z.pos q~1 - 1) with (2 * Z.pos q) by lia.
    rewrite land_double_even.
    replace (Z.land (Z.lnot (Z.pos q)) (Z.pos q)) with 0.
    + split; [lia|]. cbn. apply Z.mod_1_r.
    + symmetry. rewrite Z.land_comm. apply Z.land_lnot_diag.
  - destruct IH as [IH0 IH1].
    replace (Z.lnot (Z.pos q~0)) with (2 * Z.lnot (Z.pos q) + 1)
      by (unfold Z.lnot, Z.pred; lia).
    replace (Z.pos q~0 - 1) with (2 * (Z.pos q - 1) + 1) by lia.
    rewrite land_double_odd.
    set (m := Z.land (Z.lnot (Z.pos q)) (Z.pos q - 1)) in *.
    split; [lia|].
    rewrite bit_length_double_odd by lia.
    pose proof (bit_length_nonneg m) as Hb.
    rewrite Z.add_1_r, Z.pow_succ_r by lia.
    change (Z.pos q~0) with (2 * Z.pos q).
    rewrite Zmult_mod_distr_l. rewrite IH1. reflexivity.
  - split; vm_compute; [discriminate | reflexivity].
Qed.

Lemma count_righthand_zero_bits_spec n :
  0 <= n ->
  0 <= count_righthand_zero_bits n 32 <= 32 /\
  n mod 2 ^ count_righthand_zero_bits n 32 = 0.
Proof.
  intros Hn. unfold count_righthand_zero_bits.
  destruct (Z.eqb_spec n 0) as [->|Hne].
  - split; [lia | reflexivity].
  - destruct n as [|p|p]; try lia.
    destruct (trailing_zeros_pos p) as [H0 H1]. cbn zeta in *.
    set (m := Z.land (Z.lnot (Z.pos p)) (Z.pos p - 1)) in *.
    pose proof (bit_length_nonneg m) as Hb.
    split; [lia|].
    destruct (Z.min_spec 32 (bit_length m)) as [[Hlt ->]|[_ ->]]; [|exact H1].
    apply Z.mod_divide; [pose proof (pow2_pos 32); lia|].
    apply Z.mod_divide in H1; [|pose proof (pow2_pos (bit_length m)); lia].
    eapply Z.divide_trans; [|exact H1].
    exists (2 ^ (bit_length m - 32)). rewrite <- Z.pow_add_r by lia. f_equal. lia.
Qed.

Lemma summarize_nbits_spec first_int last_int :
  0 <= first_int <= last_int ->
  let nbits := summarize_nbits first_int last_int in
  0 <= nbits <= 32 /\
  first_int mod 2 ^ nbits = 0 /\
  first_int + 2 ^ nbits <= last_int + 1.
Proof.
  intros H. cbn zeta. unfold summarize_nbits, max_prefixlen.
  destruct (count_righthand_zero_bits_spec first_int ltac:(lia)) as [Hc Hal].
  set (c := count_righthand_zero_bits first_int 32) in *.
  pose proof (bit_length_pow2_le (last_int - first_int + 1) ltac:(lia)) as Hl.
  set (l := bit_length (last_int - first_int + 1) - 1) in *.
  assert (0 <= l) as Hl0.
  { unfold l, bit_length. destruct (Z.eqb_spec (last_int - first_int + 1) 0); [lia|].
    pose proof (Z.log2_nonneg (Z.abs (last_int - first_int + 1))). lia. }
  assert (0 <= Z.min c l <= 32) as Hm by lia.
  split; [exact Hm|]. split.
  - apply Z.mod_divide; [pose proof (pow2_pos (Z.min c l)); lia|].
    apply Z.mod_divide in Hal; [|pose proof (pow2_pos c); lia].
    eapply Z.divide_trans; [|exact Hal].
    exists (2 ^ (c - Z.min c l)). rewrite <- Z.pow_add_r by lia. f_equal. lia.
  - pose proof (pow2_le_mono (Z.min c l) l ltac:(lia)). lia.
Qed.

(** ** Consecutive blocks *)

Lemma tiles_app s m e l1 l2 : tiles s l1 m -> tiles m l2 e -> tiles s (l1 ++ l2) e.
Proof.
  revert s. induction l1 as [|b l1 IH]; intros s H1 H2; cbn in *.
  - subst. exact H2.
  - destruct H1 as (Hw & Hs & Ht).
    split; [exact Hw|]. split; [exact Hs|]. eapply IH; eassumption.
Qed.

Lemma tiles_le s bs e : tiles s bs e -> s <= e.
Proof.
  revert s. induction bs as [|b bs IH]; intros s H; cbn in *.
  - lia.
  - destruct H as (Hw & Hs & Ht). apply IH in Ht.
    pose proof (size_pos b (proj1 Hw)). lia.
Qed.

Lemma summarize_block first_int last_int :
  0 <= first_int <= last_int -> last_int < 2 ^ 32 ->
  let nbits := summarize_nbits first_int last_int in
  let net := Net first_int (32 - nbits) in
  IPv4Network_of_int first_int (max_prefixlen - nbits) true = Ok net /\
  wf_network net /\
  block_size net = Z.shiftl 1 nbits /\
  first_int + Z.shiftl 1 nbits <= last_int + 1.
Proof.
  intros H Hl. cbn zeta.
  destruct (summarize_nbits_spec first_int last_int H) as (Hn & Hal & Hle).
  cbn zeta in *. set (nbits := summarize_nbits first_int last_int) in *.
  unfold max_prefixlen, block_size, wf_network. cbn [prefixlen network_address].
  replace (32 - (32 - nbits)) with nbits by lia.
  rewrite Z.shiftl_mul_pow2, Z.mul_1_l by lia.
  split; [|split; [|split]].
  - apply IPv4Network_of_int_strict; [lia | lia |].
    replace (32 - (32 - nbits)) with nbits by lia. exact Hal.
  - split; [lia|]. split; [lia|]. exact Hal.
  - reflexivity.
  - exact Hle.
Qed.

Lemma summarize_loop_tiles first_int last_int :
  0 <= first_int -> first_int <= last_int + 1 -> last_int < 2 ^ 32 ->
  exists bs, summarize_loop first_int last_int = Ok bs /\ tiles first_int bs (last_int + 1).
Proof.
  funelim (summarize_loop first_int last_int); intros H0 H1 H2.
  - exists []. split; [reflexivity|]. cbn. lia.
  - destruct (summarize_block first_int last_int ltac:(lia) H2) as (Hb & _).
    cbn zeta in Hb. congruence.
  - destruct (summarize_block first_int last_int ltac:(lia) H2) as (Hb & Hw & Hs & Hle).
    cbn zeta in *.
    match goal with Hn : IPv4Network_of_int _ _ _ = Ok net |- _ =>
      rewrite Hb in Hn; injection Hn as <- end.
    eexists. split; [reflexivity|]. cbn [tiles].
    split; [exact Hw|]. split; [reflexivity|].
    rewrite Hs. unfold ALL_ONES in *. lia.
  - destruct (summarize_block first_int last_int ltac:(lia) H2) as (Hb & Hw & Hs & Hle).
    cbn zeta in *.
    match goal with Hn : IPv4Network_of_int _ _ _ = Ok net |- _ =>
      rewrite Hb in Hn; injection Hn as <- end.
    match goal with IH : _ -> _ -> _ -> exists _, _ |- _ =>
      destruct IH as (bs & Hbs & Ht); [ | exact Hle | exact H2 | ] end.
    { pose proof (size_pos _ (proj1 Hw)). lia. }
    rewrite Hbs. eexists. split; [reflexivity|]. cbn [tiles].
    split; [exact Hw|]. split; [reflexivity|]. rewrite Hs. exact Ht.
Qed.

Lemma summarize_address_range_tiles first last :
  0 <= first <= last -> last < 2 ^ 32 ->
  exists bs, summarize_address_range first last = Ok bs /\ tiles first bs (last + 1).
Proof.
  intros H Hl. unfold summarize_address_range.
  destruct (Z.ltb_spec last first); [lia|].
  apply summarize_loop_tiles; lia.
Qed.

Lemma tiles_wf s bs e : tiles s bs e -> Forall wf_network bs.
Proof.
  revert s. induction bs as [|b bs IH]; intros s H; cbn in *.
  - constructor.
  - destruct H as (Hw & _ & Ht). constructor; [exact Hw | eapply IH; exact Ht].
Qed.

Lemma tiles_lookup s bs e j b :
  tiles s bs e -> bs !! j = Some b ->
  wf_network b /\ s <= network_address b /\ network_address b + block_size b <= e.
Proof.
  revert s j. induction bs as [|b0 bs IH]; intros s j H Hj; [discriminate|].
  cbn in H. destruct H as (Hw & Hs & Ht).
  pose proof (size_pos b0 (proj1 Hw)).
  destruct j as [|j]; cbn in Hj.
  - injection Hj as <-. apply tiles_le in Ht. split; [exact Hw|]. lia.
  - destruct (IH _ _ Ht Hj) as (Hwb & Hlo & Hhi). split; [exact Hwb|]. lia.
Qed.

Lemma tiles_ordered s bs e i j b1 b2 :
  tiles s bs e -> (i < j)%nat -> bs !! i = Some b1 -> bs !! j = Some b2 ->
  network_address b1 + block_size b1 <= network_address b2.
Proof.
  revert s i j. induction bs as [|b0 bs IH]; intros s i j H Hij Hi Hj; [discriminate|].
  cbn in H. destruct H as (Hw & Hs & Ht).
  destruct j as [|j]; [lia|]. cbn in Hj.
  destruct i as [|i]; cbn in Hi.
  - injection Hi as <-. destruct (tiles_lookup _ _ _ _ _ Ht Hj) as (_ & Hlo & _). lia.
  - eapply IH; [exact Ht | | exact Hi | exact Hj]. lia.
Qed.

Lemma tiles_cover s bs e a :
  tiles s bs e -> 0 <= a < 2 ^ 32 ->
  (exists b, b ∈ bs /\ contains b a) <-> s <= a < e.
Proof.
  intros Ht Ha. revert s Ht. induction bs as [|b0 bs IH]; intros s Ht; cbn in Ht.
  - split.
    + intros (b & Hb & _). inversion Hb.
    + lia.
  - destruct Ht as (Hw & Hs & Ht). specialize (IH _ Ht).
    pose proof (size_pos b0 (proj1 Hw)). pose proof (tiles_le _ _ _ Ht).
    pose proof (contains_iff b0 a Hw Ha) as Hc.
    split.
    + intros (b & Hb & Hin). apply elem_of_cons in Hb as [->|Hb].
      * apply Hc in Hin. lia.
      * assert (s + block_size b0 <= a < e) by (apply IH; eauto). lia.
    + intros Hr. destruct (Z_lt_dec a (s + block_size b0)) as [Hlt|Hge].
      * exists b0. split; [left|]. apply Hc. lia.
      * destruct (proj2 IH ltac:(lia)) as (b & Hb & Hin).
        exists b. split; [right; exact Hb | exact Hin].
Qed.

Lemma fold_left_add_acc l acc : fold_left Z.add l acc = acc + fold_left Z.add l 0.
Proof.
  revert acc. induction l as [|x l IH]; intros acc; cbn.
  - lia.
  - rewrite (IH (acc + x)), (IH (0 + x)). lia.
Qed.

Lemma sum_Z_cons x l : sum_Z (x :: l) = x + sum_Z l.
Proof. unfold sum_Z. cbn. apply fold_left_add_acc. Qed.

Lemma tiles_sum s bs e : tiles s bs e -> sum_Z (map num_addresses bs) = e - s.
Proof.
  revert s. induction bs as [|b bs IH]; intros s H; cbn in H.
  - cbn. lia.
  - destruct H as (Hw & Hs & Ht). cbn [map]. rewrite sum_Z_cons.
    rewrite (IH _ Ht), num_addresses_eq by exact Hw. lia.
Qed.

(** ** Subdivision to the minimum prefix *)

Lemma mapM_map_ok {A B C : Type} (f : B -> result C) (g : A -> B) (h : A -> C) l :
  (forall x, x ∈ l -> f (g x) = Ok (h x)) -> mapM f (map g l) = Ok (map h l).
Proof.
  induction l as [|x l IH]; intros H; cbn.
  - reflexivity.
  - rewrite H by left. cbn. rewrite IH; [reflexivity|].
    intros y Hy. apply H. right. exact Hy.
Qed.

Lemma mod_pow2_weaken n a b : 0 <= a <= b -> n mod 2 ^ b = 0 -> n mod 2 ^ a = 0.
Proof.
  intros Hab H. pose proof (pow2_pos a ltac:(lia)). pose proof (pow2_pos b ltac:(lia)).
  apply Z.mod_divide; [lia|]. apply Z.mod_divide in H; [|lia].
  eapply Z.divide_trans; [|exact H].
  exists (2 ^ (b - a)). rewrite <- Z.pow_add_r by lia. f_equal. lia.
Qed.

Lemma subnets_16 net :
  wf_network net -> prefixlen net < 16 -> subnets net MIN_SUBNET_PREFIX = Ok (blocks16 net).
Proof.
  intros Hw Hp. pose proof Hw as (Hp0 & Ha & Hal).
  unfold subnets, MIN_SUBNET_PREFIX, max_prefixlen.
  destruct (Z.eqb_spec (prefixlen net) 32); [lia|].
  destruct (Z.ltb_spec 16 (prefixlen net)); [lia|].
  destruct (Z.ltb_spec (16 - prefixlen net) 0); [lia|].
  destruct (Z.ltb_spec 32 (prefixlen net + (16 - prefixlen net))); [lia|].
  rewrite hostmask_eq, broadcast_address_eq by assumption.
  unfold block_size.
  pose proof (pow2_split (16 - prefixlen net) (32 - prefixlen net) ltac:(lia)) as Hs.
  replace (32 - prefixlen net - (16 - prefixlen net)) with 16 in Hs by lia.
  pose proof (pow2_pos (16 - prefixlen net) ltac:(lia)) as Hk.
  assert (Z.shiftr (2 ^ (32 - prefixlen net) - 1 + 1) (16 - prefixlen net) = 2 ^ 16) as ->.
  { rewrite Z.shiftr_div_pow2 by lia.
    replace (2 ^ (32 - prefixlen net) - 1 + 1) with (2 ^ 16 * 2 ^ (16 - prefixlen net)) by lia.
    apply Z.div_mul. lia. }
  change (2 ^ 16 =? 0) with false. cbv iota.
  unfold py_range. change (0 <? 2 ^ 16) with true. cbv iota.
  assert ((network_address net + 2 ^ (32 - prefixlen net) - 1 + 1
           - network_address net + 2 ^ 16 - 1) / 2 ^ 16 = 2 ^ (16 - prefixlen net)) as ->.
  { replace (network_address net + 2 ^ (32 - prefixlen net) - 1 + 1
             - network_address net + 2 ^ 16 - 1)
      with (2 ^ (16 - prefixlen net) * 2 ^ 16 + (2 ^ 16 - 1)) by lia.
    rewrite Z.div_add_l by lia. change ((2 ^ 16 - 1) / 2 ^ 16) with 0. lia. }
  replace (prefixlen net + (16 - prefixlen net)) with 16 by lia.
  unfold blocks16. apply mapM_map_ok.
  intros i Hi. apply elem_of_seqZ in Hi.
  pose proof (wf_network_end net Hw) as Hend. unfold block_size in Hend.
  apply IPv4Network_of_int_strict; [nia | lia |].
  change (32 - 16) with 16.
  rewrite Z_mod_plus_full. apply (mod_pow2_weaken _ 16 (32 - prefixlen net)); [lia|exact Hal].
Qed.

Lemma tiles_run n j (k : nat) :
  0 <= n -> n mod 2 ^ 16 = 0 -> 0 <= j -> n + (j + Z.of_nat k) * 2 ^ 16 <= 2 ^ 32 ->
  tiles (n + j * 2 ^ 16)
        (map (fun i => Net (n + i * 2 ^ 16) 16) (seqZ j (Z.of_nat k)))
        (n + (j + Z.of_nat k) * 2 ^ 16).
Proof.
  intros Hn Hal. revert j. induction k as [|k IH]; intros j Hj Hend.
  - rewrite seqZ_nil by lia. cbn [map tiles]. lia.
  - rewrite seqZ_cons by lia. cbn [map tiles].
    rewrite Nat2Z.inj_succ, Z.pred_succ in *.
    split; [|split; [reflexivity|]].
    + unfold wf_network. cbn [prefixlen network_address]. change (32 - 16) with 16.
      split; [lia|]. split; [lia|]. rewrite Z_mod_plus_full. exact Hal.
    + unfold block_size. cbn [prefixlen]. change (32 - 16) with 16.
      replace (n + j * 2 ^ 16 + 2 ^ 16) with (n + Z.succ j * 2 ^ 16) by lia.
      replace (n + (j + Z.succ (Z.of_nat k)) * 2 ^ 16)
        with (n + (Z.succ j + Z.of_nat k) * 2 ^ 16) by lia.
      apply IH; lia.
Qed.

Lemma subdivide_tiles net :
  wf_network net ->
  tiles (network_address net) (subdivide net) (network_address net + block_size net).
Proof.
  intros Hw. pose proof Hw as (Hp0 & Ha & Hal). unfold subdivide, MIN_SUBNET_PREFIX.
  destruct (Z.ltb_spec (prefixlen net) 16) as [Hlt|Hge].
  - unfold blocks16, block_size.
    pose proof (pow2_split (16 - prefixlen net) (32 - prefixlen net) ltac:(lia)) as Hs.
    replace (32 - prefixlen net - (16 - prefixlen net)) with 16 in Hs by lia.
    pose proof (pow2_pos (16 - prefixlen net) ltac:(lia)) as Hk.
    pose proof (wf_network_end net Hw) as Hend. unfold block_size in Hend.
    pose proof (tiles_run (network_address net) 0 (Z.to_nat (2 ^ (16 - prefixlen net)))) as Hr.
    rewrite Z2Nat.id in Hr by lia.
    replace (network_address net + 0 * 2 ^ 16) with (network_address net) in Hr by lia.
    replace (network_address net + (0 + 2 ^ (16 - prefixlen net)) * 2 ^ 16)
      with (network_address net + 2 ^ (32 - prefixlen net)) in Hr by lia.
    apply Hr; [lia | | lia | lia].
    apply (mod_pow2_weaken _ 16 (32 - prefixlen net)); [lia|exact Hal].
  - cbn [tiles]. split; [exact Hw|]. split; reflexivity.
Qed.

Lemma subdivide_prefix net b :
  0 <= prefixlen net <= 32 -> b ∈ subdivide net -> 16 <= prefixlen b <= 32.
Proof.
  intros Hp. unfold subdivide, MIN_SUBNET_PREFIX.
  destruct (Z.ltb_spec (prefixlen net) 16) as [Hlt|Hge]; intros Hb.
  - unfold blocks16 in Hb. apply list_elem_of_fmap in Hb as (i & -> & _). cbn. lia.
  - apply list_elem_of_singleton in Hb as ->. lia.
Qed.

Lemma split_range_loop_eq nets acc :
  Forall wf_network nets ->
  split_range_loop nets acc = Ok (acc ++ concat (map subdivide nets))%list.
Proof.
  intros Hw. revert acc. induction Hw as [|net nets Hnet _ IH]; intros acc; cbn.
  - rewrite app_nil_r. reflexivity.
  - unfold subdivide at 1.
    destruct (Z.ltb_spec (prefixlen net) MIN_SUBNET_PREFIX) as [Hlt|Hge].
    + rewrite subnets_16 by (unfold MIN_SUBNET_PREFIX in Hlt; assumption).
      cbn. rewrite IH, <- app_assoc. reflexivity.
    + rewrite IH, <- app_assoc. reflexivity.
Qed.

Lemma concat_subdivide_tiles s nets e :
  tiles s nets e -> tiles s (concat (map subdivide nets)) e.
Proof.
  revert s. induction nets as [|net nets IH]; intros s H; cbn in *.
  - exact H.
  - destruct H as (Hw & Hs & Ht). subst s.
    eapply tiles_app; [apply subdivide_tiles; exact Hw | apply IH; exact Ht].
Qed.

(** ** Parsed addresses are 32-bit *)

Lemma int_of_digits_nonneg s acc :
  all_digits s = true -> 0 <= acc -> 0 <= int_of_digits acc s.
Proof.
  revert acc. induction s as [|c s IH]; intros acc Hd Hacc; cbn in *.
  - exact Hacc.
  - apply andb_prop in Hd as [Hc Hs]. apply IH; [exact Hs|].
    unfold is_digit in Hc. apply andb_prop in Hc as [Hlo _].
    apply Nat.leb_le in Hlo. lia.
Qed.

Lemma parse_octet_range s v : parse_octet s = Ok v -> 0 <= v <= 255.
Proof.
  unfold parse_octet. destruct s as [|c s]; [discriminate|].
  destruct (all_digits (String c s)) eqn:Hd; cbn [negb]; [|discriminate].
  destruct (_ <? _)%nat; [discriminate|].
  destruct (_ && _); [discriminate|].
  destruct (Z.ltb_spec 255 (int_of_digits 0 (String c s))); [discriminate|].
  pose proof (int_of_digits_nonneg (String c s) 0 Hd ltac:(lia)) as Hnn.
  intros [= <-]. split; assumption.
Qed.

Lemma IPv4Address_range s a : IPv4Address s = Ok a -> 0 <= a < 2 ^ 32.
Proof.
  unfold IPv4Address. destruct (Str.contains_char _ _); [discriminate|].
  unfold ip_int_from_string. destruct s as [|c s]; [discriminate|].
  destruct (Str.split "." (String c s)) as [|o1 [|o2 [|o3 [|o4 [|o5 os]]]]];
    cbn [length Nat.eqb negb]; try discriminate.
  cbn [mapM].
  destruct (parse_octet o1) as [v1|] eqn:H1; cbn [bind]; [|discriminate].
  destruct (parse_octet o2) as [v2|] eqn:H2; cbn [bind]; [|discriminate].
  destruct (parse_octet o3) as [v3|] eqn:H3; cbn [bind]; [|discriminate].
  destruct (parse_octet o4) as [v4|] eqn:H4; cbn [bind]; [|discriminate].
  intros [= <-].
  apply parse_octet_range in H1, H2, H3, H4.
  unfold from_bytes_big. cbn [fold_left]. change (2 ^ 32) with 4294967296. lia.
Qed.

Lemma blocks16_full net b :
  wf_network net -> prefixlen net < 16 ->
  b ∈ blocks16 net <->
  prefixlen b = 16 /\ wf_network b /\ contains net (network_address b).
Proof.
  intros Hw Hp. pose proof Hw as (Hp0 & Ha & Hal).
  pose proof (wf_network_end net Hw) as Hend.
  pose proof (pow2_split (16 - prefixlen net) (32 - prefixlen net) ltac:(lia)) as Hs.
  replace (32 - prefixlen net - (16 - prefixlen net)) with 16 in Hs by lia.
  pose proof (pow2_pos (16 - prefixlen net) ltac:(lia)) as Hk.
  pose proof (mod_pow2_weaken _ 16 (32 - prefixlen net) ltac:(lia) Hal) as Hal16.
  unfold blocks16. rewrite list_elem_of_fmap. unfold block_size in *.
  split.
  - intros (i & -> & Hi). apply elem_of_seqZ in Hi.
    assert (wf_network (Net (network_address net + i * 2 ^ 16) 16)) as Hwb.
    { unfold wf_network. cbn [prefixlen network_address]. change (32 - 16) with 16.
      split; [lia|]. split; [nia|]. rewrite Z_mod_plus_full. exact Hal16. }
    split; [reflexivity|]. split; [exact Hwb|].
    apply contains_iff; [exact Hw | apply Hwb |].
    cbn [network_address]. unfold block_size. nia.
  - intros (Hpb & Hwb & Hc). destruct b as [a p]. cbn [prefixlen network_address] in *.
    subst p. destruct Hwb as (_ & Hab & Halb). cbn [prefixlen network_address] in *.
    change (32 - 16) with 16 in Halb.
    apply contains_iff in Hc; [|exact Hw|exact Hab]. unfold block_size in Hc.
    apply Z.mod_divide in Halb; [|lia]. apply Z.mod_divide in Hal16; [|lia].
    destruct Halb as [qa Hqa]. destruct Hal16 as [qn Hqn].
    exists (qa - qn). split.
    + f_equal. lia.
    + apply elem_of_seqZ. nia.
Qed.

(** C2: for every valid pair of addresses with [start <= end],
    [split_range] returns blocks that are pairwise non-overlapping, whose
    addresses are exactly those of the closed range, and none of which has
    a prefix length below [MIN_SUBNET_PREFIX]; each summarized network
    coarser than that is replaced by all the [/16] networks inside it and
    the others pass through unchanged. *)
Theorem split_range_partition (start_ip end_ip : string) (s e : Z) :
  IPv4Address (Str.strip start_ip) = Ok s ->
  IPv4Address (Str.strip end_ip) = Ok e ->
  s <= e ->
  exists nets blocks,
    summarize_address_range s e = Ok nets /\
    split_range start_ip end_ip = Ok blocks /\
    blocks = concat (map subdivide nets) /\
    (forall net, net ∈ nets ->
       if prefixlen net <? MIN_SUBNET_PREFIX
       then forall b, b ∈ subdivide net <->
              prefixlen b = MIN_SUBNET_PREFIX /\ wf_network b /\
              contains net (network_address b)
       else subdivide net = [net]) /\
    (forall i j b1 b2 a,
       i <> j -> blocks !! i = Some b1 -> blocks !! j = Some b2 ->
       0 <= a < 2 ^ 32 -> ~ (contains b1 a /\ contains b2 a)) /\
    (forall a, 0 <= a < 2 ^ 32 ->
       (exists b, b ∈ blocks /\ contains b a) <-> s <= a <= e) /\
    (forall b, b ∈ blocks -> MIN_SUBNET_PREFIX <= prefixlen b <= 32).
Proof.
  intros Hs He Hle.
  pose proof (IPv4Address_range _ _ Hs) as Hsr.
  pose proof (IPv4Address_range _ _ He) as Her.
  destruct (summarize_address_range_tiles s e ltac:(lia) ltac:(lia)) as (nets & Hn & Ht).
  pose proof (tiles_wf _ _ _ Ht) as Hwf.
  pose proof (concat_subdivide_tiles _ _ _ Ht) as Htb.
  exists nets, (concat (map subdivide nets)).
  split; [exact Hn|]. split.
  { unfold split_range. rewrite Hs, He. cbn [bind]. rewrite Hn. cbn [bind].
    rewrite split_range_loop_eq by exact Hwf. reflexivity. }
  split; [reflexivity|]. split; [|split; [|split]].
  - intros net Hin. rewrite Forall_forall in Hwf. specialize (Hwf _ Hin).
    unfold subdivide at 2, MIN_SUBNET_PREFIX.
    destruct (Z.ltb_spec (prefixlen net) 16) as [Hlt|Hge]; [|reflexivity].
    intros b. unfold subdivide, MIN_SUBNET_PREFIX.
    destruct (Z.ltb_spec (prefixlen net) 16); [|lia].
    apply blocks16_full; assumption.
  - intros i j b1 b2 a Hij Hi Hj Ha [Hc1 Hc2].
    destruct (tiles_lookup _ _ _ _ _ Htb Hi) as (Hw1 & _).
    destruct (tiles_lookup _ _ _ _ _ Htb Hj) as (Hw2 & _).
    apply (contains_iff _ _ Hw1 Ha) in Hc1. apply (contains_iff _ _ Hw2 Ha) in Hc2.
    destruct (Nat.lt_total i j) as [Hlt|[Heq|Hgt]]; [|lia|].
    + pose proof (tiles_ordered _ _ _ _ _ _ _ Htb Hlt Hi Hj). lia.
    + pose proof (tiles_ordered _ _ _ _ _ _ _ Htb Hgt Hj Hi). lia.
  - intros a Ha. rewrite (tiles_cover _ _ _ a Htb Ha). lia.
  - intros b Hb. apply list_elem_of_In, in_concat in Hb as (l & Hl & Hb).
    apply list_elem_of_In in Hl, Hb.
    apply list_elem_of_fmap in Hl as (net & -> & Hnet).
    rewrite Forall_forall in Hwf.
    apply (subdivide_prefix net b); [apply Hwf; exact Hnet | exact Hb].
Qed.

Lemma split_range_partition_witness :
  exists nets blocks,
    summarize_address_range 16909056 16909155 = Ok nets /\
    split_range "1.2.3.0" " 1.2.3.99" = Ok blocks /\
    blocks = concat (map subdivide nets) /\
    (forall net, net ∈ nets ->
       if prefixlen net <? MIN_SUBNET_PREFIX
       then forall b, b ∈ subdivide net <->
              prefixlen b = MIN_SUBNET_PREFIX /\ wf_network b /\
              contains net (network_address b)
       else subdivide net = [net]) /\
    (forall i j b1 b2 a,
       i <> j -> blocks !! i = Some b1 -> blocks !! j = Some b2 ->
       0 <= a < 2 ^ 32 -> ~ (contains b1 a /\ contains b2 a)) /\
    (forall a, 0 <= a < 2 ^ 32 ->
       (exists b, b ∈ blocks /\ contains b a) <-> 16909056 <= a <= 16909155) /\
    (forall b, b ∈ blocks -> MIN_SUBNET_PREFIX <= prefixlen b <= 32).
Proof.
  apply (split_range_partition "1.2.3.0" " 1.2.3.99" 16909056 16909155);
    [vm_compute; reflexivity | vm_compute; reflexivity | lia].
Defined.

(** ** Comprehensions and updates *)

Lemma filterM_ok {A : Type} (f : A -> result bool) l r :
  filterM f l = Ok r ->
  (forall x, x ∈ l -> exists b, f x = Ok b) /\
  (forall x, x ∈ r <-> x ∈ l /\ f x = Ok true) /\
  (NoDup l -> NoDup r).
Proof.
  revert r. induction l as [|x l IH]; intros r H; cbn in H.
  - injection H as <-. split; [|split].
    + intros x Hx. inversion Hx.
    + intros x. split; [intros Hx; inversion Hx | intros [Hx _]; inversion Hx].
    + trivial.
  - destruct (f x) as [b|] eqn:Hfx; cbn in H; [|discriminate].
    destruct (filterM f l) as [r'|]; cbn in H; [|discriminate].
    injection H as <-. destruct (IH r' eq_refl) as (IH1 & IH2 & IH3).
    split; [|split].
    + intros y Hy. apply elem_of_cons in Hy as [->|Hy]; eauto.
    + intros y. rewrite elem_of_cons.
      destruct b.
      * rewrite elem_of_cons, IH2. split.
        -- intros [->|[Hy Hf]]; auto.
        -- intros [[->|Hy] Hf]; auto.
      * rewrite IH2. split.
        -- intros [Hy Hf]; auto.
        -- intros [[->|Hy] Hf]; [congruence | auto].
    + intros Hnd. apply NoDup_cons in Hnd as [Hx Hnd]. destruct b; [|auto].
      apply NoDup_cons. split; [|auto]. rewrite IH2. tauto.
Qed.

Lemma filterM_total {A : Type} (f : A -> result bool) l :
  (forall x, x ∈ l -> exists b, f x = Ok b) -> exists r, filterM f l = Ok r.
Proof.
  induction l as [|x l IH]; intros H; cbn.
  - eauto.
  - destruct (H x ltac:(left)) as [b ->]. cbn.
    destruct IH as [r ->]; [intros y Hy; apply H; right; exact Hy|]. cbn. eauto.
Qed.

Lemma update_all_lookup f l (d : Table) k :
  NoDup l ->
  update_all f l d !! k =
    if decide (k ∈ l) then Some (f k (default empty_entry (d !! k))) else d !! k.
Proof.
  intros Hnd. revert d. induction Hnd as [|x l Hx Hnd IH]; intros d; cbn.
  - rewrite decide_False by (intros H; inversion H). reflexivity.
  - unfold update_all in *. cbn [fold_left]. rewrite IH. unfold update.
    destruct (decide (k = x)) as [->|Hne].
    + rewrite decide_False by exact Hx. rewrite decide_True by left.
      rewrite lookup_insert_eq. reflexivity.
    + rewrite lookup_insert_ne by congruence.
      destruct (decide (k ∈ l)) as [Hin|Hnin].
      * rewrite decide_True by (right; exact Hin). reflexivity.
      * rewrite decide_False; [reflexivity|].
        intros Hin. apply elem_of_cons in Hin as [?|?]; contradiction.
Qed.

Lemma load_loop_app l1 l2 st :
  load_loop (l1 ++ l2) st = do st' <- load_loop l1 st; load_loop l2 st'.
Proof.
  revert st. induction l1 as [|x l1 IH]; intros st; cbn.
  - reflexivity.
  - destruct (load_line st x); cbn; [apply IH | reflexivity].
Qed.

Lemma split_no_sep sep s : Str.contains_char sep s = false -> Str.split sep s = [s].
Proof.
  induction s as [|c s IH]; cbn; intros H.
  - reflexivity.
  - apply orb_false_elim in H as [Hc Hs]. rewrite Hc, IH by exact Hs. reflexivity.
Qed.

Lemma tiles_NoDup s bs e : tiles s bs e -> NoDup bs.
Proof.
  intros Ht. apply NoDup_alt. intros i j b Hi Hj.
  destruct (Nat.lt_total i j) as [Hlt|[Heq|Hgt]]; [|exact Heq|].
  - pose proof (tiles_ordered _ _ _ _ _ _ _ Ht Hlt Hi Hj).
    destruct (tiles_lookup _ _ _ _ _ Ht Hi) as (Hw & _).
    pose proof (size_pos b (proj1 Hw)). lia.
  - pose proof (tiles_ordered _ _ _ _ _ _ _ Ht Hgt Hj Hi).
    destruct (tiles_lookup _ _ _ _ _ Ht Hi) as (Hw & _).
    pose proof (size_pos b (proj1 Hw)). lia.
Qed.

(** ** The loader, line by line *)

Lemma load_line_kv st line k v :
  is_line line k v ->
  load_line st line =
    if is_descr k && bool_decide (prev_key st = Some Kdescr) then Ok st
    else
      do st1 <- (if bool_decide (k = Kinetnum) then load_inetnum st v else Ok st);
      match current_range st1 with
      | None => Err TypeError
      | Some blocks =>
          Ok (mkState (update_all (fun _ => set_key k v) blocks (data st1))
                      (Some blocks) (Some k))
      end.
Proof.
  intros (Hc & Hb & Hk & Hv). unfold load_line.
  rewrite Hc. apply String.eqb_neq in Hb. rewrite Hb, Hk, Hv. reflexivity.
Qed.

Lemma update_all_dom f l (d : Table) k :
  is_Some (update_all f l d !! k) <-> k ∈ l \/ is_Some (d !! k).
Proof.
  revert d. induction l as [|x l IH]; intros d; unfold update_all in *; cbn [fold_left].
  - split; [auto | intros [H|H]; [inversion H | exact H]].
  - rewrite IH. unfold update. rewrite elem_of_cons.
    destruct (decide (k = x)) as [->|Hne].
    + rewrite lookup_insert_eq. split; [auto | intros _; right; eauto].
    + rewrite lookup_insert_ne by congruence. tauto.
Qed.

Lemma update_all_keeps (P : Entry -> Prop) f l (d : Table) :
  (forall k e, P e -> P (f k e)) ->
  (forall b, b ∈ l -> is_Some (d !! b)) ->
  (forall k v, d !! k = Some v -> P v) ->
  forall k v, update_all f l d !! k = Some v -> P v.
Proof.
  intros Hf. revert d. induction l as [|x l IH]; intros d Hl Hd k v;
    unfold update_all in *; cbn [fold_left].
  - apply Hd.
  - apply IH.
    + intros b Hb. unfold update.
      destruct (decide (b = x)) as [->|Hne].
      * rewrite lookup_insert_eq. eauto.
      * rewrite lookup_insert_ne by congruence. apply Hl. right. exact Hb.
    + intros k' v'. unfold update.
      destruct (decide (k' = x)) as [->|Hne].
      * rewrite lookup_insert_eq. intros [= <-]. apply Hf.
        destruct (Hl x ltac:(left)) as [e He]. rewrite He. cbn. eapply Hd; exact He.
      * rewrite lookup_insert_ne by congruence. apply Hd.
Qed.

Lemma update_all_sets (P : Entry -> Prop) f l (d : Table) :
  (forall k e, P (f k e)) ->
  (forall k v, d !! k = Some v -> P v) ->
  forall k v, update_all f l d !! k = Some v -> P v.
Proof.
  intros Hf. revert d. induction l as [|x l IH]; intros d Hd k v;
    unfold update_all in *; cbn [fold_left].
  - apply Hd.
  - apply IH. intros k' v'. unfold update.
    destruct (decide (k' = x)) as [->|Hne].
    + rewrite lookup_insert_eq. intros [= <-]. apply Hf.
    + rewrite lookup_insert_ne by congruence. apply Hd.
Qed.

Lemma update_all_proj {B : Type} (g : Entry -> B) f l (d : Table) k v :
  (forall k e, g (f k e) = g e) ->
  d !! k = Some v ->
  exists v', update_all f l d !! k = Some v' /\ g v' = g v.
Proof.
  intros Hf. revert d v. induction l as [|x l IH]; intros d v Hk;
    unfold update_all in *; cbn [fold_left].
  - eauto.
  - unfold update. destruct (decide (k = x)) as [->|Hne].
    + destruct (IH (<[x:=f x (default empty_entry (d !! x))]> d)
                   (f x (default empty_entry (d !! x)))) as (v' & Hv' & Hg).
      { apply lookup_insert_eq. }
      exists v'. split; [exact Hv'|]. rewrite Hg, Hf, Hk. reflexivity.
    + apply IH. rewrite lookup_insert_ne by congruence. exact Hk.
Qed.

Lemma split_range_tiles start_ip end_ip s e :
  IPv4Address (Str.strip start_ip) = Ok s ->
  IPv4Address (Str.strip end_ip) = Ok e ->
  s <= e ->
  exists nets,
    summarize_address_range s e = Ok nets /\
    Forall wf_network nets /\
    split_range start_ip end_ip = Ok (concat (map subdivide nets)) /\
    tiles s (concat (map subdivide nets)) (e + 1).
Proof.
  intros Hs He Hle.
  pose proof (IPv4Address_range _ _ Hs) as Hsr.
  pose proof (IPv4Address_range _ _ He) as Her.
  destruct (summarize_address_range_tiles s e ltac:(lia) ltac:(lia)) as (nets & Hn & Ht).
  pose proof (tiles_wf _ _ _ Ht) as Hwf.
  exists nets. split; [exact Hn|]. split; [exact Hwf|]. split.
  - unfold split_range. rewrite Hs, He. cbn [bind]. rewrite Hn. cbn [bind].
    rewrite split_range_loop_eq by exact Hwf. reflexivity.
  - apply concat_subdivide_tiles. exact Ht.
Qed.

Lemma load_inetnum_spec st value start_ip end_ip s e :
  Str.split "-" value = [start_ip; end_ip] ->
  IPv4Address (Str.strip (Str.strip start_ip)) = Ok s ->
  IPv4Address (Str.strip (Str.strip end_ip)) = Ok e ->
  s <= e ->
  (forall k v, data st !! k = Some v -> is_Some (num_addr_orig v)) ->
  exists blocks kept,
    split_range (Str.strip start_ip) (Str.strip end_ip) = Ok blocks /\
    tiles s blocks (e + 1) /\
    NoDup kept /\
    (forall b, b ∈ kept <-> b ∈ blocks /\ ~ smaller_exists (data st) (e - s + 1) b) /\
    load_inetnum st value =
      Ok (mkState (update_all (fun k => set_origin (str_network k) (e - s + 1)) kept (data st))
                  (Some kept) (prev_key st)).
Proof.
  intros Hsp Hs He Hle Hinv.
  destruct (split_range_tiles _ _ _ _ Hs He Hle) as (nets & _ & _ & Hsr & Ht).
  set (blocks := concat (map subdivide nets)) in *.
  pose proof (tiles_sum _ _ _ Ht) as Hsum.
  replace (e + 1 - s) with (e - s + 1) in Hsum by lia.
  assert (forall b, b ∈ blocks -> exists r, keep_new (data st) (e - s + 1) b = Ok r) as Htot.
  { intros b _. unfold keep_new. destruct (data st !! b) as [v|] eqn:Hb; [|eauto].
    destruct (Hinv _ _ Hb) as [n ->]. cbn. eauto. }
  destruct (filterM_total _ _ Htot) as [kept Hkept].
  destruct (filterM_ok _ _ _ Hkept) as (_ & Hmem & Hnd).
  exists blocks, kept. split; [exact Hsr|].
  split; [exact Ht|]. split; [apply Hnd, (tiles_NoDup _ _ _ Ht)|].
  split.
  - intros b. rewrite Hmem. unfold keep_new, smaller_exists.
    split; intros [Hb Hk]; (split; [exact Hb|]).
    + intros (v & n & Hv & Hn & Hlt). rewrite Hv, Hn in Hk. cbn in Hk.
      destruct (Z.ltb_spec n (e - s + 1)); [discriminate | lia].
    + destruct (data st !! b) as [v|] eqn:Hv; [|reflexivity].
      destruct (Hinv _ _ Hv) as [n Hn]. rewrite Hn. cbn.
      destruct (Z.ltb_spec n (e - s + 1)); [|reflexivity].
      exfalso. apply Hk. eauto.
  - unfold load_inetnum. rewrite Hsp, Hsr. cbn [bind]. rewrite Hsum, Hkept. reflexivity.
Qed.

Lemma load_line_loaded st line st' :
  loaded st -> load_line st line = Ok st' -> loaded st'.
Proof.
  intros [Hd Hc]. unfold load_line.
  destruct (Str.startswith _ _); [intros [= <-]; split; assumption|].
  destruct (String.eqb _ _).
  { intros [= <-]. split; [exact Hd | discriminate]. }
  destruct (recognized _) as [key|]; [|intros [= <-]; split; assumption].
  destruct (line_value line) as [value|]; cbn [bind]; [|discriminate].
  destruct (_ && _); [intros [= <-]; split; assumption|].
  assert (forall st1, loaded st1 ->
            match current_range st1 with
            | Some blocks =>
                Ok (mkState (update_all (fun _ => set_key key value) blocks (data st1))
                            (Some blocks) (Some key))
            | None => Err TypeError
            end = Ok st' -> loaded st') as Hattr.
  { intros st1 [Hd1 Hc1]. destruct (current_range st1) as [blocks|]; [|discriminate].
    intros [= <-]. split; cbn [data current_range].
    - apply update_all_keeps; [| eapply Hc1; reflexivity | exact Hd1].
      intros k e He. destruct key; exact He.
    - intros ? [= <-] b Hb. apply update_all_dom. left. exact Hb. }
  destruct (bool_decide (key = Kinetnum)); [|cbn [bind]; apply Hattr; split; assumption].
  destruct (load_inetnum st value) as [st1|] eqn:Hin; cbn [bind]; [|discriminate].
  apply Hattr. unfold load_inetnum in Hin.
  destruct (Str.split "-" value) as [|a [|b [|c l]]]; try discriminate.
  destruct (split_range _ _) as [blocks|]; cbn [bind] in Hin; [|discriminate].
  destruct (filterM _ _) as [kept|]; cbn [bind] in Hin; [|discriminate].
  injection Hin as <-. split; cbn [data current_range].
  - apply update_all_sets; [|exact Hd]. intros k e. cbn. eauto.
  - intros ? [= <-] b0 Hb. apply update_all_dom. left. exact Hb.
Qed.

Lemma load_loop_loaded lines st st' :
  loaded st -> load_loop lines st = Ok st' -> loaded st'.
Proof.
  revert st. induction lines as [|line lines IH]; intros st Hst; cbn.
  - intros [= <-]. exact Hst.
  - destruct (load_line st line) as [st1|] eqn:H1; cbn; [|discriminate].
    apply IH. eapply load_line_loaded; eassumption.
Qed.

Lemma init_loaded : loaded init_state.
Proof.
  split; cbn.
  - intros k v H. rewrite lookup_empty in H. discriminate.
  - discriminate.
Qed.

Lemma load_inetnum_line st line value start_ip end_ip s e :
  loaded st ->
  is_line line Kinetnum value ->
  Str.split "-" value = [start_ip; end_ip] ->
  IPv4Address (Str.strip (Str.strip start_ip)) = Ok s ->
  IPv4Address (Str.strip (Str.strip end_ip)) = Ok e ->
  s <= e ->
  exists blocks kept,
    split_range (Str.strip start_ip) (Str.strip end_ip) = Ok blocks /\
    tiles s blocks (e + 1) /\
    NoDup kept /\
    (forall b, b ∈ kept <-> b ∈ blocks /\ ~ smaller_exists (data st) (e - s + 1) b) /\
    load_line st line =
      Ok (mkState
            (update_all (fun _ => set_key Kinetnum value) kept
               (update_all (fun k => set_origin (str_network k) (e - s + 1)) kept (data st)))
            (Some kept) (Some Kinetnum)).
Proof.
  intros [Hd _] Hline Hsp Hs He Hle.
  destruct (load_inetnum_spec st value _ _ _ _ Hsp Hs He Hle Hd)
    as (blocks & kept & Hsr & Ht & Hnd & Hmem & Hload).
  exists blocks, kept. repeat (split; [assumption|]).
  rewrite (load_line_kv _ _ _ _ Hline). cbn [is_descr andb].
  rewrite bool_decide_eq_true_2 by reflexivity. rewrite Hload. reflexivity.
Qed.

Lemma load_inetnum_line_lookup (d : Table) kept value n b :
  NoDup kept ->
  update_all (fun _ => set_key Kinetnum value) kept
    (update_all (fun k => set_origin (str_network k) n) kept d) !! b =
  if decide (b ∈ kept)
  then Some (set_key Kinetnum value (set_origin (str_network b) n (default empty_entry (d !! b))))
  else d !! b.
Proof.
  intros Hnd. rewrite !update_all_lookup by exact Hnd.
  destruct (decide (b ∈ kept)); reflexivity.
Qed.

Lemma load_line_keeps_origin st line st' b v :
  recognized (line_key line) <> Some Kinetnum ->
  load_line st line = Ok st' ->
  data st !! b = Some v ->
  exists v', data st' !! b = Some v' /\ num_addr_orig v' = num_addr_orig v.
Proof.
  intros Hk Hl Hb. unfold load_line in Hl.
  destruct (Str.startswith _ _); [injection Hl as <-; eauto|].
  destruct (String.eqb _ _); [injection Hl as <-; eauto|].
  destruct (recognized _) as [key|]; [|injection Hl as <-; eauto].
  destruct (line_value line) as [value|]; cbn [bind] in Hl; [|discriminate].
  destruct (_ && _); [injection Hl as <-; eauto|].
  rewrite bool_decide_eq_false_2 in Hl by congruence. cbn [bind] in Hl.
  destruct (current_range st) as [blocks|]; [|discriminate].
  injection Hl as <-. cbn [data].
  apply update_all_proj; [|exact Hb]. intros _ e. destruct key; reflexivity.
Qed.

Lemma load_loop_keeps_origin rest st1 st2 (populated : list IPv4Network) n :
  Forall (fun l => recognized (line_key l) <> Some Kinetnum) rest ->
  load_loop rest st1 = Ok st2 ->
  (forall b, b ∈ populated ->
     exists v, data st1 !! b = Some v /\ num_addr_orig v = Some n) ->
  forall b, b ∈ populated ->
    exists v, data st2 !! b = Some v /\ num_addr_orig v = Some n.
Proof.
  intros Hrest. revert st1.
  induction Hrest as [|l rest Hl _ IH]; intros st1 Hrun Hnow b Hb; cbn in Hrun.
  - injection Hrun as <-. apply Hnow. exact Hb.
  - destruct (load_line st1 l) as [st1'|] eqn:Hstep; cbn in Hrun; [|discriminate].
    apply (IH st1'); [exact Hrun| |exact Hb].
    intros b' Hb'. destruct (Hnow b' Hb') as (v & Hv & Hn).
    destruct (load_line_keeps_origin _ _ _ _ _ Hl Hstep Hv) as (v' & Hv' & Hn').
    exists v'. split; [exact Hv' | congruence].
Qed.

(** C7: an [inetnum] line populates exactly the blocks of its split
    range that are not in the table with a smaller origin, none of them
    missing; the [num_addr_orig] it writes to each block it populates is
    the number of addresses of the declared range, [end - start + 1], the
    same for all of them; the blocks it does not populate keep their
    entries; and the other lines of the record leave the value in
    place. *)
Theorem num_addr_orig_is_range_size pre line rest value start_ip end_ip s e st :
  load_loop pre init_state = Ok st ->
  is_line line Kinetnum value ->
  Str.split "-" value = [start_ip; end_ip] ->
  IPv4Address (Str.strip (Str.strip start_ip)) = Ok s ->
  IPv4Address (Str.strip (Str.strip end_ip)) = Ok e ->
  s <= e ->
  exists blocks st1 populated,
    split_range (Str.strip start_ip) (Str.strip end_ip) = Ok blocks /\
    blocks <> [] /\
    sum_Z (map num_addresses blocks) = e - s + 1 /\
    load_line st line = Ok st1 /\
    current_range st1 = Some populated /\
    (forall b, b ∈ populated <->
               b ∈ blocks /\ ~ smaller_exists (data st) (e - s + 1) b) /\
    (forall b, b ∈ populated ->
       exists v, data st1 !! b = Some v /\ num_addr_orig v = Some (e - s + 1)) /\
    (forall b, b ∉ populated -> data st1 !! b = data st !! b) /\
    (Forall (fun l => recognized (line_key l) <> Some Kinetnum) rest ->
     forall st2, load_loop rest st1 = Ok st2 ->
     forall b, b ∈ populated ->
       exists v, data st2 !! b = Some v /\ num_addr_orig v = Some (e - s + 1)).
Proof.
  intros Hpre Hline Hsp Hs He Hle.
  pose proof (load_loop_loaded _ _ _ init_loaded Hpre) as Hst.
  destruct (load_inetnum_line st line value _ _ _ _ Hst Hline Hsp Hs He Hle)
    as (blocks & kept & Hsr & Ht & Hnd & Hmem & Hload).
  eexists blocks, _, kept.
  split; [exact Hsr|].
  split; [intros Hnil; rewrite Hnil in Ht; cbn in Ht; lia|].
  split; [rewrite (tiles_sum _ _ _ Ht); lia|].
  split; [exact Hload|]. split; [reflexivity|].
  split; [exact Hmem|].
  cbn [data].
  assert (forall b, b ∈ kept ->
            exists v,
              update_all (fun _ => set_key Kinetnum value) kept
                (update_all (fun k => set_origin (str_network k) (e - s + 1)) kept (data st))
                !! b = Some v /\ num_addr_orig v = Some (e - s + 1)) as Hnow.
  { intros b Hb. rewrite load_inetnum_line_lookup by exact Hnd.
    rewrite decide_True by exact Hb. eexists. split; reflexivity. }
  split; [exact Hnow|]. split.
  - intros b Hb. rewrite load_inetnum_line_lookup by exact Hnd.
    rewrite decide_False by exact Hb. reflexivity.
  - intros Hrest st2 Hrun. eapply load_loop_keeps_origin; [exact Hrest | exact Hrun |].
    exact Hnow.
Qed.

Lemma num_addr_orig_is_range_size_witness :
  exists st,
    load_loop (ex_record "1.2.3.0 - 1.2.3.255" "SMALL-NET" "small" "AU" ++ [nl]
                 ++ ex_record "1.2.2.0 - 1.2.5.255" "WIDE-NET" "wide" "NZ" ++ [nl])
              init_state = Ok st /\
    smaller_exists (data st) (16910079 - 16909056 + 1) (Net 16909056 24) /\
    ~ smaller_exists (data st) (16910079 - 16909056 + 1) (Net 16909312 23) /\
    is_Some (data st !! Net 16909312 23) /\
    data st !! Net 16909824 24 = None /\
    exists blocks st1 populated,
      split_range (Str.strip "1.2.3.0 ") (Str.strip " 1.2.6.255") = Ok blocks /\
      blocks <> [] /\
      sum_Z (map num_addresses blocks) = 16910079 - 16909056 + 1 /\
      load_line st ("inetnum:        1.2.3.0 - 1.2.6.255" +:+ nl) = Ok st1 /\
      current_range st1 = Some populated /\
      (forall b, b ∈ populated <->
                 b ∈ blocks /\ ~ smaller_exists (data st) (16910079 - 16909056 + 1) b) /\
      (forall b, b ∈ populated ->
         exists v, data st1 !! b = Some v /\
                   num_addr_orig v = Some (16910079 - 16909056 + 1)) /\
      (forall b, b ∉ populated -> data st1 !! b = data st !! b) /\
      (Forall (fun l => recognized (line_key l) <> Some Kinetnum)
              ["netname:        EXAMPLE-NET" +:+ nl; "country:        US" +:+ nl] ->
       forall st2,
         load_loop ["netname:        EXAMPLE-NET" +:+ nl; "country:        US" +:+ nl] st1
           = Ok st2 ->
       forall b, b ∈ populated ->
         exists v, data st2 !! b = Some v /\
                   num_addr_orig v = Some (16910079 - 16909056 + 1)).
Proof.
  eexists. split; [vm_compute; reflexivity|].
  split; [do 2 eexists; split; [vm_compute; reflexivity|]; split; [reflexivity | lia]|].
  split.
  { intros (v & n & Hv & Hn & Hlt). vm_compute in Hv. injection Hv as <-.
    injection Hn as <-. lia. }
  split; [eexists; vm_compute; reflexivity|].
  split; [vm_compute; reflexivity|].
  apply (num_addr_orig_is_range_size
           (ex_record "1.2.3.0 - 1.2.3.255" "SMALL-NET" "small" "AU" ++ [nl]
              ++ ex_record "1.2.2.0 - 1.2.5.255" "WIDE-NET" "wide" "NZ" ++ [nl])
           ("inetnum:        1.2.3.0 - 1.2.6.255" +:+ nl)
           ["netname:        EXAMPLE-NET" +:+ nl; "country:        US" +:+ nl]
           "1.2.3.0 - 1.2.6.255" "1.2.3.0 " " 1.2.6.255" 16909056 16910079).
  - vm_compute. reflexivity.
  - check_line.
  - vm_compute. reflexivity.
  - vm_compute. reflexivity.
  - vm_compute. reflexivity.
  - lia.
Defined.

(** C4 (as the code has it): a newly split block is dropped, and its
    entry left as it is, exactly when it is already in the table with a
    strictly smaller [num_addr_orig]; otherwise the block is populated and
    the new record's origin and range overwrite the entry, which on a tie
    means that the new record wins. *)
Theorem overlap_rule pre line value start_ip end_ip s e st :
  load_loop pre init_state = Ok st ->
  is_line line Kinetnum value ->
  Str.split "-" value = [start_ip; end_ip] ->
  IPv4Address (Str.strip (Str.strip start_ip)) = Ok s ->
  IPv4Address (Str.strip (Str.strip end_ip)) = Ok e ->
  s <= e ->
  exists blocks st1 populated,
    split_range (Str.strip start_ip) (Str.strip end_ip) = Ok blocks /\
    sum_Z (map num_addresses blocks) = e - s + 1 /\
    load_line st line = Ok st1 /\
    current_range st1 = Some populated /\
    forall b, b ∈ blocks ->
      (smaller_exists (data st) (e - s + 1) b ->
         (b ∉ populated) /\ data st1 !! b = data st !! b) /\
      (~ smaller_exists (data st) (e - s + 1) b ->
         b ∈ populated /\
         data st1 !! b =
           Some (set_key Kinetnum value
                   (set_origin (str_network b) (e - s + 1)
                      (default empty_entry (data st !! b))))) /\
      (forall old, data st !! b = Some old ->
         num_addr_orig old = Some (e - s + 1) ->
         b ∈ populated /\
         data st1 !! b =
           Some (set_key Kinetnum value (set_origin (str_network b) (e - s + 1) old))).
Proof.
  intros Hpre Hline Hsp Hs He Hle.
  pose proof (load_loop_loaded _ _ _ init_loaded Hpre) as Hst.
  destruct (load_inetnum_line st line value _ _ _ _ Hst Hline Hsp Hs He Hle)
    as (blocks & kept & Hsr & Ht & Hnd & Hmem & Hload).
  eexists blocks, _, kept.
  split; [exact Hsr|]. split.
  { rewrite (tiles_sum _ _ _ Ht). lia. }
  split; [exact Hload|]. split; [reflexivity|].
  cbn [data]. intros b Hb.
  rewrite load_inetnum_line_lookup by exact Hnd.
  assert (~ smaller_exists (data st) (e - s + 1) b ->
          b ∈ kept /\
          (if decide (b ∈ kept)
           then Some (set_key Kinetnum value
                        (set_origin (str_network b) (e - s + 1)
                           (default empty_entry (data st !! b))))
           else data st !! b) =
          Some (set_key Kinetnum value
                  (set_origin (str_network b) (e - s + 1)
                     (default empty_entry (data st !! b))))) as Hnew.
  { intros Hns. assert (b ∈ kept) as Hk by (apply Hmem; tauto).
    split; [exact Hk|]. rewrite decide_True by exact Hk. reflexivity. }
  split; [|split; [exact Hnew|]].
  - intros Hsm. assert (b ∉ kept) as Hk by (rewrite Hmem; tauto).
    split; [exact Hk|]. rewrite decide_False by exact Hk. reflexivity.
  - intros old Hold Hn.
    destruct Hnew as [Hk Heq].
    + intros (v & n & Hv & Hvn & Hlt). rewrite Hold in Hv. injection Hv as <-.
      rewrite Hn in Hvn. injection Hvn as <-. lia.
    + split; [exact Hk|]. rewrite Heq, Hold. reflexivity.
Qed.

Lemma overlap_rule_witness :
  exists st small wide,
    load_loop (ex_record "1.2.3.0 - 1.2.3.255" "SMALL-NET" "small" "AU" ++ [nl]
                 ++ ex_record "1.2.2.0 - 1.2.5.255" "WIDE-NET" "wide" "NZ" ++ [nl])
              init_state = Ok st /\
    data st !! Net 16909056 24 = Some small /\ num_addr_orig small = Some 256 /\
    data st !! Net 16909312 23 = Some wide /\ num_addr_orig wide = Some 1024 /\
    data st !! Net 16909824 24 = None /\
    split_range (Str.strip "1.2.3.0 ") (Str.strip " 1.2.6.255")
      = Ok [Net 16909056 24; Net 16909312 23; Net 16909824 24] /\
    exists blocks st1 populated,
      split_range (Str.strip "1.2.3.0 ") (Str.strip " 1.2.6.255") = Ok blocks /\
      sum_Z (map num_addresses blocks) = 16910079 - 16909056 + 1 /\
      load_line st ("inetnum:        1.2.3.0 - 1.2.6.255" +:+ nl) = Ok st1 /\
      current_range st1 = Some populated /\
      forall b, b ∈ blocks ->
        (smaller_exists (data st) (16910079 - 16909056 + 1) b ->
           (b ∉ populated) /\ data st1 !! b = data st !! b) /\
        (~ smaller_exists (data st) (16910079 - 16909056 + 1) b ->
           b ∈ populated /\
           data st1 !! b =
             Some (set_key Kinetnum "1.2.3.0 - 1.2.6.255"
                     (set_origin (str_network b) (16910079 - 16909056 + 1)
                        (default empty_entry (data st !! b))))) /\
        (forall old, data st !! b = Some old ->
           num_addr_orig old = Some (16910079 - 16909056 + 1) ->
           b ∈ populated /\
           data st1 !! b =
             Some (set_key Kinetnum "1.2.3.0 - 1.2.6.255"
                     (set_origin (str_network b) (16910079 - 16909056 + 1) old))).
Proof.
  do 3 eexists. split; [vm_compute; reflexivity|].
  split; [vm_compute; reflexivity|]. split; [reflexivity|].
  split; [vm_compute; reflexivity|]. split; [reflexivity|].
  split; [vm_compute; reflexivity|].
  split; [vm_compute; reflexivity|].
  apply (overlap_rule
           (ex_record "1.2.3.0 - 1.2.3.255" "SMALL-NET" "small" "AU" ++ [nl]
              ++ ex_record "1.2.2.0 - 1.2.5.255" "WIDE-NET" "wide" "NZ" ++ [nl])
           ("inetnum:        1.2.3.0 - 1.2.6.255" +:+ nl)
           "1.2.3.0 - 1.2.6.255" "1.2.3.0 " " 1.2.6.255" 16909056 16910079).
  - vm_compute. reflexivity.
  - check_line.
  - vm_compute. reflexivity.
  - vm_compute. reflexivity.
  - vm_compute. reflexivity.
  - lia.
Defined.

(** C4, the inputs at which the claim fails: an existing entry whose
    [num_addr_orig] is larger than the new record's, and one whose
    [num_addr_orig] equals it, are both overwritten by the new record. *)
Lemma existing_not_smaller_is_overwritten :
  (exists st old st1 populated new,
     load_loop (ex_record "1.2.3.0 - 1.2.3.99" "OLD-NET" "old" "AU" ++ [nl]) init_state
       = Ok st /\
     data st !! Net 16909120 27 = Some old /\
     num_addr_orig old = Some 100 /\
     load_line st ("inetnum:        1.2.3.64 - 1.2.3.113" +:+ nl) = Ok st1 /\
     current_range st1 = Some populated /\
     Net 16909120 27 ∈ populated /\
     data st1 !! Net 16909120 27 = Some new /\
     num_addr_orig new = Some 50 /\
     new <> old) /\
  (exists t new,
     load_networks (ex_record "1.2.3.0 - 1.2.3.255" "OLD-NET" "old" "AU" ++ [nl]
                      ++ ex_record "1.2.3.0 - 1.2.3.255" "NEW-NET" "new" "NZ") = Ok t /\
     t !! Net 16909056 24 = Some new /\
     num_addr_orig new = Some 256 /\
     netname new = Some "NEW-NET").
Proof.
  split.
  - do 5 eexists.
    split; [vm_compute; reflexivity|].
    split; [vm_compute; reflexivity|].
    split; [reflexivity|].
    split; [vm_compute; reflexivity|].
    split; [reflexivity|].
    split; [repeat constructor|].
    split; [vm_compute; reflexivity|].
    split; [reflexivity|]. discriminate.
  - do 2 eexists.
    split; [vm_compute; reflexivity|].
    split; [vm_compute; reflexivity|].
    split; reflexivity.
Qed.

(** ** Lines the loader skips, and lines it cannot take *)

(** C8 (as the code has it): a line that is not blank and whose key, the
    text before its first colon (the whole line when it has none), is not
    one of the four recognized ones is skipped: the state is unchanged, no
    error is raised, and the dump loads as it would without the line. *)
Theorem unrecognized_line_ignored pre line post :
  Str.strip line <> EmptyString ->
  recognized (line_key line) = None ->
  (Str.contains_char ":" line = false -> line_key line = Str.strip line) /\
  (forall st, load_line st line = Ok st) /\
  load_networks (pre ++ line :: post) = load_networks (pre ++ post).
Proof.
  intros Hb Hk.
  assert (forall st, load_line st line = Ok st) as Hskip.
  { intros st. unfold load_line. destruct (Str.startswith "#" line); [reflexivity|].
    apply String.eqb_neq in Hb. rewrite Hb, Hk. reflexivity. }
  split; [|split; [exact Hskip|]].
  - intros Hc. unfold line_key. rewrite split_no_sep by exact Hc. reflexivity.
  - unfold load_networks. rewrite !load_loop_app.
    destruct (load_loop pre init_state) as [st|]; cbn [bind load_loop]; [|reflexivity].
    rewrite Hskip. reflexivity.
Qed.

Lemma unrecognized_line_ignored_witness :
  (Str.contains_char ":" "remarks without a colon" = false ->
   line_key "remarks without a colon" = Str.strip "remarks without a colon") /\
  (forall st, load_line st "remarks without a colon" = Ok st) /\
  load_networks (ex_record "1.2.3.0 - 1.2.3.255" "EXAMPLE-NET" "Example" "US"
                   ++ "remarks without a colon" :: [nl]) =
  load_networks (ex_record "1.2.3.0 - 1.2.3.255" "EXAMPLE-NET" "Example" "US" ++ [nl]).
Proof.
  apply (unrecognized_line_ignored
           (ex_record "1.2.3.0 - 1.2.3.255" "EXAMPLE-NET" "Example" "US")
           "remarks without a colon" [nl]).
  - vm_compute. discriminate.
  - vm_compute. reflexivity.
Defined.

(** C8, the input at which the claim fails: a line without a colon whose
    text is a recognized key is not skipped, the loader raises
    [IndexError] on it. *)
Lemma bare_key_line_raises :
  Str.contains_char ":" ("netname" +:+ nl) = false /\
  load_networks [] = Ok ∅ /\
  load_networks ["netname" +:+ nl] = Err IndexError.
Proof. vm_compute. repeat split; reflexivity. Qed.

(** C10 (as the code has it): when no range is current, a [netname] or
    [country] line, and a [descr] line that does not directly follow
    another [descr] line, make [load_networks] raise [TypeError]. *)
Theorem attribute_without_range_raises pre line post st key value :
  load_loop pre init_state = Ok st ->
  current_range st = None ->
  is_line line key value ->
  key <> Kinetnum ->
  ~ (key = Kdescr /\ prev_key st = Some Kdescr) ->
  load_networks (pre ++ line :: post) = Err TypeError.
Proof.
  intros Hpre Hcr Hline Hk Hd. unfold load_networks.
  rewrite load_loop_app, Hpre. cbn [bind load_loop].
  rewrite (load_line_kv _ _ _ _ Hline).
  assert (is_descr key && bool_decide (prev_key st = Some Kdescr) = false) as ->.
  { destruct key; try reflexivity. cbn. apply bool_decide_eq_false_2. tauto. }
  rewrite bool_decide_eq_false_2 by exact Hk. cbn [bind]. rewrite Hcr. reflexivity.
Qed.

Lemma attribute_without_range_raises_witness :
  load_networks (ex_record "1.2.3.0 - 1.2.3.255" "EXAMPLE-NET" "Example" "US" ++ [nl]
                   ++ ("country:        AU" +:+ nl) :: [nl])
  = Err TypeError.
Proof.
  rewrite app_assoc.
  eapply (attribute_without_range_raises _ _ _ _ Kcountry "AU").
  - vm_compute. reflexivity.
  - reflexivity.
  - check_line.
  - discriminate.
  - intros [H _]. discriminate.
Defined.

(** C10, the input at which the claim fails: a [descr] line after a
    blank line, with no range current, is skipped without any error when
    the line before the blank one was a [descr] line too. *)
Lemma descr_after_blank_is_skipped :
  exists st t,
    load_loop ["inetnum: 1.2.3.0 - 1.2.3.255" +:+ nl; "netname: EXAMPLE-NET" +:+ nl;
               "country: US" +:+ nl; "descr: first" +:+ nl; nl] init_state = Ok st /\
    current_range st = None /\
    is_line ("descr: stray" +:+ nl) Kdescr "stray" /\
    load_networks (["inetnum: 1.2.3.0 - 1.2.3.255" +:+ nl; "netname: EXAMPLE-NET" +:+ nl;
                    "country: US" +:+ nl; "descr: first" +:+ nl; nl]
                     ++ [("descr: stray" +:+ nl)]) = Ok t.
Proof.
  eexists. eexists. split; [vm_compute; reflexivity|].
  split; [reflexivity|]. split.
  - check_line.
  - vm_compute. reflexivity.
Qed.

(** C5, evaluated where the code departs from it: a second [descr] line
    of the same record that does not directly follow the first replaces
    the stored description. *)
Lemma later_descr_overwrites :
  load_networks ["inetnum: 1.2.3.0 - 1.2.3.255" +:+ nl; "netname: EXAMPLE-NET" +:+ nl;
                 "descr: first" +:+ nl; "country: US" +:+ nl; "descr: second" +:+ nl]
  = Ok {[ Net 16909056 24 :=
            mkEntry (Some "1.2.3.0/24") (Some 256) (Some "1.2.3.0 - 1.2.3.255")
                    (Some "EXAMPLE-NET") (Some "US") (Some "second") None ]}.
Proof. vm_compute. reflexivity. Qed.

(** ** The final filter *)

Lemma existsb_eqb_elem name (l : list string) :
  existsb (String.eqb name) l = true <-> name ∈ l.
Proof.
  rewrite existsb_exists. split.
  - intros (x & Hx & He). apply String.eqb_eq in He. subst. apply list_elem_of_In. exact Hx.
  - intros H. exists name. split; [apply list_elem_of_In; exact H | apply String.eqb_refl].
Qed.

Lemma keep_entry_true v : keep_entry v = Ok true <-> real_allocation v.
Proof.
  unfold keep_entry, real_allocation, placeholder_name. split.
  - destruct (netname v) as [name|]; cbn [getitem bind]; [|discriminate].
    destruct (existsb _ _) eqn:Hg; [discriminate|].
    destruct (Str.startswith "IANA-NETBLOCK" name) eqn:Hi; [discriminate|].
    destruct (Str.startswith "STUB-" name) eqn:Hs; [discriminate|].
    destruct (country v) as [c|]; cbn [getitem bind]; [|discriminate].
    destruct (String.eqb_spec c "ZZ") as [->|Hc]; [discriminate|]. intros _.
    exists name, c. repeat (split; [reflexivity|]). split; [|exact Hc].
    intros [H|[H|H]]; [|congruence|congruence].
    apply existsb_eqb_elem in H. congruence.
  - intros (name & c & -> & -> & Hp & Hc). cbn [getitem bind].
    destruct (existsb _ _) eqn:Hg.
    { exfalso. apply Hp. left. apply existsb_eqb_elem. exact Hg. }
    destruct (Str.startswith "IANA-NETBLOCK" name) eqn:Hi; [exfalso; apply Hp; auto|].
    destruct (Str.startswith "STUB-" name) eqn:Hs; [exfalso; apply Hp; auto|].
    apply String.eqb_neq in Hc. rewrite Hc. reflexivity.
Qed.

Lemma keep_entry_total v :
  is_Some (netname v) -> is_Some (country v) -> exists b, keep_entry v = Ok b.
Proof.
  intros [name Hn] [c Hc]. unfold keep_entry. rewrite Hn, Hc. cbn [getitem bind].
  destruct (existsb _ _); [eauto|].
  destruct (Str.startswith "IANA-NETBLOCK" name); [eauto|].
  destruct (Str.startswith "STUB-" name); eauto.
Qed.

Lemma remove_generic_lookup (d t : Table) :
  remove_generic d = Ok t ->
  forall k v, t !! k = Some v <-> d !! k = Some v /\ real_allocation v.
Proof.
  unfold remove_generic. intros H.
  destruct (filterM _ _) as [kept|] eqn:Hk; cbn [bind] in H; [|discriminate].
  injection H as <-. destruct (filterM_ok _ _ _ Hk) as (_ & Hmem & _).
  intros k v. split.
  - intros Hl. apply elem_of_list_to_map_2 in Hl. apply Hmem in Hl as [Hin Hkeep].
    apply elem_of_map_to_list in Hin. cbn in Hkeep. rewrite keep_entry_true in Hkeep.
    split; assumption.
  - intros [Hd Hr]. apply elem_of_list_to_map_1'.
    + intros y Hy. apply Hmem in Hy as [Hy _]. apply elem_of_map_to_list in Hy. congruence.
    + apply Hmem. split; [apply elem_of_map_to_list; exact Hd|].
      cbn. apply keep_entry_true. exact Hr.
Qed.

Lemma remove_generic_total (d : Table) :
  (forall k v, d !! k = Some v -> is_Some (netname v) /\ is_Some (country v)) ->
  exists t, remove_generic d = Ok t.
Proof.
  intros H. unfold remove_generic.
  destruct (filterM_total (fun kv : IPv4Network * Entry => keep_entry (snd kv))
              (map_to_list d)) as [kept ->].
  - intros [k v] Hin. apply elem_of_map_to_list in Hin.
    destruct (H _ _ Hin) as [Hn Hc]. apply keep_entry_total; assumption.
  - cbn. eauto.
Qed.



Example generic_blocks_removed_example :
  load_networks ex_dump_generic =
  Ok {[ Net 16909056 24 :=
          mkEntry (Some "1.2.3.0/24") (Some 256) (Some "1.2.3.0 - 1.2.3.255")
                  (Some "EXAMPLE-NET") (Some "US") (Some "Example") None ]}.
Proof. vm_compute. reflexivity. Qed.

(** ** Two records claiming one block *)

Lemma load_blank st line :
  is_blank line -> load_line st line = Ok (mkState (data st) None (prev_key st)).
Proof.
  intros [Hc Hb]. unfold load_line. rewrite Hc, Hb. reflexivity.
Qed.

Lemma aw_overlay f x y : attr_writes f -> f (overlay x y) = overlay (f x) y.
Proof.
  intros Hf. revert x. induction Hf as [|k v f Hk Hf IH]; intros x; [reflexivity|].
  rewrite <- IH. f_equal. destruct k; reflexivity.
Qed.

Lemma aw_origin f c n e : attr_writes f -> f (set_origin c n e) = set_origin c n (f e).
Proof.
  intros Hf. revert e. induction Hf as [|k v f Hk Hf IH]; intros e; [reflexivity|].
  rewrite <- IH. f_equal. destruct k; reflexivity.
Qed.

Lemma aw_fields f e :
  attr_writes f ->
  cidr (f e) = cidr e /\ num_addr_orig (f e) = num_addr_orig e /\
  inetnum (f e) = inetnum e /\ ip_count (f e) = ip_count e.
Proof.
  intros Hf. revert e. induction Hf as [|k v f Hk Hf IH]; intros e; [auto|].
  destruct (IH (set_key k v e)) as (-> & -> & -> & ->).
  destruct k; [contradiction| | |]; auto.
Qed.

Lemma update_all_fmap f l (d : Table) k :
  NoDup l ->
  (forall x, x ∈ l -> is_Some (d !! x)) ->
  update_all (fun _ => f) l d !! k = if decide (k ∈ l) then f <$> d !! k else d !! k.
Proof.
  intros Hnd Hin. rewrite update_all_lookup by exact Hnd.
  destruct (decide (k ∈ l)) as [Hk|]; [|reflexivity].
  destruct (Hin _ Hk) as [v ->]. reflexivity.
Qed.

(** The lines of a record after its [inetnum] line apply one sequence of
    writes to every block of the current range, a sequence fixed by the
    lines and by the key of the line before them. *)
Lemma load_body body :
  Forall (fun l => is_attribute l \/ is_ignored l) body ->
  forall p, exists f,
    attr_writes f /\
    forall st r,
      prev_key st = p -> current_range st = Some r -> NoDup r ->
      (forall x, x ∈ r -> is_Some (data st !! x)) ->
      exists st',
        load_loop body st = Ok st' /\
        current_range st' = Some r /\
        forall k, data st' !! k = if decide (k ∈ r) then f <$> data st !! k else data st !! k.
Proof.
  induction 1 as [|line body Hline _ IH]; intros p.
  - exists (fun e => e). split; [constructor|]. intros st r Hp Hr Hnd Hin.
    exists st. split; [reflexivity|]. split; [exact Hr|]. intros k.
    destruct (decide (k ∈ r)); [|reflexivity]. destruct (data st !! k); reflexivity.
  - destruct Hline as [(k & v & Hl & Hk)|Hign].
    + destruct (bool_decide (p = Some Kdescr) && is_descr k) eqn:Hsk.
      * (* a repeated descr: skipped *)
        destruct (IH p) as (f & Hf & Hrun). exists f. split; [exact Hf|].
        intros st r Hp Hr Hnd Hin. cbn [load_loop].
        rewrite (load_line_kv _ _ _ _ Hl), Hp, andb_comm, Hsk. cbn [bind].
        apply Hrun; assumption.
      * destruct (IH (Some k)) as (f & Hf & Hrun).
        exists (fun e => f (set_key k v e)). split; [constructor; assumption|].
        intros st r Hp Hr Hnd Hin. cbn [load_loop].
        rewrite (load_line_kv _ _ _ _ Hl), Hp, andb_comm, Hsk.
        rewrite bool_decide_eq_false_2 by exact Hk. cbn [bind]. rewrite Hr.
        destruct (Hrun (mkState (update_all (fun _ => set_key k v) r (data st))
                                (Some r) (Some k)) r) as (st' & Hst' & Hr' & Hd').
        { reflexivity. }
        { reflexivity. }
        { exact Hnd. }
        { intros x Hx. cbn [data]. apply update_all_dom. left. exact Hx. }
        exists st'. split; [exact Hst'|]. split; [exact Hr'|].
        intros x. rewrite Hd'. cbn [data].
        rewrite (update_all_fmap _ _ _ _ Hnd Hin).
        destruct (decide (x ∈ r)); [|reflexivity].
        destruct (data st !! x); reflexivity.
    + destruct (IH p) as (f & Hf & Hrun). exists f. split; [exact Hf|].
      intros st r Hp Hr Hnd Hin. cbn [load_loop].
      assert (load_line st line = Ok st) as ->.
      { unfold load_line. destruct Hign as [->|[Hb Hu]]; [reflexivity|].
        destruct (Str.startswith "#" line); [reflexivity|].
        apply String.eqb_neq in Hb. rewrite Hb, Hu. reflexivity. }
      cbn [bind]. apply Hrun; assumption.
Qed.

Lemma overlay_base vi c n e :
  set_key Kinetnum vi (set_origin c n e) =
  overlay (set_key Kinetnum vi (set_origin c n empty_entry)) e.
Proof. destruct e. reflexivity. Qed.

(** What a record leaves in the table, whatever its lines after the
    [inetnum] line: the same writes on every block it populates. *)
Lemma load_any_record lines vi start_ip end_ip s e blocks :
  is_any_record lines vi ->
  is_range vi start_ip end_ip s e ->
  split_range (Str.strip start_ip) (Str.strip end_ip) = Ok blocks ->
  exists f, attr_writes f /\ record_loads lines vi (e - s + 1) blocks f.
Proof.
  intros (li & body & -> & Hi & Hbody) (Hsp & Hs & He & Hle) Hblocks.
  destruct (load_body body Hbody (Some Kinetnum)) as (f & Hf & Hrun).
  exists f. split; [exact Hf|]. intros st Hst.
  destruct (load_inetnum_line st li vi _ _ _ _ Hst Hi Hsp Hs He Hle)
    as (blocks' & kept & Hsr & Ht & Hnd & Hmem & Hload).
  rewrite Hblocks in Hsr. injection Hsr as <-.
  destruct (Hrun (mkState
                    (update_all (fun _ => set_key Kinetnum vi) kept
                       (update_all (fun k => set_origin (str_network k) (e - s + 1)) kept
                          (data st)))
                    (Some kept) (Some Kinetnum)) kept) as (st' & Hst' & _ & Hd').
  { reflexivity. }
  { reflexivity. }
  { exact Hnd. }
  { intros x Hx. cbn [data]. rewrite load_inetnum_line_lookup by exact Hnd.
    rewrite decide_True by exact Hx. eauto. }
  exists kept, st'. split; [exact Hmem|]. split.
  - cbn [load_loop]. rewrite Hload. cbn [bind]. exact Hst'.
  - intros k. rewrite Hd'. cbn [data]. rewrite load_inetnum_line_lookup by exact Hnd.
    destruct (decide (k ∈ kept)); [|reflexivity].
    unfold fresh_entry. rewrite <- overlay_base. reflexivity.
Qed.

Lemma carries_overlay own old : carries own (overlay own old).
Proof.
  unfold carries, overlay. cbn.
  repeat split; intros x Hx; rewrite Hx; reflexivity.
Qed.

Lemma overlay_covers own old :
  is_Some (cidr own) -> is_Some (num_addr_orig own) -> is_Some (inetnum own) ->
  ip_count old = None ->
  covers own old -> overlay own old = own.
Proof.
  intros [c Hc] [n Hn] [i Hi] Hcount (H1 & H2 & H3).
  destruct own as [oc on oi onn oco od oip], old as [c' n' i' nn' co' d' ip'].
  cbn in *. subst. unfold overlay. cbn.
  f_equal.
  - destruct onn; [reflexivity|]. destruct nn'; [|reflexivity].
    destruct H1 as [? H1]; [eauto | discriminate].
  - destruct oco; [reflexivity|]. destruct co'; [|reflexivity].
    destruct H2 as [? H2]; [eauto | discriminate].
  - destruct od; [reflexivity|]. destruct d'; [|reflexivity].
    destruct H3 as [? H3]; [eauto | discriminate].
  - destruct oip; reflexivity.
Qed.

Lemma named_overlay own old : named own -> named (overlay own old).
Proof.
  intros [[n Hn] [c Hc]]. unfold named, overlay. cbn. rewrite Hn, Hc. cbn. eauto.
Qed.

Lemma carries_real own v : carries own v -> real_allocation own -> real_allocation v.
Proof.
  intros (_ & _ & _ & Hn & Hc & _) (name & c & Hname & Hcc & Hp & Hz).
  exists name, c. auto.
Qed.

Lemma overlay_empty e : overlay e empty_entry = e.
Proof. destruct e as [[] [] [] [] [] [] []]; reflexivity. Qed.

Lemma aw_fresh f k n vi :
  attr_writes f ->
  cidr (f (fresh_entry k n vi)) = Some (str_network k) /\
  num_addr_orig (f (fresh_entry k n vi)) = Some n /\
  inetnum (f (fresh_entry k n vi)) = Some vi /\
  ip_count (f (fresh_entry k n vi)) = None.
Proof.
  intros Hf. destruct (aw_fields f (fresh_entry k n vi) Hf) as (-> & -> & -> & ->).
  repeat split.
Qed.

Lemma aw_fresh_named f k k' n vi :
  attr_writes f -> named (f (fresh_entry k n vi)) -> named (f (fresh_entry k' n vi)).
Proof.
  intros Hf. unfold fresh_entry, named.
  replace (set_key Kinetnum vi (set_origin (str_network k) n empty_entry))
    with (set_origin (str_network k) n (set_key Kinetnum vi empty_entry)) by reflexivity.
  replace (set_key Kinetnum vi (set_origin (str_network k') n empty_entry))
    with (set_origin (str_network k') n (set_key Kinetnum vi empty_entry)) by reflexivity.
  rewrite !aw_origin by exact Hf. cbn. tauto.
Qed.

(** A record loaded alone. *)
Lemma record_alone lines vi n blocks f :
  record_loads lines vi n blocks f ->
  exists st,
    load_loop lines init_state = Ok st /\
    forall k, data st !! k =
              if decide (k ∈ blocks) then Some (f (fresh_entry k n vi)) else None.
Proof.
  intros Hrec. destruct (Hrec init_state init_loaded) as (kept & st & Hmem & Hload & Hd).
  exists st. split; [exact Hload|]. intros k. rewrite Hd. cbn [data init_state].
  rewrite lookup_empty. cbn [default]. rewrite overlay_empty.
  assert (k ∈ kept <-> k ∈ blocks) as Hk.
  { rewrite Hmem. split; [tauto|]. intros Hin. split; [exact Hin|].
    intros (v & m & Hv & _). cbn in Hv. rewrite lookup_empty in Hv. discriminate. }
  destruct (decide (k ∈ kept)) as [Hin|Hnin].
  - rewrite decide_True by (apply Hk; exact Hin). reflexivity.
  - rewrite decide_False by (rewrite <- Hk; exact Hnin). reflexivity.
Qed.

(** The table two records of any shape leave, the second loaded after a
    blank line. *)
Lemma load_two_any_records lines1 lines2 blank vi1 vi2 n1 n2 blocks1 blocks2 f1 f2 :
  is_blank blank ->
  attr_writes f1 -> attr_writes f2 ->
  record_loads lines1 vi1 n1 blocks1 f1 ->
  record_loads lines2 vi2 n2 blocks2 f2 ->
  exists st,
    load_loop (lines1 ++ blank :: lines2) init_state = Ok st /\
    forall k,
      data st !! k =
        if decide (k ∈ blocks2 /\ ~ (k ∈ blocks1 /\ n1 < n2))
        then Some (overlay (f2 (fresh_entry k n2 vi2))
                     (if decide (k ∈ blocks1) then f1 (fresh_entry k n1 vi1)
                      else empty_entry))
        else if decide (k ∈ blocks1) then Some (f1 (fresh_entry k n1 vi1)) else None.
Proof.
  intros Hb Hf1 Hf2 Hrec1 Hrec2.
  destruct (record_alone _ _ _ _ _ Hrec1) as (st1 & Hload1 & Hd1).
  pose proof (load_loop_loaded _ _ _ init_loaded Hload1) as Hst1.
  assert (loaded (mkState (data st1) None (prev_key st1))) as Hst1'.
  { destruct Hst1 as [Ha _]. split; [exact Ha | discriminate]. }
  destruct (Hrec2 _ Hst1') as (kept2 & st2 & Hmem2 & Hload2 & Hd2).
  cbn [data] in Hmem2, Hd2.
  exists st2. split.
  { rewrite load_loop_app, Hload1. cbn [bind load_loop].
    rewrite (load_blank _ _ Hb). cbn [bind]. exact Hload2. }
  assert (forall k, k ∈ kept2 <-> k ∈ blocks2 /\ ~ (k ∈ blocks1 /\ n1 < n2)) as Hk2.
  { intros k. rewrite Hmem2. unfold smaller_exists.
    split; intros [Hk Hn]; (split; [exact Hk|]).
    - intros [Hin Hlt]. apply Hn. eexists _, _. rewrite Hd1.
      rewrite decide_True by exact Hin. split; [reflexivity|].
      split; [apply aw_fresh; exact Hf1 | exact Hlt].
    - intros (v & n & Hv & Hvn & Hlt). rewrite Hd1 in Hv.
      destruct (decide (k ∈ blocks1)) as [Hin|]; [|discriminate].
      injection Hv as <-.
      destruct (aw_fresh f1 k n1 vi1 Hf1) as (_ & Hn1 & _). rewrite Hn1 in Hvn.
      injection Hvn as <-. tauto. }
  intros k. rewrite Hd2, Hd1.
  destruct (decide (k ∈ kept2)) as [Hin|Hnin];
    destruct (decide (k ∈ blocks2 /\ ~ (k ∈ blocks1 /\ n1 < n2))) as [Hy|Hn].
  - rewrite (aw_overlay f2) by exact Hf2.
    destruct (decide (k ∈ blocks1)); reflexivity.
  - exfalso. apply Hn, Hk2, Hin.
  - exfalso. apply Hnin, Hk2, Hy.
  - reflexivity.
Qed.

(** C3 (as the code has it): of two records of any shape that both
    produce a block, the one with the smaller original range (50
    addresses against 100, say) decides every key it sets in the block's
    entry, whichever of the two comes first in the dump: its [cidr],
    [num_addr_orig] and [inetnum], and each attribute it has a line for.
    Loaded first, it leaves exactly its own entry; loaded second, it
    leaves an entry that carries its own one, and exactly its own one
    when it sets every attribute the larger record sets.  The same holds
    of the table [load_networks] returns when the smaller record's entry
    passes the filter, and [load_networks] returns a table in both orders
    when both records have a name and a country. *)
Theorem smaller_range_wins recA recB blank b
    viA viB sA_ip eA_ip sA eA sB_ip eB_ip sB eB blocksA blocksB :
  is_any_record recA viA -> is_range viA sA_ip eA_ip sA eA ->
  is_any_record recB viB -> is_range viB sB_ip eB_ip sB eB ->
  is_blank blank ->
  split_range (Str.strip sA_ip) (Str.strip eA_ip) = Ok blocksA ->
  split_range (Str.strip sB_ip) (Str.strip eB_ip) = Ok blocksB ->
  b ∈ blocksA -> b ∈ blocksB ->
  eB - sB + 1 < eA - sA + 1 ->
  exists stA stB ownA ownB stAB stBA vAB,
    load_loop recA init_state = Ok stA /\ data stA !! b = Some ownA /\
    load_loop recB init_state = Ok stB /\ data stB !! b = Some ownB /\
    cidr ownB = Some (str_network b) /\
    num_addr_orig ownB = Some (eB - sB + 1) /\
    inetnum ownB = Some viB /\
    load_loop (recA ++ blank :: recB) init_state = Ok stAB /\
    load_loop (recB ++ blank :: recA) init_state = Ok stBA /\
    data stAB !! b = Some vAB /\
    carries ownB vAB /\
    data stBA !! b = Some ownB /\
    (covers ownB ownA -> vAB = ownB) /\
    (real_allocation ownB ->
     (forall t, load_networks (recA ++ blank :: recB) = Ok t -> t !! b = Some vAB) /\
     (forall t, load_networks (recB ++ blank :: recA) = Ok t -> t !! b = Some ownB)) /\
    (named ownA -> named ownB ->
     exists t1 t2,
       load_networks (recA ++ blank :: recB) = Ok t1 /\
       load_networks (recB ++ blank :: recA) = Ok t2).
Proof.
  intros HrA HgA HrB HgB Hblank HsA HsB HbA HbB Hlt.
  destruct (load_any_record _ _ _ _ _ _ _ HrA HgA HsA) as (fA & HfA & HlA).
  destruct (load_any_record _ _ _ _ _ _ _ HrB HgB HsB) as (fB & HfB & HlB).
  set (nA := eA - sA + 1) in *. set (nB := eB - sB + 1) in *.
  destruct (record_alone _ _ _ _ _ HlA) as (stA & HloadA & HdA).
  destruct (record_alone _ _ _ _ _ HlB) as (stB & HloadB & HdB).
  destruct (load_two_any_records recA recB blank _ _ _ _ _ _ _ _ Hblank HfA HfB HlA HlB)
    as (stAB & HloadAB & HdAB).
  destruct (load_two_any_records recB recA blank _ _ _ _ _ _ _ _ Hblank HfB HfA HlB HlA)
    as (stBA & HloadBA & HdBA).
  set (ownA := fA (fresh_entry b nA viA)). set (ownB := fB (fresh_entry b nB viB)).
  destruct (aw_fresh fB b nB viB HfB) as (HcB & HnB & HiB & HipB).
  destruct (aw_fresh fA b nA viA HfA) as (_ & _ & _ & HipA).
  assert (data stAB !! b = Some (overlay ownB ownA)) as HAB.
  { rewrite HdAB. rewrite decide_True by (split; [exact HbB | lia]).
    rewrite decide_True by exact HbA. reflexivity. }
  assert (data stBA !! b = Some ownB) as HBA.
  { rewrite HdBA.
    rewrite decide_False by (intros [_ Hn]; apply Hn; split; [exact HbB | exact Hlt]).
    rewrite decide_True by exact HbB. reflexivity. }
  exists stA, stB, ownA, ownB, stAB, stBA, (overlay ownB ownA).
  split; [exact HloadA|]. split; [rewrite HdA, decide_True by exact HbA; reflexivity|].
  split; [exact HloadB|]. split; [rewrite HdB, decide_True by exact HbB; reflexivity|].
  split; [exact HcB|]. split; [exact HnB|]. split; [exact HiB|].
  split; [exact HloadAB|]. split; [exact HloadBA|].
  split; [exact HAB|]. split; [apply carries_overlay|]. split; [exact HBA|].
  split; [|split].
  - apply overlay_covers;
      [eexists; exact HcB | eexists; exact HnB | eexists; exact HiB | exact HipA].
  - intros Hreal. split; intros t Ht; unfold load_networks in Ht.
    + rewrite HloadAB in Ht. cbn [bind] in Ht.
      apply (remove_generic_lookup _ _ Ht). split; [exact HAB|].
      apply (carries_real ownB); [apply carries_overlay | exact Hreal].
    + rewrite HloadBA in Ht. cbn [bind] in Ht.
      apply (remove_generic_lookup _ _ Ht). split; [exact HBA | exact Hreal].
  - intros HnA HnB'.
    assert (forall k, named (fA (fresh_entry k nA viA))) as HallA.
    { intros k. apply (aw_fresh_named fA b k); assumption. }
    assert (forall k, named (fB (fresh_entry k nB viB))) as HallB.
    { intros k. apply (aw_fresh_named fB b k); assumption. }
    destruct (remove_generic_total (data stAB)) as [t1 Ht1].
    { intros k v. rewrite HdAB.
      destruct (decide (k ∈ blocksB /\ ~ (k ∈ blocksA /\ nA < nB))).
      - intros [= <-]. apply named_overlay, HallB.
      - destruct (decide (k ∈ blocksA)); [|discriminate]. intros [= <-]. apply HallA. }
    destruct (remove_generic_total (data stBA)) as [t2 Ht2].
    { intros k v. rewrite HdBA.
      destruct (decide (k ∈ blocksA /\ ~ (k ∈ blocksB /\ nB < nA))).
      - intros [= <-]. apply named_overlay, HallA.
      - destruct (decide (k ∈ blocksB)); [|discriminate]. intros [= <-]. apply HallB. }
    exists t1, t2. unfold load_networks. rewrite HloadAB, HloadBA. cbn [bind]. auto.
Qed.

Lemma smaller_range_wins_witness :
  exists stA stB ownA ownB stAB stBA vAB,
    load_loop (ex_record "1.2.3.0 - 1.2.3.99" "BIG-NET" "Big" "AU") init_state = Ok stA /\
    data stA !! Net 16909120 27 = Some ownA /\
    load_loop ["inetnum:        1.2.3.64 - 1.2.3.113" +:+ nl;
               "netname:        SMALL-NET" +:+ nl;
               "status:         ASSIGNED" +:+ nl;
               "country:        NZ" +:+ nl] init_state = Ok stB /\
    data stB !! Net 16909120 27 = Some ownB /\
    cidr ownB = Some (str_network (Net 16909120 27)) /\
    num_addr_orig ownB = Some (16909169 - 16909120 + 1) /\
    inetnum ownB = Some "1.2.3.64 - 1.2.3.113" /\
    load_loop (ex_record "1.2.3.0 - 1.2.3.99" "BIG-NET" "Big" "AU"
                 ++ nl :: ["inetnum:        1.2.3.64 - 1.2.3.113" +:+ nl;
                           "netname:        SMALL-NET" +:+ nl;
                           "status:         ASSIGNED" +:+ nl;
                           "country:        NZ" +:+ nl]) init_state = Ok stAB /\
    load_loop (["inetnum:        1.2.3.64 - 1.2.3.113" +:+ nl;
                "netname:        SMALL-NET" +:+ nl;
                "status:         ASSIGNED" +:+ nl;
                "country:        NZ" +:+ nl]
                 ++ nl :: ex_record "1.2.3.0 - 1.2.3.99" "BIG-NET" "Big" "AU") init_state
      = Ok stBA /\
    data stAB !! Net 16909120 27 = Some vAB /\
    carries ownB vAB /\
    data stBA !! Net 16909120 27 = Some ownB /\
    (covers ownB ownA -> vAB = ownB) /\
    (real_allocation ownB ->
     (forall t,
        load_networks (ex_record "1.2.3.0 - 1.2.3.99" "BIG-NET" "Big" "AU"
                         ++ nl :: ["inetnum:        1.2.3.64 - 1.2.3.113" +:+ nl;
                                   "netname:        SMALL-NET" +:+ nl;
                                   "status:         ASSIGNED" +:+ nl;
                                   "country:        NZ" +:+ nl]) = Ok t ->
        t !! Net 16909120 27 = Some vAB) /\
     (forall t,
        load_networks (["inetnum:        1.2.3.64 - 1.2.3.113" +:+ nl;
                        "netname:        SMALL-NET" +:+ nl;
                        "status:         ASSIGNED" +:+ nl;
                        "country:        NZ" +:+ nl]
                         ++ nl :: ex_record "1.2.3.0 - 1.2.3.99" "BIG-NET" "Big" "AU") = Ok t ->
        t !! Net 16909120 27 = Some ownB)) /\
    (named ownA -> named ownB ->
     exists t1 t2,
       load_networks (ex_record "1.2.3.0 - 1.2.3.99" "BIG-NET" "Big" "AU"
                        ++ nl :: ["inetnum:        1.2.3.64 - 1.2.3.113" +:+ nl;
                                  "netname:        SMALL-NET" +:+ nl;
                                  "status:         ASSIGNED" +:+ nl;
                                  "country:        NZ" +:+ nl]) = Ok t1 /\
       load_networks (["inetnum:        1.2.3.64 - 1.2.3.113" +:+ nl;
                       "netname:        SMALL-NET" +:+ nl;
                       "status:         ASSIGNED" +:+ nl;
                       "country:        NZ" +:+ nl]
                        ++ nl :: ex_record "1.2.3.0 - 1.2.3.99" "BIG-NET" "Big" "AU") = Ok t2).
Proof.
  apply (smaller_range_wins
           (ex_record "1.2.3.0 - 1.2.3.99" "BIG-NET" "Big" "AU")
           ["inetnum:        1.2.3.64 - 1.2.3.113" +:+ nl;
            "netname:        SMALL-NET" +:+ nl;
            "status:         ASSIGNED" +:+ nl;
            "country:        NZ" +:+ nl]
           nl (Net 16909120 27)
           "1.2.3.0 - 1.2.3.99" "1.2.3.64 - 1.2.3.113"
           "1.2.3.0 " " 1.2.3.99" 16909056 16909155
           "1.2.3.64 " " 1.2.3.113" 16909120 16909169
           [Net 16909056 26; Net 16909120 27; Net 16909152 30]
           [Net 16909120 27; Net 16909152 28; Net 16909168 31]).
  - do 2 eexists. split; [reflexivity|]. split; [check_line|].
    constructor; [left; exists Knetname, "BIG-NET"; split; [check_line | discriminate]|].
    constructor; [left; exists Kdescr, "Big"; split; [check_line | discriminate]|].
    constructor; [left; exists Kcountry, "AU"; split; [check_line | discriminate]|].
    constructor.
  - repeat split; try (vm_compute; reflexivity). lia.
  - do 2 eexists. split; [reflexivity|]. split; [check_line|].
    constructor; [left; exists Knetname, "SMALL-NET"; split; [check_line | discriminate]|].
    constructor; [right; right; split; [vm_compute; discriminate | vm_compute; reflexivity]|].
    constructor; [left; exists Kcountry, "NZ"; split; [check_line | discriminate]|].
    constructor.
  - repeat split; try (vm_compute; reflexivity). lia.
  - split; vm_compute; reflexivity.
  - vm_compute. reflexivity.
  - vm_compute. reflexivity.
  - repeat constructor.
  - repeat constructor.
  - lia.
Defined.

(** C3, the input at which the claim fails: the size-50 record has no
    [descr] line.  Loaded after the size-100 record it leaves an entry
    that still has the [descr] of the size-100 record; loaded before, an
    entry with no [descr]: the entry is not the size-50 record's alone,
    and it depends on the order. *)
Lemma stale_descr_depends_on_order :
  exists t1 t2 v1 v2,
    load_networks (ex_record "1.2.3.0 - 1.2.3.99" "BIG-NET" "Big" "AU"
                     ++ nl :: ["inetnum:        1.2.3.64 - 1.2.3.113" +:+ nl;
                               "netname:        SMALL-NET" +:+ nl;
                               "country:        NZ" +:+ nl]) = Ok t1 /\
    load_networks (["inetnum:        1.2.3.64 - 1.2.3.113" +:+ nl;
                    "netname:        SMALL-NET" +:+ nl;
                    "country:        NZ" +:+ nl]
                     ++ nl :: ex_record "1.2.3.0 - 1.2.3.99" "BIG-NET" "Big" "AU") = Ok t2 /\
    t1 !! Net 16909120 27 = Some v1 /\
    t2 !! Net 16909120 27 = Some v2 /\
    num_addr_orig v1 = Some 50 /\ netname v1 = Some "SMALL-NET" /\
    num_addr_orig v2 = Some 50 /\ netname v2 = Some "SMALL-NET" /\
    descr v1 = Some "Big" /\
    descr v2 = None /\
    v1 <> v2.
Proof.
  do 4 eexists.
  split; [vm_compute; reflexivity|].
  split; [vm_compute; reflexivity|].
  split; [vm_compute; reflexivity|].
  split; [vm_compute; reflexivity|].
  repeat (split; [reflexivity|]). discriminate.
Qed.

(** ** The counting pass *)

Lemma mask_lengths : py_range 31 6 (-1) =
  [31; 30; 29; 28; 27; 26; 25; 24; 23; 22; 21; 20; 19; 18; 17; 16; 15; 14; 13;
   12; 11; 10; 9; 8; 7].
Proof. vm_compute. reflexivity. Qed.

Lemma mask_lengths_range p : p ∈ py_range 31 6 (-1) <-> 7 <= p <= 31.
Proof.
  unfold py_range. change (0 <? -1) with false. cbv iota.
  change ((31 - 6 - -1 - 1) / - -1) with 25.
  rewrite list_elem_of_fmap. split.
  - intros (i & -> & Hi). apply elem_of_seqZ in Hi. lia.
  - intros Hp. exists (31 - p). split; [lia|]. apply elem_of_seqZ. lia.
Qed.

Lemma mask_lengths_sorted : StronglySorted Z.gt (py_range 31 6 (-1)).
Proof.
  rewrite mask_lengths. repeat (constructor; [|repeat (constructor; [lia|]); constructor]).
  constructor.
Qed.

Lemma IPv4Network_of_int_prefix addr p strict b :
  IPv4Network_of_int addr p strict = Ok b -> prefixlen b = p.
Proof.
  unfold IPv4Network_of_int. destruct (_ || _); [discriminate|].
  destruct (negb _); [discriminate|].
  destruct (_ =? _); [intros [= <-]; reflexivity|].
  destruct strict; [discriminate | intros [= <-]; reflexivity].
Qed.

Lemma IPv4Network_of_str_prefix ip p strict b :
  IPv4Network_of_str ip p strict = Ok b -> prefixlen b = p.
Proof.
  unfold IPv4Network_of_str. destruct (Str.contains_char _ _); [discriminate|].
  destruct (IPv4Address ip); cbn [bind]; [|discriminate].
  apply IPv4Network_of_int_prefix.
Qed.

Lemma guess_subnets_prefix ip r b :
  r ∈ guess_subnets ip -> r = Ok b -> 7 <= prefixlen b <= 31.
Proof.
  unfold guess_subnets. intros Hr ->.
  apply list_elem_of_fmap in Hr as (p & Hb & Hp). symmetry in Hb.
  apply IPv4Network_of_str_prefix in Hb. apply mask_lengths_range in Hp. lia.
Qed.

Lemma IPv4Network_of_str_valid ip a p :
  IPv4Address ip = Ok a -> 0 <= p <= 32 ->
  IPv4Network_of_str ip p false = Ok (candidate a p).
Proof.
  intros Ha Hp. pose proof (IPv4Address_range _ _ Ha) as Hr.
  unfold IPv4Network_of_str. rewrite Ha.
  unfold IPv4Address in Ha. destruct (Str.contains_char "/" ip); [discriminate|].
  cbn [bind]. apply IPv4Network_of_int_masked; assumption.
Qed.

Lemma guess_subnets_valid ip a :
  IPv4Address ip = Ok a ->
  guess_subnets ip = map (fun p => Ok (candidate a p)) (py_range 31 6 (-1)).
Proof.
  intros Ha. unfold guess_subnets. apply map_ext_in. intros p Hp.
  apply list_elem_of_In, mask_lengths_range in Hp.
  apply IPv4Network_of_str_valid; [exact Ha | lia].
Qed.

Lemma contains_candidate a p :
  0 <= a < 2 ^ 32 -> 0 <= p <= 32 -> contains (candidate a p) a.
Proof.
  intros Ha Hp. unfold contains, netmask, candidate. cbn [prefixlen network_address].
  apply land_netmask; assumption.
Qed.

Lemma contains_is_candidate b a :
  0 <= a < 2 ^ 32 -> 0 <= prefixlen b <= 32 -> contains b a ->
  b = candidate a (prefixlen b).
Proof.
  intros Ha Hp Hc. unfold contains, netmask in Hc. rewrite land_netmask in Hc by assumption.
  destruct b as [n p]. cbn in *. unfold candidate. rewrite Hc. reflexivity.
Qed.

(** The first hit among the candidates of a descending list of prefix
    lengths is the candidate of the greatest length that is in the table. *)
Lemma first_hit_candidates a ps (networks : Table) :
  StronglySorted Z.gt ps ->
  exists r,
    first_hit (map (fun p => Ok (candidate a p)) ps) networks = Ok r /\
    match r with
    | Some b =>
        exists p, p ∈ ps /\ b = candidate a p /\ is_Some (networks !! b) /\
                  forall p', p' ∈ ps -> is_Some (networks !! candidate a p') -> p' <= p
    | None => forall p, p ∈ ps -> networks !! candidate a p = None
    end.
Proof.
  induction 1 as [|h t Ht IH Hh]; cbn [map first_hit bind].
  - exists None. split; [reflexivity|]. intros p Hp. inversion Hp.
  - destruct (networks !! candidate a h) as [obj|] eqn:Hl.
    + exists (Some (candidate a h)). split; [reflexivity|].
      exists h. split; [left|]. split; [reflexivity|]. split; [rewrite Hl; eauto|].
      intros p' Hp' _. apply elem_of_cons in Hp' as [->|Hp']; [lia|].
      rewrite Forall_forall in Hh. specialize (Hh _ Hp'). lia.
    + destruct IH as (r & Hr & Hspec). exists r. split; [exact Hr|].
      destruct r as [b|].
      * destruct Hspec as (p & Hp & Hb & Hin & Hmax).
        exists p. split; [right; exact Hp|]. split; [exact Hb|]. split; [exact Hin|].
        intros p' Hp' Hs. apply elem_of_cons in Hp' as [->|Hp'].
        -- rewrite Hl in Hs. destruct Hs as [? Hs]. discriminate.
        -- apply Hmax; assumption.
      * intros p Hp. apply elem_of_cons in Hp as [->|Hp]; [exact Hl | apply Hspec, Hp].
Qed.

(** What the loop of [count_ips] does, given where it breaks. *)
Lemma count_ip_loop_first_hit cands (networks : Table) :
  match first_hit cands networks with
  | Ok None => count_ip_loop cands networks = Ok networks
  | Ok (Some b) =>
      forall obj, networks !! b = Some obj ->
        count_ip_loop cands networks =
          do name <- getitem (netname (bump obj));
          do _ <- (if String.eqb name "APNIC-AP" then getitem (cidr (bump obj))
                   else Ok EmptyString);
          Ok (<[b := bump obj]> networks)
  | Err e => count_ip_loop cands networks = Err e
  end.
Proof.
  induction cands as [|c cands IH]; cbn [first_hit count_ip_loop].
  - reflexivity.
  - destruct c as [subnet|e]; cbn [bind]; [|reflexivity].
    destruct (networks !! subnet) as [obj|] eqn:Hl; [|exact IH].
    intros obj' Hobj. rewrite Hl in Hobj. injection Hobj as <-. reflexivity.
Qed.

Lemma count_ip_loop_frame cands (networks networks' : Table) b :
  (forall c s, c ∈ cands -> c = Ok s -> 7 <= prefixlen s <= 31) ->
  count_ip_loop cands networks = Ok networks' ->
  ~ (7 <= prefixlen b <= 31) ->
  networks' !! b = networks !! b.
Proof.
  intros Hc Hrun Hb. induction cands as [|c cands IH]; cbn [count_ip_loop] in Hrun.
  - injection Hrun as <-. reflexivity.
  - destruct c as [subnet|e]; cbn [bind] in Hrun; [|discriminate].
    destruct (networks !! subnet) as [obj|] eqn:Hl.
    + destruct (getitem (netname (bump obj))) as [name|]; cbn [bind] in Hrun; [|discriminate].
      destruct (if String.eqb name "APNIC-AP" then getitem (cidr (bump obj))
                else Ok EmptyString); cbn [bind] in Hrun; [|discriminate].
      injection Hrun as <-. apply lookup_insert_ne.
      intros ->. apply Hb. apply (Hc (Ok b)); [left | reflexivity].
    + apply IH; [|exact Hrun]. intros c' s Hc' Hs. apply (Hc c'); [right; exact Hc' | exact Hs].
Qed.

Lemma count_ips_frame lines (networks networks' : Table) b :
  count_ips lines networks = Ok networks' ->
  ~ (7 <= prefixlen b <= 31) ->
  networks' !! b = networks !! b.
Proof.
  intros Hrun Hb. revert networks Hrun.
  induction lines as [|ip lines IH]; intros networks Hrun; cbn [count_ips] in Hrun.
  - injection Hrun as <-. reflexivity.
  - destruct (count_ip_loop _ networks) as [n1|] eqn:H1; cbn [bind] in Hrun; [|discriminate].
    rewrite (IH _ Hrun). eapply count_ip_loop_frame; [|exact H1|exact Hb].
    intros c s Hc Hs. eapply guess_subnets_prefix; eassumption.
Qed.

Lemma lookup_most_specific_hit ip a (networks : Table) :
  IPv4Address ip = Ok a ->
  exists r,
    first_hit (guess_subnets ip) networks = Ok r /\
    match r with
    | Some b =>
        is_Some (networks !! b) /\ contains b a /\ 7 <= prefixlen b <= 31 /\
        (forall b', is_Some (networks !! b') -> contains b' a ->
                    7 <= prefixlen b' <= 31 -> prefixlen b' <= prefixlen b) /\
        (forall obj, networks !! b = Some obj ->
           is_Some (netname obj) ->
           (netname obj = Some "APNIC-AP" -> is_Some (cidr obj)) ->
           count_ip_loop (guess_subnets ip) networks = Ok (<[b := bump obj]> networks))
    | None =>
        (forall b', is_Some (networks !! b') -> contains b' a ->
                    ~ (7 <= prefixlen b' <= 31)) /\
        count_ip_loop (guess_subnets ip) networks = Ok networks
    end.
Proof.
  intros Ha.
  pose proof (IPv4Address_range _ _ Ha) as Hr.
  pose proof (count_ip_loop_first_hit (guess_subnets ip) networks) as Hcount.
  rewrite (guess_subnets_valid _ _ Ha) in *.
  destruct (first_hit_candidates a (py_range 31 6 (-1)) networks mask_lengths_sorted)
    as (r & Hfh & Hspec).
  rewrite Hfh in Hcount. exists r. split; [exact Hfh|].
  destruct r as [b|].
  - destruct Hspec as (p & Hp & -> & Hin & Hmax).
    apply mask_lengths_range in Hp.
    split; [exact Hin|]. split; [apply contains_candidate; lia|].
    split; [exact Hp|]. split.
    + intros b' Hin' Hc' Hp'. cbn [candidate prefixlen].
      apply Hmax; [apply mask_lengths_range; exact Hp'|].
      rewrite <- (contains_is_candidate b' a) by (assumption || lia). exact Hin'.
    + intros obj Hobj [name Hname] Hcidr. rewrite (Hcount _ Hobj).
      cbn [bump netname cidr]. rewrite Hname. cbn [getitem bind].
      destruct (String.eqb_spec name "APNIC-AP") as [->|_]; [|reflexivity].
      destruct (Hcidr Hname) as [c ->]. reflexivity.
  - split; [|exact Hcount].
    intros b' Hin' Hc' Hp'.
    rewrite (contains_is_candidate b' a) in Hin' by (assumption || lia).
    rewrite Hspec in Hin' by (apply mask_lengths_range; exact Hp').
    destruct Hin' as [? Hin']. discriminate.
Qed.

(** C1 (as the code has it): for every valid address, the loop of
    [count_ips] over [guess_subnets] breaks at the most specific block of
    the table that contains the address and has a prefix length from 7 to
    31, and bumps its counter; it finds nothing, and leaves the table as
    it is, when the table has no such block.  With [10.0.0.0/8] and
    [10.1.0.0/16] in the table, [10.1.2.3] hits the [/16]. *)
Theorem lookup_most_specific ip a (networks : Table) :
  IPv4Address ip = Ok a ->
  (exists r,
     first_hit (guess_subnets ip) networks = Ok r /\
     match r with
     | Some b =>
         is_Some (networks !! b) /\ contains b a /\ 7 <= prefixlen b <= 31 /\
         (forall b', is_Some (networks !! b') -> contains b' a ->
                     7 <= prefixlen b' <= 31 -> prefixlen b' <= prefixlen b) /\
         (forall obj, networks !! b = Some obj ->
            is_Some (netname obj) ->
            (netname obj = Some "APNIC-AP" -> is_Some (cidr obj)) ->
            count_ip_loop (guess_subnets ip) networks = Ok (<[b := bump obj]> networks))
     | None =>
         (forall b', is_Some (networks !! b') -> contains b' a ->
                     ~ (7 <= prefixlen b' <= 31)) /\
         count_ip_loop (guess_subnets ip) networks = Ok networks
     end) /\
  (forall e8 e16 : Entry,
     first_hit (guess_subnets "10.1.2.3")
               (<[Net 167772160 8 := e8]> {[Net 167837696 16 := e16]})
     = Ok (Some (Net 167837696 16))).
Proof.
  intros Ha. split; [|intros e8 e16; vm_compute; reflexivity].
  apply lookup_most_specific_hit. exact Ha.
Qed.

Lemma lookup_most_specific_witness :
  (exists r,
     first_hit (guess_subnets "10.1.2.3") ex_table = Ok r /\
     match r with
     | Some b =>
         is_Some (ex_table !! b) /\ contains b 167838211 /\ 7 <= prefixlen b <= 31 /\
         (forall b', is_Some (ex_table !! b') -> contains b' 167838211 ->
                     7 <= prefixlen b' <= 31 -> prefixlen b' <= prefixlen b) /\
         (forall obj, ex_table !! b = Some obj ->
            is_Some (netname obj) ->
            (netname obj = Some "APNIC-AP" -> is_Some (cidr obj)) ->
            count_ip_loop (guess_subnets "10.1.2.3") ex_table
              = Ok (<[b := bump obj]> ex_table))
     | None =>
         (forall b', is_Some (ex_table !! b') -> contains b' 167838211 ->
                     ~ (7 <= prefixlen b' <= 31)) /\
         count_ip_loop (guess_subnets "10.1.2.3") ex_table = Ok ex_table
     end) /\
  (forall e8 e16 : Entry,
     first_hit (guess_subnets "10.1.2.3")
               (<[Net 167772160 8 := e8]> {[Net 167837696 16 := e16]})
     = Ok (Some (Net 167837696 16))).
Proof.
  apply (lookup_most_specific "10.1.2.3" 167838211 ex_table).
  vm_compute. reflexivity.
Defined.

(** C1, the input at which the claim fails: the table loaded from a
    one-address range holds a [/32] block that contains the address, and
    the lookup of that address finds nothing and counts nothing. *)
Lemma host_route_is_missed :
  exists t,
    load_networks (ex_record "1.2.3.4 - 1.2.3.4" "HOST-NET" "Host" "US") = Ok t /\
    is_Some (t !! Net 16909060 32) /\
    IPv4Address "1.2.3.4" = Ok 16909060 /\
    contains (Net 16909060 32) 16909060 /\
    first_hit (guess_subnets "1.2.3.4") t = Ok None /\
    count_ips ["1.2.3.4" +:+ nl] t = Ok t.
Proof.
  eexists. split; [vm_compute; reflexivity|].
  split; [vm_compute; eauto|].
  split; [vm_compute; reflexivity|].
  split; [vm_compute; reflexivity|].
  split; vm_compute; reflexivity.
Qed.

Lemma tiles_single a bs : tiles a bs (a + 1) -> bs = [Net a 32].
Proof.
  destruct bs as [|b bs]; cbn [tiles]; [lia|].
  intros (Hw & Hn & Ht). pose proof (tiles_le _ _ _ Ht) as Hle.
  pose proof Hw as (Hp & _ & _). pose proof (size_pos b Hp) as Hs.
  assert (block_size b = 1) as H1 by lia. rewrite H1 in Ht.
  destruct bs as [|b' bs]; cbn [tiles] in Ht.
  - f_equal. destruct b as [n p]. cbn in *. subst n. f_equal.
    unfold block_size in H1. cbn in H1.
    destruct (Z.eq_dec p 32) as [->|Hne]; [reflexivity|].
    pose proof (pow2_le_mono 1 (32 - p) ltac:(lia)) as Hm. change (2 ^ 1) with 2 in Hm. lia.
  - destruct Ht as (Hw' & Hn' & Ht'). pose proof (tiles_le _ _ _ Ht').
    pose proof (size_pos b' (proj1 Hw')). lia.
Qed.

Lemma split_range_single ip a :
  IPv4Address (Str.strip ip) = Ok a -> split_range ip ip = Ok [Net a 32].
Proof.
  intros Ha.
  destruct (split_range_tiles ip ip a a Ha Ha ltac:(lia)) as (nets & _ & _ & Hsr & Ht).
  rewrite Hsr. f_equal. apply tiles_single. exact Ht.
Qed.

(** C9: [guess_subnets] yields prefix lengths 7 to 31 only, while
    [split_range] makes a [/32] block of a one-address range; so the
    counting pass leaves every entry whose prefix length is 32, or below
    7, exactly as it was, and an address that only [/32] entries contain
    is a miss that changes nothing. *)
Theorem count_skips_host_routes ip a lines (networks networks' : Table) :
  IPv4Address (Str.strip ip) = Ok a ->
  count_ips lines networks = Ok networks' ->
  (forall r b, r ∈ guess_subnets (Str.strip ip) -> r = Ok b -> 7 <= prefixlen b <= 31) /\
  split_range ip ip = Ok [Net a 32] /\
  (forall b, ~ (7 <= prefixlen b <= 31) -> networks' !! b = networks !! b) /\
  ((forall b, is_Some (networks !! b) -> contains b a -> prefixlen b = 32) ->
   first_hit (guess_subnets (Str.strip ip)) networks = Ok None /\
   count_ips [ip] networks = Ok networks).
Proof.
  intros Ha Hrun.
  split; [intros r b; apply guess_subnets_prefix|].
  split; [apply split_range_single; exact Ha|].
  split; [intros b; apply (count_ips_frame _ _ _ _ Hrun)|].
  intros Honly.
  destruct (lookup_most_specific_hit (Str.strip ip) a networks Ha) as (r & Hfh & Hspec).
  destruct r as [b|].
  - destruct Hspec as (Hin & Hc & Hp & _). specialize (Honly _ Hin Hc). lia.
  - split; [exact Hfh|]. cbn [count_ips]. destruct Hspec as [_ ->]. reflexivity.
Qed.

Lemma count_skips_host_routes_witness :
  (forall r b, r ∈ guess_subnets (Str.strip ("1.2.3.4" +:+ nl)) -> r = Ok b ->
               7 <= prefixlen b <= 31) /\
  split_range ("1.2.3.4" +:+ nl) ("1.2.3.4" +:+ nl) = Ok [Net 16909060 32] /\
  (forall b, ~ (7 <= prefixlen b <= 31) ->
     ({[Net 16909060 32 := ex_entry "1.2.3.4/32" "HOST-NET" "US"]} : Table) !! b =
     ({[Net 16909060 32 := ex_entry "1.2.3.4/32" "HOST-NET" "US"]} : Table) !! b) /\
  ((forall b,
      is_Some (({[Net 16909060 32 := ex_entry "1.2.3.4/32" "HOST-NET" "US"]} : Table) !! b) ->
      contains b 16909060 -> prefixlen b = 32) ->
   first_hit (guess_subnets (Str.strip ("1.2.3.4" +:+ nl)))
             {[Net 16909060 32 := ex_entry "1.2.3.4/32" "HOST-NET" "US"]} = Ok None /\
   count_ips ["1.2.3.4" +:+ nl] {[Net 16909060 32 := ex_entry "1.2.3.4/32" "HOST-NET" "US"]}
   = Ok {[Net 16909060 32 := ex_entry "1.2.3.4/32" "HOST-NET" "US"]}).
Proof.
  apply (count_skips_host_routes ("1.2.3.4" +:+ nl) 16909060
           ["1.2.3.4" +:+ nl; "8.8.8.8" +:+ nl]
           {[Net 16909060 32 := ex_entry "1.2.3.4/32" "HOST-NET" "US"]}
           {[Net 16909060 32 := ex_entry "1.2.3.4/32" "HOST-NET" "US"]}).
  - vm_compute. reflexivity.
  - vm_compute. reflexivity.
Defined.

(** * Further properties of the loader, the counting pass and the report *)

(** ** More on [split_range] *)

Lemma IPv4Address_error s e : IPv4Address s = Err e -> e = AddressValueError.
Proof.
  unfold IPv4Address, ip_int_from_string.
  destruct (Str.contains_char "/" s); [congruence|].
  destruct s as [|c s]; [congruence|].
  destruct (negb _); [congruence|].
  destruct (mapM parse_octet _); congruence.
Qed.

(** The two ways [split_range] fails. *)
Lemma split_range_failure start_ip end_ip :
  match IPv4Address (Str.strip start_ip), IPv4Address (Str.strip end_ip) with
  | Ok s, Ok e => e < s -> split_range start_ip end_ip = Err ValueError
  | _, _ => split_range start_ip end_ip = Err AddressValueError
  end.
Proof.
  destruct (IPv4Address (Str.strip start_ip)) as [s|es] eqn:Hs.
  - destruct (IPv4Address (Str.strip end_ip)) as [e|ee] eqn:He.
    + intros Hlt. unfold split_range. rewrite Hs, He. cbn [bind].
      unfold summarize_address_range.
      destruct (Z.ltb_spec e s); [reflexivity | lia].
    + unfold split_range. rewrite Hs, He. cbn [bind].
      apply IPv4Address_error in He. congruence.
  - unfold split_range. rewrite Hs. cbn [bind].
    apply IPv4Address_error in Hs. congruence.
Qed.

(** X1: [split_range] returns blocks exactly when both addresses are
    valid and the first is not above the last; it raises
    [AddressValueError] on an invalid address and [ValueError] on a
    reversed range. *)
Theorem split_range_outcome start_ip end_ip :
  match IPv4Address (Str.strip start_ip), IPv4Address (Str.strip end_ip) with
  | Ok s, Ok e =>
      if e <? s then split_range start_ip end_ip = Err ValueError
      else exists blocks, split_range start_ip end_ip = Ok blocks /\ blocks <> []
  | _, _ => split_range start_ip end_ip = Err AddressValueError
  end.
Proof.
  pose proof (split_range_failure start_ip end_ip) as Hfail.
  destruct (IPv4Address (Str.strip start_ip)) as [s|es] eqn:Hs; [|exact Hfail].
  destruct (IPv4Address (Str.strip end_ip)) as [e|ee] eqn:He; [|exact Hfail].
  destruct (Z.ltb_spec e s) as [Hlt|Hle]; [exact (Hfail Hlt)|].
  destruct (split_range_tiles _ _ _ _ Hs He Hle) as (nets & _ & _ & Hsr & Ht).
  eexists. split; [exact Hsr|]. intros Hnil. rewrite Hnil in Ht. cbn in Ht. lia.
Qed.

Lemma tiles_next s bs e i b1 b2 :
  tiles s bs e -> bs !! i = Some b1 -> bs !! S i = Some b2 ->
  network_address b2 = network_address b1 + block_size b1.
Proof.
  revert s i. induction bs as [|b0 bs IH]; intros s i Ht H1 H2; [discriminate|].
  cbn [tiles] in Ht. destruct Ht as (Hw & Hs & Ht).
  destruct i as [|i]; cbn in H1, H2.
  - injection H1 as <-. destruct bs as [|b bs]; [discriminate|].
    cbn in H2. injection H2 as <-. cbn [tiles] in Ht. destruct Ht as (_ & Hn & _). lia.
  - eapply IH; eassumption.
Qed.

Lemma tiles_last s bs e bl :
  tiles s bs e -> last bs = Some bl -> network_address bl + block_size bl = e.
Proof.
  revert s. induction bs as [|b0 bs IH]; intros s Ht Hl; [discriminate|].
  cbn [tiles] in Ht. destruct Ht as (Hw & Hs & Ht).
  destruct bs as [|b1 bs].
  - cbn in Hl. injection Hl as <-. cbn in Ht. lia.
  - apply (IH _ Ht). exact Hl.
Qed.

(** X2: the blocks [split_range] returns come in address order and lie
    end to end: the first starts at the start address, each next one
    starts right after the broadcast address of the one before, and the
    last one's broadcast address is the end address. *)
Theorem split_range_consecutive start_ip end_ip s e :
  IPv4Address (Str.strip start_ip) = Ok s ->
  IPv4Address (Str.strip end_ip) = Ok e ->
  s <= e ->
  exists b0 bl blocks,
    split_range start_ip end_ip = Ok blocks /\
    head blocks = Some b0 /\ network_address b0 = s /\
    last blocks = Some bl /\ broadcast_address bl = e /\
    (forall i b1 b2, blocks !! i = Some b1 -> blocks !! S i = Some b2 ->
       network_address b2 = broadcast_address b1 + 1) /\
    (forall i j b1 b2, (i < j)%nat -> blocks !! i = Some b1 -> blocks !! j = Some b2 ->
       broadcast_address b1 < network_address b2).
Proof.
  intros Hs He Hle.
  destruct (split_range_tiles _ _ _ _ Hs He Hle) as (nets & _ & _ & Hsr & Ht).
  set (blocks := concat (map subdivide nets)) in *.
  destruct blocks as [|b0 rest] eqn:Hb; [cbn in Ht; lia|].
  destruct (last (b0 :: rest)) as [bl|] eqn:Hl.
  2:{ apply last_None in Hl. discriminate. }
  exists b0, bl, (b0 :: rest).
  split; [exact Hsr|]. split; [reflexivity|].
  split; [cbn in Ht; tauto|]. split; [exact Hl|].
  assert (forall j b, (b0 :: rest) !! j = Some b -> wf_network b) as Hwf.
  { intros j b Hj. eapply tiles_lookup; eassumption. }
  split.
  { pose proof (tiles_last _ _ _ _ Ht Hl) as Hend.
    apply last_Some in Hl as [l' Hl']. 
    assert (wf_network bl) as Hw.
    { pose proof (tiles_wf _ _ _ Ht) as Hall. rewrite Forall_forall in Hall.
      apply Hall. rewrite Hl'. apply elem_of_app. right. left. }
    rewrite broadcast_address_eq by exact Hw. lia. }
  split.
  - intros i b1 b2 H1 H2. rewrite (tiles_next _ _ _ _ _ _ Ht H1 H2).
    rewrite broadcast_address_eq by (eapply Hwf; exact H1). lia.
  - intros i j b1 b2 Hij H1 H2.
    pose proof (tiles_ordered _ _ _ _ _ _ _ Ht Hij H1 H2).
    rewrite broadcast_address_eq by (eapply Hwf; exact H1). lia.
Qed.

Lemma split_range_consecutive_witness :
  exists b0 bl blocks,
    split_range "1.2.3.0" " 1.2.3.99" = Ok blocks /\
    head blocks = Some b0 /\ network_address b0 = 16909056 /\
    last blocks = Some bl /\ broadcast_address bl = 16909155 /\
    (forall i b1 b2, blocks !! i = Some b1 -> blocks !! S i = Some b2 ->
       network_address b2 = broadcast_address b1 + 1) /\
    (forall i j b1 b2, (i < j)%nat -> blocks !! i = Some b1 -> blocks !! j = Some b2 ->
       broadcast_address b1 < network_address b2).
Proof.
  apply (split_range_consecutive "1.2.3.0" " 1.2.3.99" 16909056 16909155);
    [vm_compute; reflexivity | vm_compute; reflexivity | lia].
Defined.

Lemma trailing_zeros_max (p : positive) k :
  0 <= k -> Z.pos p mod 2 ^ k = 0 ->
  k <= bit_length (Z.land (Z.lnot (Z.pos p)) (Z.pos p - 1)).
Proof.
  revert k. induction p as [q IH|q IH|]; intros k Hk Hdiv.
  - destruct (Z.eq_dec k 0) as [->|Hne]; [apply bit_length_nonneg|].
    exfalso. apply (mod_pow2_weaken _ 1 k) in Hdiv; [|lia].
    change (2 ^ 1) with 2 in Hdiv. rewrite Pos2Z.inj_xI in Hdiv.
    rewrite Z.add_comm, Z.mul_comm, Z_mod_plus_full in Hdiv. discriminate.
  - destruct (Z.eq_dec k 0) as [->|Hne]; [apply bit_length_nonneg|].
    replace (Z.lnot (Z.pos q~0)) with (2 * Z.lnot (Z.pos q) + 1)
      by (unfold Z.lnot, Z.pred; lia).
    replace (Z.pos q~0 - 1) with (2 * (Z.pos q - 1) + 1) by lia.
    rewrite land_double_odd.
    destruct (trailing_zeros_pos q) as [Hm _]. cbn zeta in Hm.
    rewrite bit_length_double_odd by exact Hm.
    assert (k - 1 <= bit_length (Z.land (Z.lnot (Z.pos q)) (Z.pos q - 1))); [|lia].
    apply IH; [lia|].
    replace k with (Z.succ (k - 1)) in Hdiv by lia.
    rewrite Z.pow_succ_r in Hdiv by lia.
    change (Z.pos q~0) with (2 * Z.pos q) in Hdiv.
    rewrite Zmult_mod_distr_l in Hdiv. lia.
  - destruct (Z.eq_dec k 0) as [->|Hne]; [apply bit_length_nonneg|].
    exfalso. apply (mod_pow2_weaken _ 1 k) in Hdiv; [|lia]. discriminate.
Qed.

Lemma summarize_nbits_block n k :
  0 <= k <= 32 -> 0 <= n -> n mod 2 ^ k = 0 ->
  summarize_nbits n (n + 2 ^ k - 1) = k.
Proof.
  intros Hk Hn Hal. unfold summarize_nbits, max_prefixlen.
  replace (n + 2 ^ k - 1 - n + 1) with (2 ^ k) by lia.
  pose proof (pow2_pos k ltac:(lia)) as Hpos.
  assert (bit_length (2 ^ k) - 1 = k) as ->.
  { unfold bit_length. destruct (Z.eqb_spec (2 ^ k) 0); [lia|].
    rewrite Z.abs_eq by lia. rewrite Z.log2_pow2 by lia. lia. }
  apply Z.min_r. unfold count_righthand_zero_bits.
  destruct (Z.eqb_spec n 0); [lia|].
  apply Z.min_glb; [lia|].
  destruct n as [|p|p]; try lia. apply trailing_zeros_max; [lia | exact Hal].
Qed.

Lemma summarize_loop_head first_int last_int :
  0 <= first_int <= last_int -> last_int < 2 ^ 32 ->
  exists rest,
    summarize_loop first_int last_int =
      Ok (Net first_int (32 - summarize_nbits first_int last_int) :: rest) /\
    tiles (first_int + 2 ^ summarize_nbits first_int last_int) rest (last_int + 1).
Proof.
  funelim (summarize_loop first_int last_int); intros H0 H2.
  - lia.
  - destruct (summarize_block first_int last_int H0 H2) as (Hb & _).
    cbn zeta in Hb. congruence.
  - destruct (summarize_block first_int last_int H0 H2) as (Hb & Hw & Hs & Hle).
    destruct (summarize_nbits_spec first_int last_int H0) as (Hn & _).
    cbn zeta in *.
    match goal with Hnet : IPv4Network_of_int _ _ _ = Ok net |- _ =>
      rewrite Hb in Hnet; injection Hnet as <- end.
    match goal with Hbrk : _ + Z.shiftl 1 _ - 1 = ALL_ONES |- _ =>
      pose proof Hbrk as Hall end.
    rewrite Z.shiftl_mul_pow2, Z.mul_1_l in Hall, Hle by lia.
    exists []. split; [reflexivity|]. cbn [tiles]. unfold ALL_ONES in Hall. lia.
  - destruct (summarize_block first_int last_int H0 H2) as (Hb & Hw & Hs & Hle).
    destruct (summarize_nbits_spec first_int last_int H0) as (Hn & _).
    cbn zeta in *.
    match goal with Hnet : IPv4Network_of_int _ _ _ = Ok net |- _ =>
      rewrite Hb in Hnet; injection Hnet as <- end.
    destruct (summarize_loop_tiles
                (first_int + Z.shiftl 1 (summarize_nbits first_int last_int)) last_int)
      as (rest & Hrest & Ht); [|exact Hle|exact H2|].
    { pose proof (size_pos _ (proj1 Hw)). lia. }
    rewrite Hrest. exists rest. split; [reflexivity|].
    rewrite Z.shiftl_mul_pow2, Z.mul_1_l in Ht by lia. exact Ht.
Qed.

Lemma tiles_empty s bs : tiles s bs s -> bs = [].
Proof.
  destruct bs as [|b bs]; [reflexivity|]. cbn [tiles]. intros (Hw & _ & Ht).
  apply tiles_le in Ht. pose proof (size_pos b (proj1 Hw)). lia.
Qed.

Lemma summarize_address_range_block n :
  wf_network n ->
  summarize_address_range (network_address n) (broadcast_address n) = Ok [n].
Proof.
  intros Hw. pose proof Hw as (Hp & Ha & Hal).
  pose proof (wf_network_end n Hw) as Hend.
  rewrite broadcast_address_eq by exact Hw. unfold block_size in *.
  pose proof (pow2_pos (32 - prefixlen n) ltac:(lia)) as Hpos.
  unfold summarize_address_range.
  destruct (Z.ltb_spec (network_address n + 2 ^ (32 - prefixlen n) - 1) (network_address n));
    [lia|].
  destruct (summarize_loop_head (network_address n)
              (network_address n + 2 ^ (32 - prefixlen n) - 1) ltac:(lia) ltac:(lia))
    as (rest & Hsum & Ht).
  rewrite summarize_nbits_block in Hsum, Ht by (lia || assumption).
  replace (network_address n + 2 ^ (32 - prefixlen n) - 1 + 1)
    with (network_address n + 2 ^ (32 - prefixlen n)) in Ht by lia.
  apply tiles_empty in Ht. subst rest. rewrite Hsum.
  replace (32 - (32 - prefixlen n)) with (prefixlen n) by lia.
  destruct n; reflexivity.
Qed.

(** X3: a range that is exactly one network, from its network address
    to its broadcast address, is summarized to that network alone;
    [split_range] returns it unchanged when its prefix length is at least
    16 and as all the [/16] networks inside it otherwise. *)
Theorem split_range_of_network start_ip end_ip n :
  wf_network n ->
  IPv4Address (Str.strip start_ip) = Ok (network_address n) ->
  IPv4Address (Str.strip end_ip) = Ok (broadcast_address n) ->
  split_range start_ip end_ip = Ok (subdivide n) /\
  (MIN_SUBNET_PREFIX <= prefixlen n -> subdivide n = [n]) /\
  (prefixlen n < MIN_SUBNET_PREFIX ->
   Z.of_nat (length (subdivide n)) = 2 ^ (MIN_SUBNET_PREFIX - prefixlen n) /\
   forall b, b ∈ subdivide n -> prefixlen b = MIN_SUBNET_PREFIX).
Proof.
  intros Hw Hs He. split; [|split].
  - unfold split_range. rewrite Hs, He. cbn [bind].
    rewrite summarize_address_range_block by exact Hw. cbn [bind].
    rewrite split_range_loop_eq by (constructor; [exact Hw | constructor]).
    cbn. rewrite app_nil_r. reflexivity.
  - unfold subdivide. intros Hp. destruct (Z.ltb_spec (prefixlen n) MIN_SUBNET_PREFIX); [lia|].
    reflexivity.
  - unfold subdivide, MIN_SUBNET_PREFIX. intros Hp.
    destruct (Z.ltb_spec (prefixlen n) 16); [|lia]. unfold blocks16. split.
    + rewrite length_map, length_seqZ.
      pose proof (pow2_pos (16 - prefixlen n) ltac:(lia)). lia.
    + intros b Hb. apply list_elem_of_fmap in Hb as (i & -> & _). reflexivity.
Qed.

Lemma split_range_of_network_witness :
  split_range "10.0.0.0 " " 10.255.255.255" = Ok (subdivide (Net 167772160 8)) /\
  (MIN_SUBNET_PREFIX <= prefixlen (Net 167772160 8) ->
   subdivide (Net 167772160 8) = [Net 167772160 8]) /\
  (prefixlen (Net 167772160 8) < MIN_SUBNET_PREFIX ->
   Z.of_nat (length (subdivide (Net 167772160 8)))
     = 2 ^ (MIN_SUBNET_PREFIX - prefixlen (Net 167772160 8)) /\
   forall b, b ∈ subdivide (Net 167772160 8) -> prefixlen b = MIN_SUBNET_PREFIX).
Proof.
  apply (split_range_of_network "10.0.0.0 " " 10.255.255.255" (Net 167772160 8)).
  - unfold wf_network. cbn. split; [lia|]. split; [lia|]. reflexivity.
  - vm_compute. reflexivity.
  - vm_compute. reflexivity.
Defined.

(** ** More on the lines of the dump *)

Lemma split_app_sep sep x y :
  Str.contains_char sep x = false ->
  Str.split sep (String.append x (String sep y)) = x :: Str.split sep y.
Proof.
  induction x as [|c x IH]; simpl; intros H.
  - rewrite Ascii.eqb_refl. reflexivity.
  - apply orb_false_elim in H as [Hc Hx]. rewrite Hc, IH by exact Hx. reflexivity.
Qed.

(** X4: the loader reads the key before the first colon and, as the
    value, only the text between the first and the second colon: whatever
    follows a second colon is dropped. *)
Theorem value_cut_at_second_colon k v rest :
  Str.contains_char ":" k = false ->
  Str.contains_char ":" v = false ->
  line_key (String.append k (String ":" v)) = Str.strip k /\
  line_value (String.append k (String ":" v)) = Ok (Str.strip v) /\
  line_key (String.append k (String ":" (String.append v (String ":" rest)))) = Str.strip k /\
  line_value (String.append k (String ":" (String.append v (String ":" rest))))
    = Ok (Str.strip v).
Proof.
  intros Hk Hv. unfold line_key, line_value.
  rewrite !split_app_sep by assumption. rewrite (split_no_sep _ v Hv).
  repeat split; reflexivity.
Qed.

Lemma value_cut_at_second_colon_witness :
  line_key (String.append "descr" (String ":" " see http")) = Str.strip "descr" /\
  line_value (String.append "descr" (String ":" " see http")) = Ok (Str.strip " see http") /\
  line_key (String.append "descr"
              (String ":" (String.append " see http" (String ":" "//example.net"))))
    = Str.strip "descr" /\
  line_value (String.append "descr"
                (String ":" (String.append " see http" (String ":" "//example.net"))))
    = Ok (Str.strip " see http").
Proof.
  apply (value_cut_at_second_colon "descr" " see http" "//example.net"); reflexivity.
Defined.

(** X5: what an [inetnum] line does, by its value: without exactly one
    dash it raises [ValueError], with an invalid address
    [AddressValueError], with the start above the end [ValueError];
    otherwise the line is accepted. *)
Theorem inetnum_line_outcome pre line post value st :
  load_loop pre init_state = Ok st ->
  is_line line Kinetnum value ->
  match Str.split "-" value with
  | [start_ip; end_ip] =>
      match IPv4Address (Str.strip (Str.strip start_ip)),
            IPv4Address (Str.strip (Str.strip end_ip)) with
      | Ok s, Ok e =>
          if e <? s then load_networks (pre ++ line :: post) = Err ValueError
          else exists st1, load_line st line = Ok st1
      | _, _ => load_networks (pre ++ line :: post) = Err AddressValueError
      end
  | _ => load_networks (pre ++ line :: post) = Err ValueError
  end.
Proof.
  intros Hpre Hline.
  pose proof (load_loop_loaded _ _ _ init_loaded Hpre) as Hst.
  assert (forall e, load_inetnum st value = Err e ->
                    load_networks (pre ++ line :: post) = Err e) as Hfail.
  { intros e He. unfold load_networks. rewrite load_loop_app, Hpre. cbn [bind load_loop].
    rewrite (load_line_kv _ _ _ _ Hline). cbn [is_descr andb].
    rewrite bool_decide_eq_true_2 by reflexivity. rewrite He. reflexivity. }
  destruct (Str.split "-" value) as [|a [|b [|c l]]] eqn:Hsp;
    try (apply Hfail; unfold load_inetnum; rewrite Hsp; reflexivity).
  pose proof (split_range_failure (Str.strip a) (Str.strip b)) as Hout.
  destruct (IPv4Address (Str.strip (Str.strip a))) as [s|es] eqn:Hs.
  - destruct (IPv4Address (Str.strip (Str.strip b))) as [e|ee] eqn:He.
    + destruct (Z.ltb_spec e s) as [Hlt|Hle].
      * apply Hfail. unfold load_inetnum. rewrite Hsp, (Hout Hlt). reflexivity.
      * destruct (load_inetnum_line st line value _ _ _ _ Hst Hline Hsp Hs He Hle)
          as (blocks & kept & _ & _ & _ & _ & Hload).
        eexists. exact Hload.
    + apply Hfail. unfold load_inetnum. rewrite Hsp, Hout. reflexivity.
  - apply Hfail. unfold load_inetnum. rewrite Hsp, Hout. reflexivity.
Qed.

Lemma inetnum_line_outcome_witness :
  load_networks ([] ++ ("inetnum:        1.2.3.0/24" +:+ nl) :: [nl]) = Err ValueError.
Proof.
  apply (inetnum_line_outcome [] ("inetnum:        1.2.3.0/24" +:+ nl) [nl]
           "1.2.3.0/24" init_state).
  - reflexivity.
  - check_line.
Defined.

(** X6: a [descr] line that directly follows a [descr] line is ignored:
    the dump loads as it would without it. *)
Theorem repeated_descr_ignored pre d1 d2 post v1 v2 :
  is_line d1 Kdescr v1 -> is_line d2 Kdescr v2 ->
  load_networks (pre ++ d1 :: d2 :: post) = load_networks (pre ++ d1 :: post).
Proof.
  intros H1 H2. unfold load_networks. rewrite !load_loop_app.
  destruct (load_loop pre init_state) as [st|]; cbn [bind load_loop]; [|reflexivity].
  rewrite (load_line_kv _ _ _ _ H1). cbn [is_descr andb].
  destruct (bool_decide (prev_key st = Some Kdescr)) eqn:Hprev.
  - cbn [bind]. rewrite (load_line_kv _ _ _ _ H2). cbn [is_descr andb].
    rewrite Hprev. reflexivity.
  - rewrite bool_decide_eq_false_2 by discriminate. cbn [bind].
    destruct (current_range st) as [blocks|]; [|reflexivity]. cbn [bind].
    rewrite (load_line_kv _ _ _ _ H2). cbn [is_descr andb prev_key].
    rewrite bool_decide_eq_true_2 by reflexivity. reflexivity.
Qed.

Lemma repeated_descr_ignored_witness :
  load_networks (["inetnum: 1.2.3.0 - 1.2.3.255" +:+ nl; "netname: EXAMPLE-NET" +:+ nl]
                   ++ ("descr: first" +:+ nl) :: ("descr: second" +:+ nl)
                   :: ["country: US" +:+ nl]) =
  load_networks (["inetnum: 1.2.3.0 - 1.2.3.255" +:+ nl; "netname: EXAMPLE-NET" +:+ nl]
                   ++ ("descr: first" +:+ nl) :: ["country: US" +:+ nl]).
Proof.
  apply (repeated_descr_ignored _ _ _ _ "first" "second"); check_line.
Defined.

Lemma update_all_frame f l (d : Table) k :
  k ∉ l -> update_all f l d !! k = d !! k.
Proof.
  revert d. induction l as [|x l IH]; intros d Hk; unfold update_all in *; cbn [fold_left].
  - reflexivity.
  - apply not_elem_of_cons in Hk as [Hne Hk]. rewrite IH by exact Hk.
    unfold update. apply lookup_insert_ne. congruence.
Qed.

Lemma update_all_lookup_idem f l (d : Table) k :
  (forall k e, f k (f k e) = f k e) ->
  update_all f l d !! k =
    if decide (k ∈ l) then Some (f k (default empty_entry (d !! k))) else d !! k.
Proof.
  intros Hf. revert d. induction l as [|x l IH]; intros d;
    unfold update_all in *; cbn [fold_left].
  - rewrite decide_False by (intros H; inversion H). reflexivity.
  - rewrite IH. unfold update.
    destruct (decide (k = x)) as [->|Hne].
    + rewrite lookup_insert_eq. rewrite (decide_True (P := x ∈ x :: l)) by left.
      destruct (decide (x ∈ l)); simpl; rewrite ?Hf; reflexivity.
    + rewrite lookup_insert_ne by congruence.
      destruct (decide (k ∈ l)) as [Hin|Hnin].
      * rewrite decide_True by (right; exact Hin). reflexivity.
      * rewrite decide_False; [reflexivity|].
        intros Hin. apply elem_of_cons in Hin as [?|?]; contradiction.
Qed.

(** X7: a [netname], [country] or [descr] line that is not skipped sets
    its field on the entry of every block of the current range, and
    leaves every other entry of the table as it is. *)
Theorem attribute_write_exact st line key value blocks :
  is_line line key value ->
  key <> Kinetnum ->
  ~ (key = Kdescr /\ prev_key st = Some Kdescr) ->
  current_range st = Some blocks ->
  exists st',
    load_line st line = Ok st' /\
    current_range st' = Some blocks /\
    prev_key st' = Some key /\
    forall b,
      data st' !! b =
        if decide (b ∈ blocks)
        then Some (set_key key value (default empty_entry (data st !! b)))
        else data st !! b.
Proof.
  intros Hline Hk Hd Hcr. eexists. split; [|split; [|split]].
  - rewrite (load_line_kv _ _ _ _ Hline).
    assert (is_descr key && bool_decide (prev_key st = Some Kdescr) = false) as ->.
    { destruct key; try reflexivity. cbn. apply bool_decide_eq_false_2. tauto. }
    rewrite bool_decide_eq_false_2 by exact Hk. cbn [bind]. rewrite Hcr. reflexivity.
  - reflexivity.
  - reflexivity.
  - intros b. cbn [data]. apply update_all_lookup_idem.
    intros _ e. destruct key; reflexivity.
Qed.

Lemma attribute_write_exact_witness :
  exists st',
    load_line (mkState ∅ (Some [Net 16909056 24]) (Some Kinetnum))
              ("netname:        EXAMPLE-NET" +:+ nl) = Ok st' /\
    current_range st' = Some [Net 16909056 24] /\
    prev_key st' = Some Knetname /\
    forall b,
      data st' !! b =
        if decide (b ∈ [Net 16909056 24])
        then Some (set_key Knetname "EXAMPLE-NET"
                     (default empty_entry
                        (data (mkState ∅ (Some [Net 16909056 24]) (Some Kinetnum)) !! b)))
        else data (mkState ∅ (Some [Net 16909056 24]) (Some Kinetnum)) !! b.
Proof.
  apply (attribute_write_exact (mkState ∅ (Some [Net 16909056 24]) (Some Kinetnum))
           ("netname:        EXAMPLE-NET" +:+ nl) Knetname "EXAMPLE-NET" [Net 16909056 24]).
  - check_line.
  - discriminate.
  - intros [H _]. discriminate.
  - reflexivity.
Defined.

(** X8: no line of the dump changes an entry outside the range that is
    current after it: a comment, a blank line, an unrecognized or skipped
    line changes nothing, and the others write only to the blocks of the
    current range. *)
Theorem load_line_frame st line st' b :
  load_line st line = Ok st' ->
  (forall blocks, current_range st' = Some blocks -> b ∉ blocks) ->
  data st' !! b = data st !! b.
Proof.
  unfold load_line. intros Hl Hb.
  destruct (Str.startswith _ _); [injection Hl as <-; reflexivity|].
  destruct (String.eqb _ _); [injection Hl as <-; reflexivity|].
  destruct (recognized _) as [key|]; [|injection Hl as <-; reflexivity].
  destruct (line_value line) as [value|]; cbn [bind] in Hl; [|discriminate].
  destruct (_ && _); [injection Hl as <-; reflexivity|].
  destruct (bool_decide (key = Kinetnum)).
  - destruct (load_inetnum st value) as [st1|] eqn:Hin; cbn [bind] in Hl; [|discriminate].
    unfold load_inetnum in Hin.
    destruct (Str.split "-" value) as [|a [|b0 [|c l]]]; try discriminate.
    destruct (split_range _ _) as [blocks|]; cbn [bind] in Hin; [|discriminate].
    destruct (filterM _ _) as [kept|]; cbn [bind] in Hin; [|discriminate].
    injection Hin as <-. cbn [current_range data] in Hl. injection Hl as <-.
    cbn [current_range data] in *. specialize (Hb _ eq_refl).
    rewrite !update_all_frame by exact Hb. reflexivity.
  - cbn [bind] in Hl. destruct (current_range st) as [blocks|]; [|discriminate].
    injection Hl as <-. cbn [current_range data] in *. specialize (Hb _ eq_refl).
    apply update_all_frame. exact Hb.
Qed.

Lemma load_line_frame_witness :
  data (mkState (update_all (fun _ => set_key Knetname "EXAMPLE-NET") [Net 16909056 24] ∅)
                (Some [Net 16909056 24]) (Some Knetname)) !! Net 167772160 16
  = data (mkState ∅ (Some [Net 16909056 24]) (Some Kinetnum)) !! Net 167772160 16.
Proof.
  apply (load_line_frame (mkState ∅ (Some [Net 16909056 24]) (Some Kinetnum))
           ("netname:        EXAMPLE-NET" +:+ nl)).
  - vm_compute. reflexivity.
  - intros blocks [= <-]. intros H. apply list_elem_of_singleton in H. discriminate.
Defined.

(** ** What a loaded table looks like *)

Lemma split_range_ok_tiles a b blocks :
  split_range a b = Ok blocks ->
  exists s e,
    s <= e /\ tiles s blocks (e + 1) /\
    forall k, k ∈ blocks -> MIN_SUBNET_PREFIX <= prefixlen k.
Proof.
  intros Hok. pose proof (split_range_failure a b) as Hout.
  destruct (IPv4Address (Str.strip a)) as [s|] eqn:Hs; [|congruence].
  destruct (IPv4Address (Str.strip b)) as [e|] eqn:He; [|congruence].
  destruct (Z.ltb_spec e s) as [Hlt|Hle]; [specialize (Hout Hlt); congruence|].
  destruct (split_range_tiles _ _ _ _ Hs He Hle) as (nets & _ & Hwf & Hsr & Ht).
  rewrite Hsr in Hok. injection Hok as <-.
  exists s, e. split; [exact Hle|]. split; [exact Ht|].
  intros k Hk. apply list_elem_of_In, in_concat in Hk as (l & Hl & Hk).
  apply list_elem_of_In in Hl, Hk. apply list_elem_of_fmap in Hl as (net & -> & Hnet).
  rewrite Forall_forall in Hwf.
  apply (subdivide_prefix net k); [apply Hwf; exact Hnet | exact Hk].
Qed.

Lemma tiles_elem s bs e k :
  tiles s bs e -> k ∈ bs ->
  wf_network k /\ s <= network_address k /\ network_address k + block_size k <= e.
Proof.
  intros Ht Hk. apply list_elem_of_lookup in Hk as [i Hi].
  eapply tiles_lookup; eassumption.
Qed.

Lemma load_line_well_loaded st line st' :
  well_loaded st -> load_line st line = Ok st' -> well_loaded st'.
Proof.
  intros [Hd Hc]. unfold load_line.
  destruct (Str.startswith _ _); [intros [= <-]; split; assumption|].
  destruct (String.eqb _ _).
  { intros [= <-]. split; [exact Hd | discriminate]. }
  destruct (recognized _) as [key|]; [|intros [= <-]; split; assumption].
  destruct (line_value line) as [value|]; cbn [bind]; [|discriminate].
  destruct (_ && _); [intros [= <-]; split; assumption|].
  destruct (bool_decide (key = Kinetnum)) eqn:Hkey.
  - apply bool_decide_eq_true_1 in Hkey. subst key.
    destruct (load_inetnum st value) as [st1|] eqn:Hin; cbn [bind]; [|discriminate].
    unfold load_inetnum in Hin.
    destruct (Str.split "-" value) as [|a [|b [|c l]]]; try discriminate.
    destruct (split_range _ _) as [blocks|] eqn:Hsr; cbn [bind] in Hin; [|discriminate].
    destruct (filterM _ _) as [kept|] eqn:Hf; cbn [bind] in Hin; [|discriminate].
    injection Hin as <-. cbn [current_range data]. intros [= <-].
    destruct (split_range_ok_tiles _ _ _ Hsr) as (s & e & Hle & Ht & Hp).
    destruct (filterM_ok _ _ _ Hf) as (_ & Hmem & Hnd).
    specialize (Hnd (tiles_NoDup _ _ _ Ht)).
    rewrite (tiles_sum _ _ _ Ht).
    split; cbn [data current_range].
    + intros k v. rewrite load_inetnum_line_lookup by exact Hnd.
      destruct (decide (k ∈ kept)) as [Hk|Hk]; [|apply Hd].
      intros [= <-]. apply Hmem in Hk as [Hk _].
      destruct (tiles_elem _ _ _ _ Ht Hk) as (Hw & Hlo & Hhi).
      split; [exact Hw|]. split; [apply Hp; exact Hk|]. split; [reflexivity|].
      split; [|split].
      * eexists. split; [reflexivity|]. rewrite num_addresses_eq by exact Hw. lia.
      * cbn. eauto.
      * cbn. destruct (data st !! k) as [old|] eqn:Hold; [|reflexivity].
        cbn. apply (Hd _ _ Hold).
    + intros ? [= <-] b0 Hb. rewrite load_inetnum_line_lookup by exact Hnd.
      rewrite decide_True by exact Hb. eauto.
  - cbn [bind]. destruct (current_range st) as [blocks|] eqn:Hcr; [|discriminate].
    intros [= <-]. split; cbn [data current_range].
    + intros k v. rewrite update_all_lookup_idem by (intros _ e; destruct key; reflexivity).
      destruct (decide (k ∈ blocks)) as [Hk|Hk]; [|apply Hd].
      intros [= <-]. destruct (Hc _ eq_refl _ Hk) as [old Hold]. rewrite Hold. cbn [default].
      destruct (Hd _ _ Hold) as (H1 & H2 & H3 & H4 & H5 & H6).
      split; [exact H1|]. split; [exact H2|].
      destruct key; cbn; repeat (split; [assumption|]); first [assumption | eauto].
    + intros ? [= <-] b0 Hb. apply update_all_dom. left. exact Hb.
Qed.

Lemma load_loop_well_loaded lines st st' :
  well_loaded st -> load_loop lines st = Ok st' -> well_loaded st'.
Proof.
  revert st. induction lines as [|line lines IH]; intros st Hst; cbn.
  - intros [= <-]. exact Hst.
  - destruct (load_line st line) as [st1|] eqn:H1; cbn; [|discriminate].
    apply IH. eapply load_line_well_loaded; eassumption.
Qed.

Lemma init_well_loaded : well_loaded init_state.
Proof.
  split; cbn.
  - intros k v H. rewrite lookup_empty in H. discriminate.
  - discriminate.
Qed.

Lemma load_networks_entry lines t k v :
  load_networks lines = Ok t ->
  t !! k = Some v ->
  entry_ok k v /\ is_Some (netname v) /\ is_Some (country v).
Proof.
  unfold load_networks. intros Hload Hk.
  destruct (load_loop lines init_state) as [st|] eqn:Hst; cbn [bind] in Hload; [|discriminate].
  apply (remove_generic_lookup _ _ Hload) in Hk as [Hd (name & c & Hn & Hc & _)].
  destruct (load_loop_well_loaded _ _ _ init_well_loaded Hst) as [Hall _].
  split; [exact (Hall _ _ Hd)|]. split; eauto.
Qed.

(** X9: in the table [load_networks] returns, every key is a network
    without host bits and with a prefix length from 16 to 32, and its
    entry carries the key's text as [cidr], the declared range, a
    [num_addr_orig] no smaller than the block, a name and a country, and
    no counter yet. *)
Theorem loaded_table_entries lines t k v :
  load_networks lines = Ok t ->
  t !! k = Some v ->
  wf_network k /\
  MIN_SUBNET_PREFIX <= prefixlen k <= 32 /\
  cidr v = Some (str_network k) /\
  (exists n, num_addr_orig v = Some n /\ num_addresses k <= n) /\
  is_Some (inetnum v) /\
  is_Some (netname v) /\
  is_Some (country v) /\
  ip_count v = None.
Proof.
  intros Hload Hk.
  destruct (load_networks_entry _ _ _ _ Hload Hk) as ((H1 & H2 & H3 & H4 & H5 & H6) & Hn & Hc).
  pose proof H1 as (Hp & _).
  repeat (split; [first [assumption | lia | eauto]|]). exact H6.
Qed.

Lemma loaded_table_entries_witness :
  wf_network (Net 16909056 24) /\
  MIN_SUBNET_PREFIX <= prefixlen (Net 16909056 24) <= 32 /\
  cidr (record_entry (Net 16909056 24) 256 "1.2.3.0 - 1.2.3.255" "EXAMPLE-NET" "Example" "US" None)
    = Some (str_network (Net 16909056 24)) /\
  (exists n,
     num_addr_orig (record_entry (Net 16909056 24) 256 "1.2.3.0 - 1.2.3.255"
                      "EXAMPLE-NET" "Example" "US" None) = Some n /\
     num_addresses (Net 16909056 24) <= n) /\
  is_Some (inetnum (record_entry (Net 16909056 24) 256 "1.2.3.0 - 1.2.3.255"
                      "EXAMPLE-NET" "Example" "US" None)) /\
  is_Some (netname (record_entry (Net 16909056 24) 256 "1.2.3.0 - 1.2.3.255"
                      "EXAMPLE-NET" "Example" "US" None)) /\
  is_Some (country (record_entry (Net 16909056 24) 256 "1.2.3.0 - 1.2.3.255"
                      "EXAMPLE-NET" "Example" "US" None)) /\
  ip_count (record_entry (Net 16909056 24) 256 "1.2.3.0 - 1.2.3.255"
              "EXAMPLE-NET" "Example" "US" None) = None.
Proof.
  apply (loaded_table_entries
           (ex_record "1.2.3.0 - 1.2.3.255" "EXAMPLE-NET" "Example" "US")
           {[ Net 16909056 24 :=
                record_entry (Net 16909056 24) 256 "1.2.3.0 - 1.2.3.255"
                  "EXAMPLE-NET" "Example" "US" None ]}).
  - vm_compute. reflexivity.
  - vm_compute. reflexivity.
Defined.

Lemma keep_entry_error v e :
  keep_entry v = Err e ->
  e = KeyError /\
  (netname v = None \/
   exists name, netname v = Some name /\ ~ placeholder_name name /\ country v = None).
Proof.
  unfold keep_entry, placeholder_name.
  destruct (netname v) as [name|]; cbn [getitem bind]; [|intros [= <-]; auto].
  destruct (existsb _ _) eqn:Hg; [discriminate|].
  destruct (Str.startswith "IANA-NETBLOCK" name) eqn:Hi; [discriminate|].
  destruct (Str.startswith "STUB-" name) eqn:Hs; [discriminate|].
  destruct (country v) as [c|]; cbn [getitem bind]; [discriminate|].
  intros [= <-]. split; [reflexivity|]. right. exists name.
  split; [reflexivity|]. split; [|reflexivity].
  intros [H|[H|H]]; [|congruence|congruence].
  apply existsb_eqb_elem in H. congruence.
Qed.

Lemma keep_entry_error_iff v :
  keep_entry v = Err KeyError <->
  (netname v = None \/
   exists name, netname v = Some name /\ ~ placeholder_name name /\ country v = None).
Proof.
  split; [intros H; apply (keep_entry_error _ _ H)|].
  unfold keep_entry, placeholder_name. intros [->|(name & -> & Hp & ->)]; [reflexivity|].
  cbn [getitem bind].
  destruct (existsb _ _) eqn:Hg.
  { exfalso. apply Hp. left. apply existsb_eqb_elem. exact Hg. }
  destruct (Str.startswith "IANA-NETBLOCK" name) eqn:Hi; [exfalso; apply Hp; auto|].
  destruct (Str.startswith "STUB-" name) eqn:Hs; [exfalso; apply Hp; auto|].
  reflexivity.
Qed.

Lemma filterM_error {A : Type} (f : A -> result bool) l e :
  filterM f l = Err e -> exists x, x ∈ l /\ f x = Err e.
Proof.
  induction l as [|x l IH]; cbn; [discriminate|].
  destruct (f x) as [b|e'] eqn:Hx; cbn.
  - destruct (filterM f l) as [r|e'']; cbn; [discriminate|].
    intros [= <-]. destruct (IH eq_refl) as (y & Hy & Hfy). exists y. split; [right|]; assumption.
  - intros [= <-]. exists x. split; [left | exact Hx].
Qed.

(** X10: the final filter raises [KeyError], and [load_networks] with it,
    exactly when some loaded entry has no name, or has a name that is not
    a placeholder and no country; an entry with a placeholder name and no
    country is dropped without an error. *)
Theorem filter_raises_on_missing_field lines st :
  load_loop lines init_state = Ok st ->
  (load_networks lines = Err KeyError <->
   exists k v, data st !! k = Some v /\
     (netname v = None \/
      exists name, netname v = Some name /\ ~ placeholder_name name /\ country v = None)) /\
  ((exists t, load_networks lines = Ok t) \/ load_networks lines = Err KeyError).
Proof.
  intros Hst. unfold load_networks. rewrite Hst. cbn [bind]. unfold remove_generic.
  destruct (filterM _ _) as [kept|e] eqn:Hf; cbn [bind].
  - split; [|left; eauto]. split; [discriminate|].
    intros (k & v & Hk & Hbad). destruct (filterM_ok _ _ _ Hf) as (Hall & _).
    destruct (Hall (k, v)) as [b Hb]; [apply elem_of_map_to_list; exact Hk|].
    cbn in Hb. apply keep_entry_error_iff in Hbad. congruence.
  - apply filterM_error in Hf as ([k v] & Hin & Herr). cbn in Herr.
    apply elem_of_map_to_list in Hin.
    destruct (keep_entry_error _ _ Herr) as [-> Hbad].
    split; [|right; reflexivity]. split; [|reflexivity].
    intros _. exists k, v. split; assumption.
Qed.

Lemma filter_raises_on_missing_field_witness :
  exists st,
    load_loop ["inetnum: 1.2.3.0 - 1.2.3.255" +:+ nl; "country: US" +:+ nl] init_state = Ok st /\
    (load_networks ["inetnum: 1.2.3.0 - 1.2.3.255" +:+ nl; "country: US" +:+ nl]
       = Err KeyError <->
     exists k v, data st !! k = Some v /\
       (netname v = None \/
        exists name, netname v = Some name /\ ~ placeholder_name name /\ country v = None)) /\
    ((exists t, load_networks ["inetnum: 1.2.3.0 - 1.2.3.255" +:+ nl; "country: US" +:+ nl]
                = Ok t) \/
     load_networks ["inetnum: 1.2.3.0 - 1.2.3.255" +:+ nl; "country: US" +:+ nl]
       = Err KeyError).
Proof.
  eexists. split; [vm_compute; reflexivity|].
  apply (filter_raises_on_missing_field
           ["inetnum: 1.2.3.0 - 1.2.3.255" +:+ nl; "country: US" +:+ nl]).
  vm_compute. reflexivity.
Defined.

(** ** More on the counting pass *)

Lemma first_hit_dom cands (n1 n2 : Table) :
  (forall k, is_Some (n1 !! k) <-> is_Some (n2 !! k)) ->
  first_hit cands n1 = first_hit cands n2.
Proof.
  intros Hdom. induction cands as [|c cands IH]; cbn [first_hit]; [reflexivity|].
  destruct c as [subnet|e]; cbn [bind]; [|reflexivity].
  specialize (Hdom subnet).
  destruct (n1 !! subnet) as [o1|], (n2 !! subnet) as [o2|]; try reflexivity; try exact IH.
  - destruct Hdom as [Hd _]. destruct Hd as [? Hd]; [eauto | discriminate].
  - destruct Hdom as [_ Hd]. destruct Hd as [? Hd]; [eauto | discriminate].
Qed.

Lemma first_hit_in cands (n : Table) b :
  first_hit cands n = Ok (Some b) -> is_Some (n !! b).
Proof.
  induction cands as [|c cands IH]; cbn [first_hit]; [discriminate|].
  destruct c as [subnet|e]; cbn [bind]; [|discriminate].
  destruct (n !! subnet) as [o|] eqn:Hl; [|exact IH].
  intros [= <-]. rewrite Hl. eauto.
Qed.

Lemma hit_count_dom (n1 n2 : Table) b lines :
  (forall k, is_Some (n1 !! k) <-> is_Some (n2 !! k)) ->
  hit_count n1 b lines = hit_count n2 b lines.
Proof.
  intros Hdom. induction lines as [|ip lines IH]; cbn [hit_count]; [reflexivity|].
  unfold hits. rewrite (first_hit_dom _ _ _ Hdom), IH. reflexivity.
Qed.

Lemma hit_count_nonneg (n : Table) b lines : 0 <= hit_count n b lines.
Proof.
  induction lines as [|ip lines IH]; cbn [hit_count]; [lia|].
  destruct (hits n b ip); lia.
Qed.

(** One line of the address file: nothing changes on a miss, and on a
    hit the entry found is replaced by its bumped copy. *)
Lemma count_ip_loop_step cands (n n1 : Table) :
  count_ip_loop cands n = Ok n1 ->
  match first_hit cands n with
  | Ok None => n1 = n
  | Ok (Some b) => exists obj, n !! b = Some obj /\ n1 = <[b := bump obj]> n
  | Err _ => False
  end.
Proof.
  intros Hrun. pose proof (count_ip_loop_first_hit cands n) as Hc.
  destruct (first_hit cands n) as [[b|]|e] eqn:Hfh.
  - destruct (first_hit_in _ _ _ Hfh) as [obj Hobj]. exists obj. split; [exact Hobj|].
    rewrite (Hc _ Hobj) in Hrun.
    destruct (getitem (netname (bump obj))) as [name|]; cbn [bind] in Hrun; [|discriminate].
    destruct (if String.eqb name "APNIC-AP" then getitem (cidr (bump obj))
              else Ok EmptyString); cbn [bind] in Hrun; [|discriminate].
    congruence.
  - congruence.
  - congruence.
Qed.

Lemma counted_bump k v : 0 <= k -> counted k (bump v) = counted (1 + k) v.
Proof.
  intros Hk. unfold counted, bump. cbn.
  destruct (Z.eqb_spec (1 + k) 0); [lia|].
  destruct (Z.eqb_spec k 0) as [->|_]; f_equal; f_equal; lia.
Qed.

Lemma counted_zero v : counted 0 v = v.
Proof. destruct v. reflexivity. Qed.

Lemma count_ips_lookup lines (networks networks' : Table) b :
  count_ips lines networks = Ok networks' ->
  networks' !! b = counted (hit_count networks b lines) <$> networks !! b.
Proof.
  revert networks. induction lines as [|ip lines IH]; intros n Hrun; cbn [count_ips] in Hrun.
  - injection Hrun as <-. cbn [hit_count].
    destruct (n !! b) as [v|]; cbn; [rewrite counted_zero|]; reflexivity.
  - destruct (count_ip_loop _ n) as [n1|] eqn:H1; cbn [bind] in Hrun; [|discriminate].
    rewrite (IH _ Hrun). apply count_ip_loop_step in H1.
    cbn [hit_count]. unfold hits at 1.
    pose proof (hit_count_nonneg n b lines) as Hnn.
    destruct (first_hit _ n) as [[b0|]|e] eqn:Hfh; [| |contradiction].
    + destruct H1 as (obj & Hobj & ->).
      assert (forall k, is_Some (<[b0:=bump obj]> n !! k) <-> is_Some (n !! k)) as Hdom.
      { intros k. destruct (decide (b0 = k)) as [->|Hne].
        - rewrite lookup_insert_eq, Hobj. split; eauto.
        - rewrite lookup_insert_ne by exact Hne. reflexivity. }
      rewrite (hit_count_dom _ _ _ _ Hdom).
      destruct (decide (b0 = b)) as [->|Hne].
      * rewrite lookup_insert_eq, Hobj, bool_decide_eq_true_2 by reflexivity. cbn [fmap option_fmap option_map].
        rewrite counted_bump by exact Hnn. reflexivity.
      * rewrite lookup_insert_ne by exact Hne.
        rewrite bool_decide_eq_false_2 by exact Hne. reflexivity.
    + subst n1. reflexivity.
Qed.

(** X11: after [count_ips], the table has the same blocks, and each
    entry is the one before with its counter raised by the number of
    lines whose lookup ends at its block; an entry that no line hits is
    unchanged and gets no counter. *)
Theorem count_ips_counters lines (networks networks' : Table) :
  count_ips lines networks = Ok networks' ->
  (forall b, networks' !! b = counted (hit_count networks b lines) <$> networks !! b) /\
  (forall b, hit_count networks b lines = 0 -> networks' !! b = networks !! b).
Proof.
  intros Hrun. split.
  - intros b. apply count_ips_lookup. exact Hrun.
  - intros b Hb. rewrite (count_ips_lookup _ _ _ b Hrun), Hb.
    destruct (networks !! b) as [v|]; cbn; [rewrite counted_zero|]; reflexivity.
Qed.

Lemma count_ips_counters_witness :
  (forall b,
     (<[Net 167837696 16 :=
          counted 2 (ex_entry "10.1.0.0/16" "TEN-ONE-NET" "US")]> ex_table) !! b
     = counted (hit_count ex_table b
                  ["10.1.2.3" +:+ nl; "10.1.9.9" +:+ nl; "11.0.0.1" +:+ nl])
         <$> ex_table !! b) /\
  (forall b,
     hit_count ex_table b ["10.1.2.3" +:+ nl; "10.1.9.9" +:+ nl; "11.0.0.1" +:+ nl] = 0 ->
     (<[Net 167837696 16 :=
          counted 2 (ex_entry "10.1.0.0/16" "TEN-ONE-NET" "US")]> ex_table) !! b
     = ex_table !! b).
Proof.
  apply (count_ips_counters ["10.1.2.3" +:+ nl; "10.1.9.9" +:+ nl; "11.0.0.1" +:+ nl] ex_table).
  vm_compute. reflexivity.
Defined.

Lemma count_ips_app l1 l2 (n : Table) :
  count_ips (l1 ++ l2) n = do n1 <- count_ips l1 n; count_ips l2 n1.
Proof.
  revert n. induction l1 as [|x l1 IH]; intros n; cbn [app count_ips bind].
  - reflexivity.
  - destruct (count_ip_loop _ n); cbn [bind]; [apply IH | reflexivity].
Qed.

(** X12: a line of the address file that is not a valid IPv4 address, a
    blank line included, makes [count_ips] raise [AddressValueError]; it
    is not treated as a miss. *)
Theorem count_ips_invalid_address pre ip post (networks n1 : Table) e :
  count_ips pre networks = Ok n1 ->
  IPv4Address (Str.strip ip) = Err e ->
  count_ips (pre ++ ip :: post) networks = Err AddressValueError.
Proof.
  intros Hpre Hip. rewrite count_ips_app, Hpre. cbn [bind count_ips].
  unfold guess_subnets. rewrite mask_lengths. cbn [map count_ip_loop].
  unfold IPv4Network_of_str at 1.
  destruct (Str.contains_char "/" (Str.strip ip)); [reflexivity|].
  rewrite Hip. cbn [bind]. apply IPv4Address_error in Hip. subst e. reflexivity.
Qed.

Lemma count_ips_invalid_address_witness :
  count_ips (["10.1.2.3" +:+ nl] ++ nl :: ["10.1.9.9" +:+ nl]) ex_table = Err AddressValueError.
Proof.
  eapply (count_ips_invalid_address ["10.1.2.3" +:+ nl] nl ["10.1.9.9" +:+ nl] ex_table).
  - vm_compute. reflexivity.
  - vm_compute. reflexivity.
Defined.

(** X13: on a table that [load_networks] returned, [count_ips] raises
    nothing when every line is a valid address: each entry it can hit has
    the name and the [cidr] text the loop reads. *)
Theorem count_after_load_total lines ips t :
  load_networks lines = Ok t ->
  Forall (fun ip => exists a, IPv4Address (Str.strip ip) = Ok a) ips ->
  exists t', count_ips ips t = Ok t' /\
             forall k, is_Some (t' !! k) <-> is_Some (t !! k).
Proof.
  intros Hload Hips.
  assert (forall k v, t !! k = Some v -> is_Some (netname v) /\ is_Some (cidr v)) as Hinv.
  { intros k v Hk. destruct (load_networks_entry _ _ _ _ Hload Hk)
      as ((_ & _ & Hc & _) & Hn & _). rewrite Hc. split; [exact Hn | eauto]. }
  clear Hload. revert t Hinv.
  induction Hips as [|ip ips [a Ha] _ IH]; intros t Hinv; cbn [count_ips].
  - exists t. split; [reflexivity | tauto].
  - destruct (lookup_most_specific_hit _ _ t Ha) as (r & _ & Hspec).
    destruct r as [b|].
    + destruct Hspec as ([obj Hobj] & _ & _ & _ & Hcount).
      destruct (Hinv _ _ Hobj) as [Hn Hc].
      rewrite (Hcount _ Hobj Hn (fun _ => Hc)). cbn [bind].
      destruct (IH (<[b := bump obj]> t)) as (t' & Hrun & Hdom).
      { intros k v. destruct (decide (b = k)) as [->|Hne].
        - rewrite lookup_insert_eq. intros [= <-]. exact (conj Hn Hc).
        - rewrite lookup_insert_ne by exact Hne. apply Hinv. }
      exists t'. split; [exact Hrun|]. intros k. rewrite Hdom.
      destruct (decide (b = k)) as [->|Hne].
      * rewrite lookup_insert_eq, Hobj. split; eauto.
      * rewrite lookup_insert_ne by exact Hne. reflexivity.
    + destruct Hspec as [_ ->]. cbn [bind]. apply IH. exact Hinv.
Qed.

Lemma count_after_load_total_witness :
  exists t', count_ips ["1.2.3.5" +:+ nl; "1.2.4.1" +:+ nl]
               {[ Net 16909056 24 :=
                    record_entry (Net 16909056 24) 256 "1.2.3.0 - 1.2.3.255"
                      "EXAMPLE-NET" "Example" "US" None ]} = Ok t' /\
             forall k, is_Some (t' !! k) <->
                       is_Some (({[ Net 16909056 24 :=
                                      record_entry (Net 16909056 24) 256 "1.2.3.0 - 1.2.3.255"
                                        "EXAMPLE-NET" "Example" "US" None ]} : Table) !! k).
Proof.
  apply (count_after_load_total
           (ex_record "1.2.3.0 - 1.2.3.255" "EXAMPLE-NET" "Example" "US")).
  - vm_compute. reflexivity.
  - repeat constructor; eexists; vm_compute; reflexivity.
Defined.

(** ** The report *)

Lemma insert_desc_perm {A : Type} (x : Z * A) l : Permutation (insert_desc x l) (x :: l).
Proof.
  induction l as [|y l IH]; cbn [insert_desc]; [reflexivity|].
  destruct (fst x <? fst y); [|reflexivity].
  rewrite IH. apply perm_swap.
Qed.

Lemma sort_desc_perm {A : Type} (l : list (Z * A)) : Permutation (sort_desc l) l.
Proof.
  induction l as [|x l IH]; cbn; [reflexivity|].
  rewrite insert_desc_perm. constructor. exact IH.
Qed.

Lemma insert_desc_sorted {A : Type} (x : Z * A) l :
  StronglySorted (fun p q => fst q <= fst p) l ->
  StronglySorted (fun p q => fst q <= fst p) (insert_desc x l).
Proof.
  induction 1 as [|y l Hl IH Hy]; cbn [insert_desc].
  - repeat constructor.
  - destruct (Z.ltb_spec (fst x) (fst y)) as [Hlt|Hge].
    + constructor; [exact IH|].
      rewrite (Forall_forall (fun q => fst q <= fst y)). intros q Hq.
      rewrite insert_desc_perm in Hq. apply elem_of_cons in Hq as [->|Hq]; [lia|].
      rewrite Forall_forall in Hy. apply Hy. exact Hq.
    + constructor; [constructor; assumption|].
      constructor; [exact Hge|].
      rewrite Forall_forall in *. intros q Hq. specialize (Hy q Hq). lia.
Qed.

Lemma sort_desc_sorted {A : Type} (l : list (Z * A)) :
  StronglySorted (fun p q => fst q <= fst p) (sort_desc l).
Proof.
  induction l as [|x l IH]; cbn; [constructor | apply insert_desc_sorted; exact IH].
Qed.

Lemma insert_desc_stable {A : Type} (x : Z * A) l c :
  List.filter (fun p => fst p =? c) (insert_desc x l) =
  List.filter (fun p => fst p =? c) (x :: l).
Proof.
  induction l as [|y l IH]; cbn [insert_desc]; [reflexivity|].
  destruct (Z.ltb_spec (fst x) (fst y)) as [Hlt|Hge]; [|reflexivity].
  cbn [List.filter] in *. rewrite IH.
  destruct (Z.eqb_spec (fst y) c) as [Hy|Hy]; [|reflexivity].
  destruct (Z.eqb_spec (fst x) c) as [Hx|Hx]; [lia | reflexivity].
Qed.

Lemma sort_desc_stable {A : Type} (l : list (Z * A)) c :
  List.filter (fun p => fst p =? c) (sort_desc l) = List.filter (fun p => fst p =? c) l.
Proof.
  induction l as [|x l IH]; cbn [sort_desc fold_right]; [reflexivity|].
  rewrite insert_desc_stable. cbn [List.filter]. fold (sort_desc l). rewrite IH. reflexivity.
Qed.

Lemma keyed_ok l :
  (forall x, In x l -> has_count x = true) ->
  mapM (fun x => do k <- getitem (ip_count x); Ok (k, x)) l =
  Ok (map (fun x => (count_of x, x)) l).
Proof.
  induction l as [|x l IH]; intros H; cbn [mapM map]; [reflexivity|].
  assert (has_count x = true) as Hx by (apply H; left; reflexivity).
  unfold has_count, count_of in *. destruct (ip_count x) as [k|]; [|discriminate].
  cbn. rewrite IH by (intros y Hy; apply H; right; exact Hy). reflexivity.
Qed.

Lemma my_subnets_eq values :
  my_subnets values =
  Ok (map snd (sort_desc (map (fun x => (count_of x, x)) (List.filter has_count values)))).
Proof.
  unfold my_subnets. rewrite keyed_ok; [reflexivity|].
  intros x Hx. apply filter_In in Hx. tauto.
Qed.

Lemma keyed_filter_snd (ks : list (Z * Entry)) c :
  Forall (fun p => fst p = count_of (snd p)) ks ->
  List.filter (fun x => count_of x =? c) (map snd ks) =
  map snd (List.filter (fun p => fst p =? c) ks).
Proof.
  induction 1 as [|p ks Hp _ IH]; cbn [map List.filter]; [reflexivity|].
  rewrite <- Hp, IH. destruct (fst p =? c); reflexivity.
Qed.

Lemma my_subnets_perm values :
  exists sorted,
    my_subnets values = Ok sorted /\
    Permutation sorted (List.filter has_count values).
Proof.
  eexists. split; [apply my_subnets_eq|].
  transitivity (map snd (map (fun x => (count_of x, x)) (List.filter has_count values)));
    [apply Permutation_map, sort_desc_perm|].
  rewrite map_map. cbn. rewrite map_id. reflexivity.
Qed.

(** X14: the entries of the report are the entries with a non-zero
    counter, all of them and no other, in descending order of their
    counters, entries with equal counters in the order in which the table
    lists them; selecting and sorting them raises nothing. *)
Theorem my_subnets_sorted values :
  exists sorted,
    my_subnets values = Ok sorted /\
    Permutation sorted (List.filter has_count values) /\
    StronglySorted (fun x y => count_of y <= count_of x) sorted /\
    forall c,
      List.filter (fun x => count_of x =? c) sorted =
      List.filter (fun x => count_of x =? c) (List.filter has_count values).
Proof.
  eexists. split; [apply my_subnets_eq|].
  set (l := List.filter has_count values).
  set (ks := map (fun x => (count_of x, x)) l).
  assert (map snd ks = l) as Hsnd.
  { unfold ks. rewrite map_map. cbn. apply map_id. }
  assert (Forall (fun p => fst p = count_of (snd p)) ks) as Hks.
  { unfold ks. rewrite Forall_forall. intros p Hp.
    apply list_elem_of_In, in_map_iff in Hp as (x & <- & _). reflexivity. }
  assert (Forall (fun p => fst p = count_of (snd p)) (sort_desc ks)) as Hsk.
  { rewrite Forall_forall in *. intros p Hp. apply Hks.
    rewrite sort_desc_perm in Hp. exact Hp. }
  split; [|split].
  - transitivity (map snd ks); [apply Permutation_map, sort_desc_perm|].
    rewrite Hsnd. reflexivity.
  - pose proof (sort_desc_sorted ks) as Hs. revert Hsk.
    induction Hs as [|p ps Hps IH Hp]; intros Hsk; cbn [map]; [constructor|].
    apply Forall_cons in Hsk as [Hp0 Hsk]. constructor; [apply IH; exact Hsk|].
    pose proof (proj1 (Forall_forall _ _) Hsk) as Hsk'.
    pose proof (proj1 (Forall_forall _ _) Hp) as Hp'.
    rewrite Forall_forall. intros y Hy.
    apply list_elem_of_In, in_map_iff in Hy as (q & <- & Hq).
    apply list_elem_of_In in Hq. rewrite <- Hp0, <- (Hsk' q Hq). apply Hp'. exact Hq.
  - intros c. rewrite (keyed_filter_snd _ c Hsk), sort_desc_stable.
    rewrite <- (keyed_filter_snd _ c Hks), Hsnd. reflexivity.
Qed.

Lemma row_ok x :
  is_Some (ip_count x) -> has_row_fields x -> exists cells, row x = Ok cells.
Proof.
  intros [a Ha] ([b Hb] & [c Hc] & [d Hd] & [f Hf] & [g Hg] & [h Hh]).
  unfold row. rewrite Ha, Hb, Hc, Hd, Hf, Hg, Hh. cbn. eauto.
Qed.

Lemma row_error x e :
  row x = Err e -> e = KeyError /\ (ip_count x = None \/ ~ has_row_fields x).
Proof.
  unfold row, has_row_fields.
  destruct (ip_count x); cbn [getitem bind]; [|intros [= <-]; auto].
  destruct (cidr x); cbn [getitem bind];
    [|intros [= <-]; split; [reflexivity|]; right; intros ([? ?] & _); discriminate].
  destruct (country x); cbn [getitem bind];
    [|intros [= <-]; split; [reflexivity|]; right; intros (_ & [? ?] & _); discriminate].
  destruct (netname x); cbn [getitem bind];
    [|intros [= <-]; split; [reflexivity|]; right; intros (_ & _ & [? ?] & _); discriminate].
  destruct (descr x); cbn [getitem bind];
    [|intros [= <-]; split; [reflexivity|]; right;
      intros (_ & _ & _ & [? ?] & _); discriminate].
  destruct (inetnum x); cbn [getitem bind];
    [|intros [= <-]; split; [reflexivity|]; right;
      intros (_ & _ & _ & _ & [? ?] & _); discriminate].
  destruct (num_addr_orig x); cbn [getitem bind];
    [discriminate|intros [= <-]; split; [reflexivity|]; right;
      intros (_ & _ & _ & _ & _ & [? ?]); discriminate].
Qed.

Lemma mapM_error {A B : Type} (f : A -> result B) l e :
  mapM f l = Err e -> exists x, In x l /\ f x = Err e.
Proof.
  induction l as [|x l IH]; cbn [mapM]; [discriminate|].
  destruct (f x) as [y|e'] eqn:Hx; cbn [bind].
  - destruct (mapM f l) as [ys|e'']; cbn [bind]; [discriminate|].
    intros [= <-]. destruct (IH eq_refl) as (z & Hz & Hfz). exists z. split; [right|]; assumption.
  - intros [= <-]. exists x. split; [left; reflexivity | exact Hx].
Qed.

Lemma mapM_ok {A B : Type} (f : A -> result B) l ys :
  mapM f l = Ok ys -> Forall2 (fun x y => f x = Ok y) l ys.
Proof.
  revert ys. induction l as [|x l IH]; cbn [mapM]; intros ys.
  - intros [= <-]. constructor.
  - destruct (f x) as [y|] eqn:Hx; cbn [bind]; [|discriminate].
    destruct (mapM f l) as [ys'|]; cbn [bind]; [|discriminate].
    intros [= <-]. constructor; [exact Hx | apply IH; reflexivity].
Qed.

Lemma mapM_ok_each {A B : Type} (f : A -> result B) l ys x :
  mapM f l = Ok ys -> In x l -> exists y, f x = Ok y.
Proof.
  revert ys. induction l as [|x0 l IH]; cbn [mapM]; intros ys Hok Hx; [destruct Hx|].
  destruct (f x0) as [y|] eqn:Hx0; cbn [bind] in Hok; [|discriminate].
  destruct (mapM f l) as [ys'|]; cbn [bind] in Hok; [|discriminate].
  destruct Hx as [<-|Hx]; [eauto | eapply IH; [reflexivity | exact Hx]].
Qed.

Lemma row_ok_fields x r : row x = Ok r -> has_row_fields x.
Proof.
  unfold row, has_row_fields.
  destruct (ip_count x); cbn [getitem bind]; [|discriminate].
  destruct (cidr x); cbn [getitem bind]; [|discriminate].
  destruct (country x); cbn [getitem bind]; [|discriminate].
  destruct (netname x); cbn [getitem bind]; [|discriminate].
  destruct (descr x); cbn [getitem bind]; [|discriminate].
  destruct (inetnum x); cbn [getitem bind]; [|discriminate].
  destruct (num_addr_orig x); cbn [getitem bind]; [|discriminate].
  intros _. repeat split; eauto.
Qed.

Lemma has_count_some x : has_count x = true -> is_Some (ip_count x).
Proof.
  unfold has_count. destruct (ip_count x); [eauto | discriminate].
Qed.

(** The report by its result. *)
Lemma report_cases values :
  match report values with
  | Ok rows =>
      (exists sorted, my_subnets values = Ok sorted /\
                      Forall2 (fun x r => row x = Ok r) sorted rows) /\
      (forall x, In x values -> has_count x = true -> has_row_fields x)
  | Err e =>
      e = KeyError /\
      exists x, In x values /\ has_count x = true /\ ~ has_row_fields x
  end.
Proof.
  destruct (my_subnets_perm values) as (sorted & Hs & Hperm).
  unfold report. rewrite Hs. cbn [bind].
  assert (forall x, In x sorted <-> In x values /\ has_count x = true) as Hin.
  { intros x. rewrite <- filter_In. split; apply Permutation_in;
      [exact Hperm | symmetry; exact Hperm]. }
  destruct (mapM row sorted) as [rows|e] eqn:Hrows.
  - split; [exists sorted; split; [reflexivity | apply mapM_ok; exact Hrows]|].
    intros x Hx Hc.
    assert (In x sorted) as Hxs by (apply Hin; auto).
    destruct (mapM_ok_each _ _ _ _ Hrows Hxs) as [r Hr].
    eapply row_ok_fields. exact Hr.
  - apply mapM_error in Hrows as (x & Hx & Herr).
    destruct (row_error _ _ Herr) as [-> Hbad]. apply Hin in Hx as [Hx Hc].
    split; [reflexivity|].
    exists x. split; [exact Hx|]. split; [exact Hc|].
    destruct Hbad as [Hnone|Hbad]; [|exact Hbad].
    apply has_count_some in Hc. rewrite Hnone in Hc. destruct Hc. discriminate.
Qed.

(** X15: the report raises [KeyError] exactly when an entry with a
    non-zero counter lacks one of the columns [cidr], [country],
    [netname], [descr], [inetnum], [num_addr_orig]; otherwise it has one
    row for each entry with a non-zero counter, in the sorted order, made
    of that entry's seven fields. *)
Theorem report_outcome values :
  (report values = Err KeyError <->
   exists x, In x values /\ has_count x = true /\ ~ has_row_fields x) /\
  ((exists sorted rows,
      my_subnets values = Ok sorted /\ report values = Ok rows /\
      Forall2 (fun x r => row x = Ok r) sorted rows) \/
   report values = Err KeyError).
Proof.
  pose proof (report_cases values) as Hc.
  destruct (report values) as [rows|e].
  - destruct Hc as [(sorted & Hs & Hrows) Hall]. split.
    + split; [discriminate|]. intros (x & Hx & Hcnt & Hbad). exfalso. apply Hbad. auto.
    + left. exists sorted, rows. auto.
  - destruct Hc as [-> Hex]. split; [|right; reflexivity].
    split; [intros _; exact Hex | reflexivity].
Qed.

(** X16: on a table loaded by [load_networks] and counted by
    [count_ips], the report raises [KeyError] exactly when the loaded
    entry of a block that some address hit has no [descr] key; all the
    other columns are always there.  Whether an entry has that key
    depends on every record that wrote to the block: a [descr] left by
    an earlier record counts. *)
Theorem report_after_count lines ips (t t' : Table) values :
  load_networks lines = Ok t ->
  count_ips ips t = Ok t' ->
  Permutation values (map snd (map_to_list t')) ->
  (forall x, In x values <->
             exists k v, t !! k = Some v /\ x = counted (hit_count t k ips) v) /\
  (report values = Err KeyError <->
   exists k v, t !! k = Some v /\ 0 < hit_count t k ips /\ descr v = None) /\
  ((exists rows, report values = Ok rows) \/ report values = Err KeyError).
Proof.
  intros Hload Hcount Hperm.
  assert (forall x, In x values <->
                    exists k v, t !! k = Some v /\ x = counted (hit_count t k ips) v) as Hin.
  { intros x. split.
    - intros Hx. apply (Permutation_in _ Hperm) in Hx.
      apply in_map_iff in Hx as ([k x'] & <- & Hk). apply list_elem_of_In in Hk.
      apply elem_of_map_to_list in Hk. rewrite (count_ips_lookup _ _ _ _ Hcount) in Hk.
      destruct (t !! k) as [v|] eqn:Hv; [|discriminate]. cbn in Hk. injection Hk as <-.
      exists k, v. split; [exact Hv | reflexivity].
    - intros (k & v & Hv & ->). apply (Permutation_in _ (Permutation_sym Hperm)).
      apply in_map_iff. exists (k, counted (hit_count t k ips) v). split; [reflexivity|].
      apply list_elem_of_In, elem_of_map_to_list.
      rewrite (count_ips_lookup _ _ _ _ Hcount), Hv. reflexivity. }
  split; [exact Hin|].
  assert (report values = Err KeyError <->
          exists x, In x values /\ has_count x = true /\ ~ has_row_fields x) as Herr.
  { pose proof (report_cases values) as Hc. destruct (report values) as [rows|e].
    - destruct Hc as [_ Hall]. split; [discriminate|].
      intros (x & Hx & Hcnt & Hbad). exfalso. apply Hbad. auto.
    - destruct Hc as [-> Hex]. split; [intros _; exact Hex | reflexivity]. }
  assert ((exists rows, report values = Ok rows) \/ report values = Err KeyError) as Hor.
  { pose proof (report_cases values) as Hc. destruct (report values) as [rows|e].
    - left. eauto.
    - destruct Hc as [-> _]. right. reflexivity. }
  split.
  - rewrite Herr. split.
    + intros (x & Hx & Hc & Hbad). apply Hin in Hx as (k & v & Hv & ->).
      destruct (load_networks_entry _ _ _ _ Hload Hv)
        as ((_ & _ & H3 & (n & H4 & _) & H5 & H8) & H6 & H7).
      pose proof (hit_count_nonneg t k ips) as Hnn.
      exists k, v. split; [exact Hv|]. split.
      * unfold has_count, counted in Hc. cbn in Hc.
        destruct (Z.eqb_spec (hit_count t k ips) 0) as [H0|H0]; [|lia].
        rewrite H8 in Hc. discriminate.
      * destruct (descr v) as [d|] eqn:Hd; [|reflexivity].
        exfalso. apply Hbad. unfold has_row_fields, counted. cbn.
        rewrite H3, H4, Hd. repeat split; eauto.
    + intros (k & v & Hv & Hpos & Hd).
      exists (counted (hit_count t k ips) v). split; [apply Hin; eauto|].
      destruct (load_networks_entry _ _ _ _ Hload Hv) as ((_ & _ & _ & _ & _ & H8) & _).
      split.
      * unfold has_count, counted. cbn.
        destruct (Z.eqb_spec (hit_count t k ips) 0) as [H0|H0]; [lia|].
        cbn. rewrite H8. cbn. destruct (Z.eqb_spec (0 + hit_count t k ips) 0); [lia|reflexivity].
      * intros (_ & _ & _ & [d Hd'] & _). cbn in Hd'. congruence.
  - exact Hor.
Qed.

Lemma report_after_count_witness :
  exists t t',
    load_networks ["inetnum: 1.2.3.0 - 1.2.3.255" +:+ nl; "netname: EXAMPLE-NET" +:+ nl;
                   "country: US" +:+ nl] = Ok t /\
    count_ips ["1.2.3.5" +:+ nl] t = Ok t' /\
    (forall x, In x (map snd (map_to_list t')) <->
               exists k v, t !! k = Some v /\
                           x = counted (hit_count t k ["1.2.3.5" +:+ nl]) v) /\
    (report (map snd (map_to_list t')) = Err KeyError <->
     exists k v, t !! k = Some v /\ 0 < hit_count t k ["1.2.3.5" +:+ nl] /\ descr v = None) /\
    ((exists rows, report (map snd (map_to_list t')) = Ok rows) \/
     report (map snd (map_to_list t')) = Err KeyError).
Proof.
  do 2 eexists. split; [vm_compute; reflexivity|]. split; [vm_compute; reflexivity|].
  eapply (report_after_count
            ["inetnum: 1.2.3.0 - 1.2.3.255" +:+ nl; "netname: EXAMPLE-NET" +:+ nl;
             "country: US" +:+ nl] ["1.2.3.5" +:+ nl]).
  - vm_compute. reflexivity.
  - vm_compute. reflexivity.
  - reflexivity.
Defined.

Example report_missing_descr :
  (do t <- load_networks ["inetnum: 1.2.3.0 - 1.2.3.255" +:+ nl;
                          "netname: EXAMPLE-NET" +:+ nl; "country: US" +:+ nl];
   do t' <- count_ips ["1.2.3.5" +:+ nl] t;
   report (map snd (map_to_list t'))) = Err KeyError.
Proof. vm_compute. reflexivity. Qed.

Example report_three_hits :
  (do t <- load_networks (ex_record "1.2.3.0 - 1.2.3.255" "EXAMPLE-NET" "Example" "US");
   do t' <- count_ips ["1.2.3.5" +:+ nl; "1.2.3.5" +:+ nl; "1.2.3.5" +:+ nl; "1.2.4.1" +:+ nl] t;
   report (map snd (map_to_list t')))
  = Ok [[CInt 3; CStr "1.2.3.0/24"; CStr "US"; CStr "EXAMPLE-NET"; CStr "Example";
         CStr "1.2.3.0 - 1.2.3.255"; CInt 256]].
Proof. vm_compute. reflexivity. Qed.

(** ** The counters add up *)

Lemma total_count_insert (t : Table) b obj v :
  t !! b = Some obj ->
  total_count (<[b := v]> t) = total_count t - count_of obj + count_of v.
Proof.
  intros Hb. unfold total_count.
  rewrite (map_fold_delete_L _ 0 b obj t); [|intros; lia|exact Hb].
  rewrite <- (insert_delete_eq t b v).
  rewrite map_fold_insert_L; [lia|intros; lia|apply lookup_delete_eq].
Qed.

Lemma found_dom (n1 n2 : Table) ip :
  (forall k, is_Some (n1 !! k) <-> is_Some (n2 !! k)) ->
  found n1 ip = found n2 ip.
Proof. intros Hdom. unfold found. rewrite (first_hit_dom _ _ _ Hdom). reflexivity. Qed.

Lemma filter_found_dom (n1 n2 : Table) lines :
  (forall k, is_Some (n1 !! k) <-> is_Some (n2 !! k)) ->
  List.filter (found n1) lines = List.filter (found n2) lines.
Proof.
  intros Hdom. induction lines as [|ip lines IH]; cbn [List.filter]; [reflexivity|].
  rewrite (found_dom _ _ _ Hdom), IH. reflexivity.
Qed.

(** X17: [count_ips] raises the sum of all counters by exactly the
    number of lines whose lookup found a block: an address is counted
    once, at one block, or not at all. *)
Theorem count_ips_total lines (networks networks' : Table) :
  count_ips lines networks = Ok networks' ->
  total_count networks' =
    total_count networks + Z.of_nat (length (List.filter (found networks) lines)) /\
  total_count networks' <= total_count networks + Z.of_nat (length lines).
Proof.
  intros Hrun.
  assert (total_count networks' =
          total_count networks + Z.of_nat (length (List.filter (found networks) lines))) as Heq.
  { revert networks Hrun. induction lines as [|ip lines IH]; intros n Hrun;
      cbn [count_ips] in Hrun.
    - injection Hrun as <-. cbn. lia.
    - destruct (count_ip_loop _ n) as [n1|] eqn:H1; cbn [bind] in Hrun; [|discriminate].
      rewrite (IH _ Hrun). apply count_ip_loop_step in H1.
      cbn [List.filter]. unfold found at 2.
      destruct (first_hit _ n) as [[b0|]|e] eqn:Hfh; [| |contradiction].
      + destruct H1 as (obj & Hobj & ->).
        assert (forall k, is_Some (<[b0:=bump obj]> n !! k) <-> is_Some (n !! k)) as Hdom.
        { intros k. destruct (decide (b0 = k)) as [->|Hne].
          - rewrite lookup_insert_eq, Hobj. split; eauto.
          - rewrite lookup_insert_ne by exact Hne. reflexivity. }
        rewrite (filter_found_dom _ _ _ Hdom), (total_count_insert _ _ _ _ Hobj).
        cbn [length]. unfold count_of, bump. cbn. lia.
      + subst n1. lia. }
  split; [exact Heq|].
  rewrite Heq. pose proof (List.filter_length_le (found networks) lines). lia.
Qed.

Lemma count_ips_total_witness :
  total_count (<[Net 167837696 16 :=
                   counted 2 (ex_entry "10.1.0.0/16" "TEN-ONE-NET" "US")]> ex_table) =
    total_count ex_table +
    Z.of_nat (length (List.filter (found ex_table)
                        ["10.1.2.3" +:+ nl; "10.1.9.9" +:+ nl; "11.0.0.1" +:+ nl])) /\
  total_count (<[Net 167837696 16 :=
                   counted 2 (ex_entry "10.1.0.0/16" "TEN-ONE-NET" "US")]> ex_table) <=
    total_count ex_table +
    Z.of_nat (length ["10.1.2.3" +:+ nl; "10.1.9.9" +:+ nl; "11.0.0.1" +:+ nl]).
Proof.
  apply (count_ips_total ["10.1.2.3" +:+ nl; "10.1.9.9" +:+ nl; "11.0.0.1" +:+ nl] ex_table).
  vm_compute. reflexivity.
Defined.
